(** * Quantum wave-function store: a shallow embedding of [wave_function.py]

    The development follows the Python module
    [quantum_wavefunc_redis/wave_function.py]:

    - Python [float] is IEEE-754 binary64; it is represented by the Standard
      Library's [spec_float], and every arithmetic result, every [float(...)]
      parse and every [format] rounding is the correctly rounded one
      (round to nearest, ties to even), computed on exact integers;
    - [bytes] are strings of ASCII characters;
    - the Redis server is a keyspace of typed entries with optional expiry
      stamps and a millisecond clock, keys expire lazily as in Redis;
    - functions that raise are computations in a state-and-exception monad.
*)

From Stdlib Require Import ZArith QArith Qabs Lia Bool Ascii String.
From Stdlib Require Import Floats.SpecFloat.
From stdpp Require Import base gmap strings list fin_maps.

Local Open Scope Z_scope.

(* ===================================================================== *)
(** * Part I: definitions                                                *)
(* ===================================================================== *)

(** ** Python floats (binary64) *)

Module Float.

Definition prec : Z := 53.
Definition emax : Z := 1024.

(** Exponent of the smallest subnormal, [emin prec emax] of [SpecFloat]. *)
Definition e_min : Z := -1074.

(** Largest exponent of a finite value, [emax - prec]. *)
Definition e_top : Z := 971.

(** [2^1074]: every finite binary64 is an integer multiple of [1/ulp_inv]. *)
Definition ulp_inv : Z := 2 ^ 1074.

Definition is_finite (f : spec_float) : bool :=
  match f with
  | S754_zero _ | S754_finite _ _ _ => true
  | _ => false
  end.

Definition is_nan (f : spec_float) : bool :=
  match f with S754_nan => true | _ => false end.

Definition sign_of (f : spec_float) : bool :=
  match f with
  | S754_zero s | S754_infinity s | S754_finite s _ _ => s
  | S754_nan => false
  end.

(** A well-formed Python float: the canonical representation of a binary64. *)
Definition valid (f : spec_float) : bool := valid_binary prec emax f.

(** The exact value of a finite float, scaled by [2^1074] so that it is an
    integer; 0 for infinities and NaN. *)
Definition sval (f : spec_float) : Z :=
  match f with
  | S754_finite s m e =>
      (if s then -1 else 1) * (Z.pos m * 2 ^ (e - e_min))
  | _ => 0
  end.

(** The exact value of a finite float as a rational. *)
Definition F2Q (f : spec_float) : Q := Qmake (sval f) (Z.to_pos ulp_inv).

(** Nearest integer to [p/q] ([0 <= p], [0 < q]), ties to the even one. *)
Definition round_half_even (p q : Z) : Z :=
  let d := p / q in
  match 2 * (p mod q) ?= q with
  | Lt => d
  | Gt => d + 1
  | Eq => if Z.even d then d else d + 1
  end.

(** Rounding of the non-negative rational [p/q], given in units of
    [2^e_min], to the binary64 grid: the result is [(m, sh)] standing for
    [m * 2^(sh + e_min)], with [sh] the exponent shift of the binade of
    [p/q] and [m <= 2^53]. *)
Definition nearest_scaled (p q : Z) : Z * Z :=
  let sh := Z.max 0 (Z.log2 (p / q) - 52) in
  (round_half_even p (q * 2 ^ sh), sh).

(** Canonical float for [m * 2^(sh + e_min)] with [0 <= m <= 2^53]; a
    mantissa that rounded up to [2^53] moves to the next binade, and a value
    beyond the largest finite float overflows to infinity. *)
Definition mk_float (s : bool) (m sh : Z) : spec_float :=
  if m =? 0 then S754_zero s
  else
    let '(m', sh') := if m =? 2 ^ 53 then (2 ^ 52, sh + 1) else (m, sh) in
    if e_top - e_min <? sh' then S754_infinity s
    else S754_finite s (Z.to_pos m') (sh' + e_min).

(** The binary64 nearest to [(-1)^s * p / q] ([0 <= p], [0 < q]). *)
Definition round_to_binary64 (s : bool) (p q : Z) : spec_float :=
  let '(m, sh) := nearest_scaled (p * ulp_inv) q in mk_float s m sh.

(** [float(n)] for a Python int. *)
Definition of_int (n : Z) : spec_float :=
  round_to_binary64 (n <? 0) (Z.abs n) 1.

(** Python [int / int]: the correctly rounded quotient. Division by zero
    raises in Python; the callers below divide by non-zero literals. *)
Definition int_truediv (a b : Z) : spec_float :=
  round_to_binary64 (xorb (a <? 0) (b <? 0)) (Z.abs a) (Z.abs b).

(** Python [float / float] for a non-zero finite divisor. *)
Definition div (x y : spec_float) : spec_float :=
  match x with
  | S754_nan => S754_nan
  | S754_infinity s => S754_infinity (xorb s (sign_of y))
  | S754_zero s => S754_zero (xorb s (sign_of y))
  | S754_finite s _ _ =>
      round_to_binary64 (xorb s (sign_of y)) (Z.abs (sval x)) (Z.abs (sval y))
  end.

(** Python [float * float] for a non-zero finite right operand. *)
Definition mul (x y : spec_float) : spec_float :=
  match x with
  | S754_nan => S754_nan
  | S754_infinity s => S754_infinity (xorb s (sign_of y))
  | S754_zero s => S754_zero (xorb s (sign_of y))
  | S754_finite s _ _ =>
      round_to_binary64 (xorb s (sign_of y))
        (Z.abs (sval x) * Z.abs (sval y)) (ulp_inv * ulp_inv)
  end.

(** Python [f >= n] for a float [f] and an int [n]: the comparison is made
    on the exact values. *)
Definition ge_int (f : spec_float) (n : Z) : bool :=
  match f with
  | S754_nan => false
  | S754_infinity s => negb s
  | _ => n * ulp_inv <=? sval f
  end.

(** The magnitude of [round_to_binary64 s p q] in units of [2^e_min], for
    [p] given in these units, as long as it does not overflow. *)
Definition rounded (p q : Z) : Z :=
  let '(m, sh) := nearest_scaled p q in m * 2 ^ sh.

(** The magnitudes of the finite binary64 values, in units of [2^e_min]. *)
Definition representable (v : Z) : Prop :=
  exists m a, v = m * 2 ^ a /\ 0 <= m < 2 ^ 53 /\ 0 <= a <= 2045.

End Float.

(** ** Python text: decimal digits, [format], [float(...)], [split] *)

Module Text.

Local Open Scope string_scope.
Local Open Scope Z_scope.

Definition digit_char (d : Z) : ascii := ascii_of_nat (48 + Z.to_nat d).

Definition digit_val (c : ascii) : option Z :=
  let n := nat_of_ascii c in
  if ((48 <=? n) && (n <=? 57))%nat then Some (Z.of_nat (n - 48)) else None.

(** The [k] lowest decimal digits of [n], most significant first. *)
Fixpoint fixed_digits (k : nat) (n : Z) : string :=
  match k with
  | O => ""
  | S k' => String (digit_char (n / 10 ^ Z.of_nat k' mod 10)) (fixed_digits k' n)
  end.

(** Leading zeros are dropped, the last digit is kept. *)
Fixpoint strip_zeros (s : string) : string :=
  match s with
  | String c (String _ _ as s') =>
      if Ascii.eqb c "0" then strip_zeros s' else s
  | _ => s
  end.

(** Decimal numeral of [n >= 0], as [str(n)] prints it. A number has at most
    as many decimal digits as binary ones. *)
Definition dec (n : Z) : string :=
  strip_zeros (fixed_digits (S (Z.to_nat (Z.log2 n))) n).

(** [str(z)], also [f"{z}"], for a Python int. *)
Definition str_int (z : Z) : string :=
  if z <? 0 then String "-" (dec (- z)) else dec z.

(** Value of a string of decimal digits, [None] on any other character. *)
Fixpoint parse_digits_from (acc : Z) (s : string) : option Z :=
  match s with
  | "" => Some acc
  | String c s' =>
      match digit_val c with
      | Some d => parse_digits_from (10 * acc + d) s'
      | None => None
      end
  end.

Definition parse_digits (s : string) : option Z := parse_digits_from 0 s.

(** [s.split(sep)] for a one-character separator. *)
Fixpoint split_on (sep : ascii) (s : string) : list string :=
  match s with
  | "" => [""]
  | String c s' =>
      if Ascii.eqb c sep then "" :: split_on sep s'
      else match split_on sep s' with
           | p :: ps => String c p :: ps
           | [] => [String c ""]
           end
  end.

(** A decimal text read as a number: a special value, or the exact decimal
    [(-1)^s * n / 10^k] with its sign kept apart, as [-0.00] has one. *)
Inductive decimal :=
| DNan
| DInf (s : bool)
| DNum (s : bool) (n : Z) (k : nat).

(** Correct rounding of a float to [k] decimals, ties to even; the sign of
    a negative value survives rounding to zero. *)
Definition quantize (k : nat) (f : spec_float) : decimal :=
  match f with
  | S754_nan => DNan
  | S754_infinity s => DInf s
  | S754_zero s => DNum s 0 k
  | S754_finite s _ _ =>
      DNum s (Float.round_half_even (Z.abs (Float.sval f) * 10 ^ Z.of_nat k)
                                    Float.ulp_inv) k
  end.

Definition sign_str (s : bool) : string := if s then "-" else "".

(** Fixed-point notation: the integer part, a point, [k] decimals. *)
Definition show_decimal (d : decimal) : string :=
  match d with
  | DNan => "nan"
  | DInf s => sign_str s ++ "inf"
  | DNum s n k =>
      sign_str s ++ dec (n / 10 ^ Z.of_nat k) ++ "." ++ fixed_digits k n
  end.

(** [f"{f:.kf}"] for [k >= 1]. *)
Definition format_f (k : nat) (f : spec_float) : string :=
  show_decimal (quantize k f).

(** The texts that [float(...)] reads, as far as [format_f] emits them: an
    optional minus sign, then [inf], [nan] or digits with an optional
    fraction. Python reads further spellings (exponents, a plus sign,
    surrounding blanks, underscores), which no stored sample of this program
    uses; here they are [None], like any text that is not a number. *)
Definition read_decimal (s : string) : option decimal :=
  let '(sg, body) :=
    match s with
    | String "-" r => (true, r)
    | _ => (false, s)
    end in
  if String.eqb body "inf" then Some (DInf sg)
  else if String.eqb body "nan" then Some DNan
  else
    match split_on "." body with
    | [ip] =>
        match parse_digits ip with
        | Some a => if (String.length ip =? 0)%nat then None else Some (DNum sg a 0)
        | None => None
        end
    | [ip; fp] =>
        match parse_digits ip, parse_digits fp with
        | Some a, Some b =>
            if (String.length ip + String.length fp =? 0)%nat then None
            else
              let k := String.length fp in
              Some (DNum sg (a * 10 ^ Z.of_nat k + b) k)
        | _, _ => None
        end
    | _ => None
    end.

(** The binary64 nearest to a decimal. *)
Definition float_of_decimal (d : decimal) : spec_float :=
  match d with
  | DNan => S754_nan
  | DInf s => S754_infinity s
  | DNum s n k => Float.round_to_binary64 s n (10 ^ Z.of_nat k)
  end.

(** [float(s)]: [None] stands for [ValueError]. *)
Definition parse_float (s : string) : option spec_float :=
  float_of_decimal <$> read_decimal s.

End Text.

(** ** Computations that read and write a state and may raise *)

Inductive exn :=
| KeyError
| ValueError
| DataError          (* redis-py: a command called with an empty mapping *)
| ResponseError      (* Redis: WRONGTYPE *)
| OverflowError
| AttributeError
| SystemExit (code : Z).

(** [except Exception] catches everything but [SystemExit]. *)
Definition is_Exception (e : exn) : bool :=
  match e with SystemExit _ => false | _ => true end.

Inductive outcome (A : Type) :=
| Val (a : A)
| Raise (e : exn).
Arguments Val {A} a.
Arguments Raise {A} e.

Definition M (S A : Type) : Type := S -> outcome A * S.

Definition ret {S A} (a : A) : M S A := fun s => (Val a, s).

Definition raise {S A} (e : exn) : M S A := fun s => (Raise e, s).

Definition bind {S A B} (c : M S A) (k : A -> M S B) : M S B :=
  fun s =>
    match c s with
    | (Val a, s') => k a s'
    | (Raise e, s') => (Raise e, s')
    end.

Definition gets {S A} (f : S -> A) : M S A := fun s => (Val (f s), s).

Definition modify {S} (f : S -> S) : M S unit := fun s => (Val tt, f s).

(** [if b: c] *)
Definition when {S} (b : bool) (c : M S unit) : M S unit :=
  if b then c else ret tt.

(** [try: body / except Exception: handler] *)
Definition try_except {S A} (body : M S A) (handler : exn -> M S A) : M S A :=
  fun s =>
    match body s with
    | (Raise e, s') => if is_Exception e then handler e s' else (Raise e, s')
    | r => r
    end.

(** [try: body / finally: fin]; an exception of [fin] replaces the pending
    outcome of [body]. *)
Definition try_finally {S A} (body : M S A) (fin : M S unit) : M S A :=
  fun s =>
    match body s with
    | (r, s') =>
        match fin s' with
        | (Val _, s'') => (r, s'')
        | (Raise e, s'') => (Raise e, s'')
        end
    end.

Declare Scope prog_scope.
Delimit Scope prog_scope with prog.
Notation "x <- c ;; k" := (bind c (fun x => k))
  (at level 100, c at next level, right associativity) : prog_scope.
Notation "c ;; k" := (bind c (fun _ => k))
  (at level 100, right associativity) : prog_scope.

(** ** The Redis server *)

Module Redis.

Local Open Scope prog_scope.

Inductive value :=
| VHash (h : gmap string string)
| VOther.            (* a string, list, set, ...: any type but a hash *)

Record entry := Entry { e_val : value; e_expire : option Z }.

(** [now] and the expiry stamps are in milliseconds; [used_memory] is the
    allocator's figure that [INFO memory] reports, an estimate that the
    model keeps independent of the keyspace. *)
Record server := Server {
  keyspace : gmap string entry;
  now : Z;
  used_memory : Z
}.

Definition set_keyspace (ks : gmap string entry) (s : server) : server :=
  {| keyspace := ks; now := now s; used_memory := used_memory s |}.

(** An entry is expired once the clock is past its stamp. *)
Definition expired (t : Z) (e : entry) : bool :=
  match e_expire e with
  | Some w => w <? t
  | None => false
  end.

(** What every command sees of a key: expired entries are absent. *)
Definition lookup_key (s : server) (k : string) : option entry :=
  match keyspace s !! k with
  | Some e => if expired (now s) e then None else Some e
  | None => None
  end.

(** The simulated clock: [ms] milliseconds pass. *)
Definition advance (ms : Z) (s : server) : server :=
  {| keyspace := keyspace s; now := now s + ms; used_memory := used_memory s |}.

(** Glob patterns as Redis matches them: [*] is any run of characters, [?]
    any one character, everything else stands for itself (the patterns of
    this program use neither classes nor escapes). *)
Fixpoint glob_match (p s : string) {struct p} : bool :=
  match p with
  | EmptyString => match s with EmptyString => true | _ => false end
  | String c p' =>
      if Ascii.eqb c "*" then
        (fix star (s : string) : bool :=
           glob_match p' s ||
           match s with
           | EmptyString => false
           | String _ s' => star s'
           end) s
      else
        match s with
        | EmptyString => false
        | String d s' =>
            (Ascii.eqb c "?" || Ascii.eqb c d) && glob_match p' s'
        end
  end.

(** HGET key field *)
Definition hget (key field : string) : M server (option string) :=
  fun s =>
    match lookup_key s key with
    | None => (Val None, s)
    | Some (Entry (VHash h) _) => (Val (h !! field), s)
    | Some (Entry VOther _) => (Raise ResponseError, s)
    end.

(** [hmset(key, mapping)]: redis-py refuses an empty mapping; the fields of
    the mapping are set, the other fields and the expiry stamp are kept. *)
Definition hmset (key : string) (mapping : gmap string string) : M server bool :=
  fun s =>
    if decide (mapping = ∅) then (Raise DataError, s)
    else
      match lookup_key s key with
      | None =>
          (Val true, set_keyspace (<[key := Entry (VHash mapping) None]> (keyspace s)) s)
      | Some (Entry (VHash h) ex) =>
          (Val true, set_keyspace (<[key := Entry (VHash (mapping ∪ h)) ex]> (keyspace s)) s)
      | Some (Entry VOther _) => (Raise ResponseError, s)
      end.

(** EXPIRE key seconds: a missing key is left alone, a time to live that is
    not positive deletes the key. *)
Definition expire (key : string) (seconds : Z) : M server bool :=
  fun s =>
    match lookup_key s key with
    | None => (Val false, s)
    | Some (Entry v _) =>
        if seconds <=? 0 then (Val true, set_keyspace (delete key (keyspace s)) s)
        else
          (Val true,
           set_keyspace (<[key := Entry v (Some (now s + seconds * 1000))]> (keyspace s)) s)
    end.

(** [hscan_iter(key, match=pattern)]: the (field, value) pairs of the hash
    whose field matches. *)
Definition hscan_iter (key pattern : string) : M server (list (string * string)) :=
  fun s =>
    match lookup_key s key with
    | None => (Val [], s)
    | Some (Entry (VHash h) _) =>
        (Val (filter (fun kv => glob_match pattern kv.1 = true) (map_to_list h)), s)
    | Some (Entry VOther _) => (Raise ResponseError, s)
    end.

(** HDEL key field...: returns how many fields were removed; a hash left
    without fields is removed from the keyspace. *)
Definition hdel (key : string) (fields : list string) : M server Z :=
  fun s =>
    match lookup_key s key with
    | None => (Val 0, s)
    | Some (Entry (VHash h) ex) =>
        let h' := foldr delete h fields in
        let n := Z.of_nat (size h) - Z.of_nat (size h') in
        if decide (h' = ∅)
        then (Val n, set_keyspace (delete key (keyspace s)) s)
        else (Val n, set_keyspace (<[key := Entry (VHash h') ex]> (keyspace s)) s)
    | Some (Entry VOther _) => (Raise ResponseError, s)
    end.

(** KEYS pattern: the live keys that match. *)
Definition keys (pattern : string) : M server (list string) :=
  fun s =>
    (Val (filter (fun k => glob_match pattern k = true /\ is_Some (lookup_key s k))
                 (map_to_list (keyspace s)).*1), s).

(** DEL key...: returns how many live keys were removed. *)
Definition delete_keys (ks : list string) : M server Z :=
  fun s =>
    let live := filter (fun k => is_Some (lookup_key s k)) (remove_dups ks) in
    (Val (Z.of_nat (length live)),
     set_keyspace (foldr delete (keyspace s) ks) s).

(** [info("memory")["used_memory"]] *)
Definition info_used_memory : M server Z := gets used_memory.

End Redis.

(** ** The module [wave_function.py] *)

Local Open Scope prog_scope.

(** [class QuantumRedisConfig] *)
Module CONFIG.
Definition ROOT_HASH_KEY : string := "quantum:wave_func:psi_map".
Definition MAX_MEMORY_MB : Z := 8000.
Definition TEMP_DATA_TTL : Z := 3600.
End CONFIG.

(** A [redis.Redis] handle: its connection pool holds open sockets or not;
    a command sent through the handle opens a connection when none is. *)
Record client := Client { connected : bool }.

(** The process: the module globals [redis_client] and [EXIT_FLAG], and the
    server the client talks to. Output written by [print] is not modelled. *)
Record world := World {
  redis_client : option client;
  EXIT_FLAG : bool;
  store : Redis.server
}.

(** A command sent through the global [redis_client]. *)
Definition call {A} (cmd : M Redis.server A) : M world A :=
  fun w =>
    match redis_client w with
    | None => (Raise AttributeError, w)
    | Some _ =>
        let '(r, s') := cmd (store w) in
        (r, {| redis_client := Some (Client true);
               EXIT_FLAG := EXIT_FLAG w;
               store := s' |})
    end.

(** [redis_client.connection_pool.disconnect()] *)
Definition pool_disconnect : M world unit :=
  modify (fun w =>
    {| redis_client := Some (Client false);
       EXIT_FLAG := EXIT_FLAG w;
       store := store w |}).

Definition set_exit_flag (b : bool) : M world unit :=
  modify (fun w =>
    {| redis_client := redis_client w; EXIT_FLAG := b; store := store w |}).

(** [sys.exit(code)] *)
Definition sys_exit {A} (code : Z) : M world A := raise (SystemExit code).

Definition nonempty {A} (l : list A) : bool :=
  match l with [] => false | _ => true end.

(** [clean_temp_data()] *)
Definition clean_temp_data : M world unit :=
  c <- gets redis_client ;;
  match c with
  | None => ret tt
  | Some _ =>
      scanned <- call (Redis.hscan_iter CONFIG.ROOT_HASH_KEY "temp_*") ;;
      let temp_fields := scanned.*1 in
      when (nonempty temp_fields)
        (call (Redis.hdel CONFIG.ROOT_HASH_KEY temp_fields) ;; ret tt) ;;
      temp_keys <- call (Redis.keys "quantum:temp:*") ;;
      when (nonempty temp_keys)
        (call (Redis.delete_keys temp_keys) ;; ret tt)
  end.

(** Python [a / b] for two ints, [OverflowError] when the quotient is too
    large for a float. *)
Definition py_int_truediv {S} (a b : Z) : M S spec_float :=
  match Float.int_truediv a b with
  | S754_infinity _ => raise OverflowError
  | f => ret f
  end.

(** [check_memory_usage()] *)
Definition check_memory_usage : M world spec_float :=
  c <- gets redis_client ;;
  match c with
  | None => ret (S754_zero false)
  | Some _ =>
      mem <- call Redis.info_used_memory ;;
      kb <- py_int_truediv mem 1024 ;;
      let used := Float.div kb (Float.of_int 1024) in
      let usage :=
        Float.mul (Float.div used (Float.of_int CONFIG.MAX_MEMORY_MB))
                  (Float.of_int 100) in
      when (Float.ge_int usage 85) clean_temp_data ;;
      ret usage
  end.

(** [graceful_exit(signum, frame)] *)
Definition graceful_exit : M world unit :=
  flag <- gets EXIT_FLAG ;;
  if flag then ret tt
  else
    set_exit_flag true ;;
    try_finally
      (try_except
         (c <- gets redis_client ;;
          when (bool_decide (is_Some c)) pool_disconnect ;;
          clean_temp_data)
         (fun _ => ret tt))
      (sys_exit 0).

(** A complex sample, [numpy.complex128]. *)
Record complex := Complex { real : spec_float; imag : spec_float }.

(** A three-dimensional [numpy.ndarray] of complex samples: its [shape] and
    the sample at each index inside the shape. *)
Record ndarray := NdArray {
  shape : nat * nat * nat;
  item : nat -> nat -> nat -> complex
}.

(** [class WaveFuncHashHandler]; [self.r] is a live client, so the methods
    act on the server it is connected to, and [self.root] is
    [CONFIG.ROOT_HASH_KEY]. *)
Module WaveFuncHashHandler.

Definition root : string := CONFIG.ROOT_HASH_KEY.

(** [c2b]: [f"{c.real:.10f},{c.imag:.10f}".encode()] *)
Definition c2b (c : complex) : string :=
  (Text.format_f 10 (real c) ++ "," ++ Text.format_f 10 (imag c))%string.

(** [b2c]: the unpacking of [split(",")] needs exactly two pieces. *)
Definition b2c {S} (b : string) : M S complex :=
  match Text.split_on "," b with
  | [r; i] =>
      match Text.parse_float r, Text.parse_float i with
      | Some x, Some y => ret (Complex x y)
      | _, _ => raise ValueError
      end
  | _ => raise ValueError
  end.

(** [gen_field] *)
Definition gen_field (x y z : Z) (t : spec_float) (temp : bool) : string :=
  ((if temp then "temp_" else "formal_") ++
   "x" ++ Text.str_int x ++ "_y" ++ Text.str_int y ++ "_z" ++ Text.str_int z ++
   "_t" ++ Text.format_f 4 t)%string.

(** The index triples in the order of the three nested [range] loops. *)
Definition indices (nx ny nz : nat) : list (nat * nat * nat) :=
  x ← seq 0 nx; y ← seq 0 ny; z ← seq 0 nz; [(x, y, z)].

(** The dictionary [data] that the loops of [batch_save] fill. *)
Definition batch_data (psi : ndarray) (t : spec_float) (temp : bool)
  : gmap string string :=
  let '(nx, ny, nz) := shape psi in
  fold_left
    (fun data '(x, y, z) =>
       <[gen_field (Z.of_nat x) (Z.of_nat y) (Z.of_nat z) t temp
           := c2b (item psi x y z)]> data)
    (indices nx ny nz) ∅.

(** The dictionary that [batch_save] returns, without the wall-clock
    ["cost"]. *)
Record batch_report := BatchReport { count : nat; temp_flag : bool }.

(** [batch_save] *)
Definition batch_save (psi : ndarray) (t : spec_float) (temp : bool)
  : M Redis.server batch_report :=
  let data := batch_data psi t temp in
  Redis.hmset root data ;;
  when temp (Redis.expire root CONFIG.TEMP_DATA_TTL ;; ret tt) ;;
  ret (BatchReport (size data) temp).

(** [get_point]: [not val] holds for [None] and for empty bytes. *)
Definition get_point (x y z : Z) (t : spec_float) (temp : bool)
  : M Redis.server complex :=
  let f := gen_field x y z t temp in
  val <- Redis.hget root f ;;
  match val with
  | None => raise KeyError
  | Some b => if String.eqb b "" then raise KeyError else b2c b
  end.

End WaveFuncHashHandler.

(** ** What a client can observe of the store *)

(** The two namespaces of field names inside the root hash. *)
Definition temp_field (f : string) : bool := String.prefix "temp_" f.
Definition formal_field (f : string) : bool := String.prefix "formal_" f.

(** The auxiliary scratch keys outside the root hash. *)
Definition temp_key (k : string) : bool := String.prefix "quantum:temp:" k.

(** The expiry stamp armed on the root hash, if any. *)
Definition root_expiry (s : Redis.server) : option Z :=
  match Redis.lookup_key s CONFIG.ROOT_HASH_KEY with
  | Some e => Redis.e_expire e
  | None => None
  end.

(** The root key holds a value of another type than a hash. *)
Definition root_wrong_type (s : Redis.server) : bool :=
  match Redis.lookup_key s CONFIG.ROOT_HASH_KEY with
  | Some (Redis.Entry Redis.VOther _) => true
  | _ => false
  end.

(** A pattern text without wildcards. *)
Fixpoint plain (lit : string) : bool :=
  match lit with
  | EmptyString => true
  | String c l => negb (Ascii.eqb c "*") && negb (Ascii.eqb c "?") && plain l
  end.

(** The fields of the root hash; none when the key is absent, expired or
    of another type. *)
Definition root_hash (s : Redis.server) : gmap string string :=
  match Redis.lookup_key s CONFIG.ROOT_HASH_KEY with
  | Some (Redis.Entry (Redis.VHash h) _) => h
  | _ => ∅
  end.

(** The value stored under a field of the root hash, if any. *)
Definition root_field (s : Redis.server) (f : string) : option string :=
  root_hash s !! f.

(** [field_count()] restricted to a namespace. *)
Definition count_fields (ns : string -> bool) (s : Redis.server) : nat :=
  size (filter (fun kv => ns kv.1 = true) (root_hash s)).

(** How many live scratch keys there are outside the root hash. *)
Definition count_temp_keys (s : Redis.server) : nat :=
  length (filter (fun k => temp_key k = true /\ is_Some (Redis.lookup_key s k))
                 (map_to_list (Redis.keyspace s)).*1).

(** The commands that [clean_temp_data] sends when there is a client:
    first the temporary fields of the root hash, then the scratch keys. *)
Definition sweep_fields : M Redis.server unit :=
  scanned <- Redis.hscan_iter CONFIG.ROOT_HASH_KEY "temp_*" ;;
  when (nonempty scanned.*1)
    (Redis.hdel CONFIG.ROOT_HASH_KEY scanned.*1 ;; ret tt).

Definition sweep_keys : M Redis.server unit :=
  temp_keys <- Redis.keys "quantum:temp:*" ;;
  when (nonempty temp_keys) (Redis.delete_keys temp_keys ;; ret tt).

Definition evict_commands : M Redis.server unit :=
  sweep_fields ;; sweep_keys.

(** ** Helpers for stating facts about texts *)

(** Every character of [s] satisfies [p]. *)
Fixpoint all_chars (p : ascii -> bool) (s : string) : bool :=
  match s with
  | EmptyString => true
  | String c s' => p c && all_chars p s'
  end.

Definition is_digit (c : ascii) : bool :=
  match Text.digit_val c with Some _ => true | None => false end.

(** The inverse of [Text.str_int]. *)
Definition parse_int (s : string) : option Z :=
  match s with
  | String "-" r => Z.opp <$> Text.parse_digits r
  | _ => Text.parse_digits s
  end.

(** The characters [Text.format_f] can print. *)
Definition num_char (c : ascii) : bool :=
  is_digit c || negb (all_chars (fun x => negb (Ascii.eqb x c)) "-.infa").

(** The characters [Text.str_int] can print. *)
Definition int_char (c : ascii) : bool := is_digit c || Ascii.eqb c "-".

(** A decimal whose magnitude is not negative. *)
Definition wf_decimal (d : Text.decimal) : Prop :=
  match d with
  | Text.DNum _ n _ => 0 <= n
  | _ => True
  end.

(** What [b2c] reads back from [c2b c]: each part rounded to ten decimals
    and then to the nearest float. *)
Definition requantized (f : spec_float) : spec_float :=
  Text.float_of_decimal (Text.quantize 10 f).

Definition stored_sample (c : complex) : complex :=
  Complex (requantized (real c)) (requantized (imag c)).

(** The index triple is inside the shape of the array. *)
Definition in_bounds (psi : ndarray) (x y z : nat) : Prop :=
  (x < (shape psi).1.1 /\ y < (shape psi).1.2 /\ z < (shape psi).2)%nat.

(** ** Sample inputs *)

Module Samples.

(** The floats nearest to 1/3, 0.01 and 0.010001. *)
Definition third : spec_float := Float.round_to_binary64 false 1 3.
Definition t_a : spec_float := Float.round_to_binary64 false 1 100.
Definition t_b : spec_float := Float.round_to_binary64 false 10001 1000000.

Definition c0 : complex := Complex third (Float.of_int (-2)).

(** A grid of one point and a grid of 2 x 2 x 2 points. *)
Definition psi1 : ndarray := NdArray (1, 1, 1)%nat (fun _ _ _ => c0).
Definition psi8 : ndarray :=
  NdArray (2, 2, 2)%nat
    (fun x y z => Complex (Float.int_truediv (Z.of_nat (x + y)) 7)
                          (Float.of_int (Z.of_nat z))).

(** An empty server at time 0. *)
Definition s_empty : Redis.server := Redis.Server ∅ 0 0.

(** A server whose root hash holds one formal field, one temporary field
    and a field with an empty value, next to a scratch key. *)
Definition s_mixed : Redis.server :=
  Redis.Server
    (<[CONFIG.ROOT_HASH_KEY :=
         Redis.Entry
           (Redis.VHash
              (<[WaveFuncHashHandler.gen_field 0 0 0 t_a false
                   := WaveFuncHashHandler.c2b c0]>
               (<[WaveFuncHashHandler.gen_field 0 0 0 t_a true
                    := WaveFuncHashHandler.c2b c0]>
                (<[WaveFuncHashHandler.gen_field 1 1 1 t_a false
                     := ""%string]> ∅))))
           None]>
     (<["quantum:temp:scratch"%string := Redis.Entry Redis.VOther None]> ∅))
    0 7130316800.

Definition w_mixed : world := World (Some (Client true)) false s_mixed.

Definition w_no_client : world := World None false s_mixed.

(** The same process one byte below the high-water mark. *)
Definition w_low : world :=
  World (Some (Client true)) false
    (Redis.Server (Redis.keyspace s_mixed) 0 7130316799).

End Samples.

(** ** The floats of [check_memory_usage] *)

(** The usage percentage computed from [used_memory = mem]. *)
Definition usage_float (mem : Z) : spec_float :=
  Float.mul
    (Float.div (Float.div (Float.int_truediv mem 1024) (Float.of_int 1024))
               (Float.of_int CONFIG.MAX_MEMORY_MB))
    (Float.of_int 100).

(** The exact values, in units of [2^e_min], of the successive floats:
    [mem / 1024], [... / 1024], [... / MAX_MEMORY_MB], [... * 100]. *)
Definition kb_value (mem : Z) : Z :=
  Float.rounded (mem * Float.ulp_inv) 1024.

Definition mb_value (mem : Z) : Z :=
  Float.rounded (kb_value mem * Float.ulp_inv) (1024 * Float.ulp_inv).

Definition ratio_value (mem : Z) : Z :=
  Float.rounded (mb_value mem * Float.ulp_inv)
                (CONFIG.MAX_MEMORY_MB * Float.ulp_inv).

Definition usage_value (mem : Z) : Z :=
  Float.rounded (ratio_value mem * (100 * Float.ulp_inv) * Float.ulp_inv)
                (Float.ulp_inv * Float.ulp_inv).

(** The budget in bytes, and the least [used_memory] at 85 % of it. *)
Definition budget_bytes : Z := CONFIG.MAX_MEMORY_MB * 1024 * 1024.
Definition high_water_bytes : Z := 7130316800.

(** ** Further helpers for stating facts *)

(** A float without digits to lose: a zero, an infinity or NaN. *)
Definition is_special (f : spec_float) : bool :=
  match f with S754_finite _ _ _ => false | _ => true end.

(** How often the character [c] occurs in [s]. *)
Fixpoint count_char (c : ascii) (s : string) : nat :=
  match s with
  | EmptyString => O
  | String d s' => ((if Ascii.eqb d c then 1 else 0) + count_char c s')%nat
  end.

(** A float whose value has at most [k] decimals. *)
Definition has_decimals (k : nat) (f : spec_float) : Prop :=
  (Z.abs (Float.sval f) * 10 ^ Z.of_nat k) mod Float.ulp_inv = 0.

(** ** Further sample inputs *)

Module MoreSamples.

(** A grid with an empty axis. *)
Definition psi_flat : ndarray :=
  NdArray (0, 4, 4)%nat (fun _ _ _ => Samples.c0).

(** A server whose root key holds a string instead of a hash, next to a
    scratch key. *)
Definition s_wrong : Redis.server :=
  Redis.Server
    (<[CONFIG.ROOT_HASH_KEY := Redis.Entry Redis.VOther None]>
     (<["quantum:temp:scratch"%string := Redis.Entry Redis.VOther None]> ∅))
    0 0.

(** A server whose root hash holds a text that is no sample. *)
Definition s_text : Redis.server :=
  Redis.Server
    (<[CONFIG.ROOT_HASH_KEY :=
         Redis.Entry
           (Redis.VHash
              (<[WaveFuncHashHandler.gen_field 0 0 0 Samples.t_a false
                   := "1.5"%string]> ∅))
           None]> ∅)
    0 0.

End MoreSamples.

(* ===================================================================== *)
(** * Part II: properties                                                *)
(* ===================================================================== *)

(** ** Glob patterns of the program are prefix tests *)

Section Glob.

Local Open Scope string_scope.

Lemma glob_star_any s : Redis.glob_match "*" s = true.
Proof.
  induction s as [|c s IH]; [reflexivity|].
  simpl in *. exact IH.
Qed.

Lemma glob_literal_star lit s :
  plain lit = true ->
  Redis.glob_match (lit ++ "*") s = String.prefix lit s.
Proof.
  revert s. induction lit as [|c l IH]; intros s Hp.
  - rewrite glob_star_any. by destruct s.
  - simpl in Hp. apply andb_true_iff in Hp as [Hc Hl].
    apply andb_true_iff in Hc as [Hstar Hq].
    apply negb_true_iff in Hstar, Hq.
    change (String c l ++ "*") with (String c (l ++ "*")).
    cbn [Redis.glob_match]. rewrite Hstar, Hq.
    destruct s as [|d s]; [reflexivity|].
    cbn [String.prefix orb]. rewrite (IH s Hl).
    destruct (Ascii.eqb_spec c d) as [->|Hne].
    + by destruct (ascii_dec d d).
    + by destruct (ascii_dec c d).
Qed.

Lemma glob_temp_field f : Redis.glob_match "temp_*" f = temp_field f.
Proof. exact (glob_literal_star "temp_" f eq_refl). Qed.

Lemma glob_temp_key k : Redis.glob_match "quantum:temp:*" k = temp_key k.
Proof. exact (glob_literal_star "quantum:temp:" k eq_refl). Qed.

End Glob.

(** ** Keys as the commands see them *)

Section Keyspace.

Import Redis.


Lemma lookup_key_insert ks s k e k' :
  lookup_key (set_keyspace (<[k := e]> ks) s) k' =
  if decide (k = k') then (if expired (now s) e then None else Some e)
  else lookup_key (set_keyspace ks s) k'.
Proof.
  unfold lookup_key; simpl. rewrite lookup_insert.
  by destruct (decide (k = k')).
Qed.

Lemma lookup_key_delete ks s k k' :
  lookup_key (set_keyspace (delete k ks) s) k' =
  if decide (k = k') then None else lookup_key (set_keyspace ks s) k'.
Proof.
  unfold lookup_key; simpl. rewrite lookup_delete.
  by destruct (decide (k = k')).
Qed.

Lemma lookup_key_foldr_delete ks s l k' :
  lookup_key (set_keyspace (foldr delete ks l) s) k' =
  if decide (k' ∈ l) then None else lookup_key (set_keyspace ks s) k'.
Proof.
  unfold lookup_key; simpl. destruct (decide (k' ∈ l)) as [Hin|Hnin].
  - by rewrite (lookup_foldr_delete ks l k' Hin).
  - by rewrite lookup_foldr_delete_not_elem_of.
Qed.

Lemma lookup_key_advance_other s ms k :
  lookup_key (advance ms s) k =
  match keyspace s !! k with
  | Some e => if expired (now s + ms) e then None else Some e
  | None => None
  end.
Proof. reflexivity. Qed.

End Keyspace.

(** ** The eviction of temporary data *)

Section Eviction.

Import Redis.

Lemma call_with_client {A} (cmd : M server A) w c :
  redis_client w = Some c ->
  call cmd w =
  (fst (cmd (store w)),
   World (Some (Client true)) (EXIT_FLAG w) (snd (cmd (store w)))).
Proof. intros Hc. unfold call. rewrite Hc. by destruct (cmd (store w)). Qed.

Lemma clean_temp_data_commands w c :
  redis_client w = Some c ->
  clean_temp_data w = call evict_commands w.
Proof.
  intros Hc. rewrite (call_with_client _ w c Hc).
  unfold clean_temp_data, evict_commands, sweep_fields, sweep_keys.
  unfold bind, gets, when, ret.
  rewrite Hc.
  rewrite (call_with_client _ w c Hc).
  destruct (hscan_iter _ _ (store w)) as [[l|e] s1]; cbn [fst snd]; [|done].
  destruct (nonempty l.*1).
  - unfold call at 1; cbn [redis_client store EXIT_FLAG].
    destruct (hdel _ _ s1) as [[n|e] s2]; [|done].
    unfold call at 1; cbn [redis_client store EXIT_FLAG].
    destruct (keys _ s2) as [[ks|e] s3]; [|done].
    destruct (nonempty ks); [|done].
    unfold call at 1; cbn [redis_client store EXIT_FLAG].
    by destruct (delete_keys ks s3) as [[n'|e] s4].
  - unfold call at 1; cbn [redis_client store EXIT_FLAG].
    destruct (keys _ s1) as [[ks|e] s3]; [|done].
    destruct (nonempty ks); [|done].
    unfold call at 1; cbn [redis_client store EXIT_FLAG].
    by destruct (delete_keys ks s3) as [[n'|e] s4].
Qed.

Lemma elem_of_scanned (h : gmap string string) f :
  f ∈ (filter (fun kv => glob_match "temp_*" kv.1 = true) (map_to_list h)).*1
  <-> temp_field f = true /\ is_Some (h !! f).
Proof.
  rewrite list_elem_of_fmap. split.
  - intros [[f' v] [-> Hin]]. apply list_elem_of_filter in Hin as [Hm Hin].
    cbn [fst] in *. rewrite glob_temp_field in Hm.
    apply elem_of_map_to_list in Hin. eauto.
  - intros [Ht [v Hv]]. exists (f, v). split; [done|].
    apply list_elem_of_filter. cbn [fst]. rewrite glob_temp_field.
    split; [done|]. by apply elem_of_map_to_list.
Qed.

Lemma scanned_deleted (h : gmap string string) f :
  foldr delete h
    (filter (fun kv => glob_match "temp_*" kv.1 = true) (map_to_list h)).*1 !! f
  = if temp_field f then None else h !! f.
Proof.
  set (l := (filter _ (map_to_list h)).*1).
  destruct (decide (f ∈ l)) as [Hin|Hnin].
  - rewrite (lookup_foldr_delete h l f Hin).
    apply elem_of_scanned in Hin as [-> _]. done.
  - rewrite lookup_foldr_delete_not_elem_of by done.
    destruct (temp_field f) eqn:Ht; [|done].
    destruct (h !! f) as [v|] eqn:Hv; [|done].
    exfalso. apply Hnin, elem_of_scanned. eauto.
Qed.

Lemma elem_of_keys s pat k :
  k ∈ filter (fun k => glob_match pat k = true /\ is_Some (lookup_key s k))
             (map_to_list (keyspace s)).*1
  <-> glob_match pat k = true /\ is_Some (lookup_key s k).
Proof.
  rewrite list_elem_of_filter. split; [tauto|].
  intros [Hm Hl]. split; [done|].
  apply list_elem_of_fmap. destruct Hl as [e He].
  unfold lookup_key in He. destruct (keyspace s !! k) as [e'|] eqn:Hk; [|done].
  exists (k, e'). split; [done|]. by apply elem_of_map_to_list.
Qed.

Lemma sweep_keys_run s :
  exists s',
    sweep_keys s = (Val tt, s') /\
    now s' = now s /\ used_memory s' = used_memory s /\
    forall k, lookup_key s' k = if temp_key k then None else lookup_key s k.
Proof.
  unfold sweep_keys, bind, keys.
  set (l := filter _ _).
  assert (Hl : forall k, k ∈ l <-> temp_key k = true /\ is_Some (lookup_key s k)).
  { intros k. unfold l. rewrite elem_of_keys, glob_temp_key. done. }
  assert (Hlook : forall k,
    lookup_key (set_keyspace (foldr delete (keyspace s) l) s) k =
    if temp_key k then None else lookup_key s k).
  { intros k. rewrite lookup_key_foldr_delete.
    change (lookup_key (set_keyspace (keyspace s) s) k) with (lookup_key s k).
    destruct (decide (k ∈ l)) as [Hin|Hnin].
    - apply Hl in Hin as [-> _]. done.
    - destruct (temp_key k) eqn:Hk; [|done].
      destruct (lookup_key s k) eqn:He; [|done].
      exfalso. apply Hnin, Hl. eauto. }
  destruct l as [|k0 l'] eqn:El; cbn [nonempty when].
  - exists s. by split_and!.
  - eexists. by split_and!.
Qed.

Lemma live_not_expired s k e :
  lookup_key s k = Some e -> expired (now s) e = false.
Proof.
  unfold lookup_key. destruct (keyspace s !! k) as [e'|]; [|done].
  destruct (expired (now s) e') eqn:He; [done|]. by intros [= <-].
Qed.

Lemma sweep_fields_wrong_type s :
  root_wrong_type s = true -> sweep_fields s = (Raise ResponseError, s).
Proof.
  unfold root_wrong_type, sweep_fields, bind, hscan_iter.
  by destruct (lookup_key s CONFIG.ROOT_HASH_KEY) as [[[h|] ex]|].
Qed.

Lemma sweep_fields_run s :
  root_wrong_type s = false ->
  exists s',
    sweep_fields s = (Val tt, s') /\
    now s' = now s /\ used_memory s' = used_memory s /\
    (forall k, k ≠ CONFIG.ROOT_HASH_KEY -> lookup_key s' k = lookup_key s k) /\
    (forall f, root_field s' f = if temp_field f then None else root_field s f).
Proof.
  unfold root_wrong_type, sweep_fields, bind, hscan_iter, root_field, root_hash.
  destruct (lookup_key s CONFIG.ROOT_HASH_KEY) as [[[h|] ex]|] eqn:Hroot;
    intros Hty; [|done|].
  - set (fields := (filter _ (map_to_list h)).*1).
    pose proof (scanned_deleted h) as Hdel. fold fields in Hdel.
    destruct (nonempty fields) eqn:Hne; cbn [when].
    + unfold bind, hdel. rewrite Hroot.
      destruct (decide (foldr delete h fields = ∅)) as [Hemp|Hnemp].
      * eexists. split; [reflexivity|]. split_and!; try done.
        -- intros k Hk. rewrite lookup_key_delete.
           by destruct (decide (CONFIG.ROOT_HASH_KEY = k)).
        -- intros f. rewrite lookup_key_delete.
           destruct (decide (CONFIG.ROOT_HASH_KEY = CONFIG.ROOT_HASH_KEY)); [|done].
           rewrite <- Hdel, Hemp. done.
      * eexists. split; [reflexivity|]. split_and!; try done.
        -- intros k Hk. rewrite lookup_key_insert.
           by destruct (decide (CONFIG.ROOT_HASH_KEY = k)).
        -- intros f. rewrite lookup_key_insert.
           destruct (decide (CONFIG.ROOT_HASH_KEY = CONFIG.ROOT_HASH_KEY)); [|done].
           change (expired (now s) (Entry (VHash (foldr delete h fields)) ex))
             with (expired (now s) (Entry (VHash h) ex)).
           rewrite (live_not_expired _ _ _ Hroot). apply Hdel.
    + exists s. split_and!; try done.
      intros f. rewrite Hroot. rewrite <- Hdel.
      destruct fields; [done|discriminate].
  - exists s. split_and!; try done.
    intros f. rewrite Hroot. rewrite lookup_empty. by destruct (temp_field f).
Qed.

Lemma evict_commands_wrong_type s :
  root_wrong_type s = true -> evict_commands s = (Raise ResponseError, s).
Proof.
  intros H. unfold evict_commands, bind. by rewrite (sweep_fields_wrong_type s H).
Qed.

Lemma evict_commands_run s :
  root_wrong_type s = false ->
  exists s',
    evict_commands s = (Val tt, s') /\
    now s' = now s /\ used_memory s' = used_memory s /\
    (forall k, k ≠ CONFIG.ROOT_HASH_KEY ->
       lookup_key s' k = if temp_key k then None else lookup_key s k) /\
    (forall f, root_field s' f = if temp_field f then None else root_field s f).
Proof.
  intros Hty.
  destruct (sweep_fields_run s Hty) as (s1 & Hrun1 & Hnow1 & Hmem1 & Hk1 & Hf1).
  destruct (sweep_keys_run s1) as (s2 & Hrun2 & Hnow2 & Hmem2 & Hk2).
  exists s2. unfold evict_commands, bind. rewrite Hrun1, Hrun2.
  split_and!; try congruence.
  - intros k Hk. rewrite Hk2, (Hk1 k Hk). done.
  - intros f. rewrite <- Hf1. unfold root_field, root_hash.
    rewrite (Hk2 CONFIG.ROOT_HASH_KEY). done.
Qed.

Lemma count_fields_zero ns s :
  count_fields ns s = 0%nat <-> forall f, ns f = true -> root_field s f = None.
Proof.
  unfold count_fields, root_field. rewrite map_size_empty_iff, map_empty.
  split.
  - intros H f Hns. specialize (H f).
    rewrite map_lookup_filter_None in H. destruct H as [H|H]; [done|].
    destruct (root_hash s !! f) as [v|] eqn:Hv; [|done].
    exfalso. by apply (H v).
  - intros H f. apply map_lookup_filter_None.
    destruct (ns f) eqn:Hns.
    + left. by apply H.
    + right. intros v _. cbn. congruence.
Qed.

Lemma count_temp_keys_zero s :
  count_temp_keys s = 0%nat <->
  forall k, temp_key k = true -> lookup_key s k = None.
Proof.
  unfold count_temp_keys. split.
  - intros H k Hk. apply nil_length_inv in H.
    destruct (lookup_key s k) as [e|] eqn:He; [|done].
    exfalso.
    assert (Hin : k ∈ filter
      (fun k => glob_match "quantum:temp:*" k = true /\ is_Some (lookup_key s k))
      (map_to_list (keyspace s)).*1).
    { apply elem_of_keys. rewrite glob_temp_key. eauto. }
    apply list_elem_of_filter in Hin as [_ Hin].
    eapply filter_nil_not_elem_of; [exact H| |exact Hin]. cbn. eauto.
  - intros H. rewrite (elem_of_nil_inv (filter _ _)); [done|].
    intros k Hin. apply list_elem_of_filter in Hin as [[Hk [e He]] _].
    rewrite (H k Hk) in He. done.
Qed.

Lemma namespaces_disjoint f : formal_field f = true -> temp_field f = false.
Proof.
  unfold formal_field, temp_field.
  destruct f as [|c f]; [done|]. cbn [String.prefix].
  destruct (ascii_dec "f" c) as [<-|]; [|done].
  intros _. by destruct (ascii_dec "t" "f").
Qed.

Lemma clean_temp_data_completes w c :
  redis_client w = Some c ->
  root_wrong_type (store w) = false ->
  exists w', clean_temp_data w = (Val tt, w').
Proof.
  intros Hc Hty. rewrite (clean_temp_data_commands w c Hc).
  rewrite (call_with_client _ w c Hc).
  destruct (evict_commands_run (store w) Hty) as (s' & -> & _).
  eauto.
Qed.

Lemma clean_temp_data_keeps_flag w :
  EXIT_FLAG (snd (clean_temp_data w)) = EXIT_FLAG w.
Proof.
  destruct (redis_client w) as [c|] eqn:Hc.
  - rewrite (clean_temp_data_commands w c Hc).
    by rewrite (call_with_client _ w c Hc).
  - unfold clean_temp_data, bind, gets. by rewrite Hc.
Qed.

(** C4: through a client, [clean_temp_data] (the eviction of all temporary
    data) completes whenever the root key does not hold a value of another
    type than a hash; once it has completed, no field of the temp namespace
    is left in the root hash, no scratch key is left, and every field of
    the formal namespace holds the value it held before. *)
Theorem clean_temp_data_evicts_only_temp w c :
  redis_client w = Some c ->
  (root_wrong_type (store w) = false ->
   exists w', clean_temp_data w = (Val tt, w')) /\
  (forall w', clean_temp_data w = (Val tt, w') ->
     count_fields temp_field (store w') = 0%nat /\
     count_temp_keys (store w') = 0%nat /\
     (forall f, formal_field f = true ->
        root_field (store w') f = root_field (store w) f)).
Proof.
  intros Hc. split; [by apply (clean_temp_data_completes w c)|].
  intros w' Hrun. rewrite (clean_temp_data_commands w c Hc) in Hrun.
  rewrite (call_with_client _ w c Hc) in Hrun.
  destruct (root_wrong_type (store w)) eqn:Hty.
  { by rewrite (evict_commands_wrong_type _ Hty) in Hrun. }
  destruct (evict_commands_run (store w) Hty)
    as (s' & Hev & _ & _ & Hkeys & Hfields).
  rewrite Hev in Hrun. injection Hrun as <-. cbn [store].
  split_and!.
  - apply count_fields_zero. intros f Hf. by rewrite Hfields, Hf.
  - apply count_temp_keys_zero. intros k Hk.
    destruct (decide (k = CONFIG.ROOT_HASH_KEY)) as [->|Hne]; [done|].
    by rewrite (Hkeys k Hne), Hk.
  - intros f Hf. by rewrite Hfields, (namespaces_disjoint f Hf).
Qed.

Lemma clean_temp_data_evicts_only_temp_witness :
  let w' := snd (clean_temp_data Samples.w_mixed) in
  (redis_client Samples.w_mixed = Some (Client true) /\
   root_wrong_type (store Samples.w_mixed) = false /\
   clean_temp_data Samples.w_mixed = (Val tt, w')) /\
  count_fields temp_field (store w') = 0%nat /\
  count_temp_keys (store w') = 0%nat /\
  (forall f, formal_field f = true ->
     root_field (store w') f = root_field (store Samples.w_mixed) f).
Proof.
  cbn zeta.
  assert (Hc : redis_client Samples.w_mixed = Some (Client true))
    by reflexivity.
  assert (Hty : root_wrong_type (store Samples.w_mixed) = false)
    by (vm_compute; reflexivity).
  assert (Hrun : clean_temp_data Samples.w_mixed =
                 (Val tt, snd (clean_temp_data Samples.w_mixed)))
    by (vm_compute; reflexivity).
  split; [exact (conj Hc (conj Hty Hrun))|].
  exact (proj2 (clean_temp_data_evicts_only_temp _ _ Hc) _ Hrun).
Defined.

End Eviction.

(** ** Running without a client *)

(** C10: with no client handle, [check_memory_usage] returns 0.0 and
    [clean_temp_data] returns, neither raises, and both leave the process
    and the store exactly as they were. *)
Theorem no_client_no_effect w :
  redis_client w = None ->
  check_memory_usage w = (Val (S754_zero false), w) /\
  clean_temp_data w = (Val tt, w).
Proof.
  intros Hc. unfold check_memory_usage, clean_temp_data, bind, gets.
  by rewrite Hc.
Qed.

Lemma no_client_no_effect_witness :
  redis_client Samples.w_no_client = None /\
  check_memory_usage Samples.w_no_client
    = (Val (S754_zero false), Samples.w_no_client) /\
  clean_temp_data Samples.w_no_client = (Val tt, Samples.w_no_client).
Proof.
  split; [reflexivity|].
  exact (no_client_no_effect Samples.w_no_client eq_refl).
Defined.

(** ** Shutdown *)

Section Shutdown.

Lemma graceful_exit_first w :
  EXIT_FLAG w = false ->
  fst (graceful_exit w) = Raise (SystemExit 0) /\
  EXIT_FLAG (snd (graceful_exit w)) = true.
Proof.
  intros Hflag. unfold graceful_exit, bind, gets. rewrite Hflag.
  unfold set_exit_flag, modify, try_finally, try_except, sys_exit, raise, bind, gets.
  cbn [redis_client EXIT_FLAG store].
  destruct (redis_client w) as [c|] eqn:Hc.
  - rewrite bool_decide_eq_true_2 by eauto.
    cbn [when]. unfold pool_disconnect, modify.
    cbn [redis_client EXIT_FLAG store].
    match goal with |- context [clean_temp_data ?w0] =>
      pose proof (clean_temp_data_keeps_flag w0) as Hkeep;
      destruct (clean_temp_data w0) as [[u|e] w1]
    end; cbn [snd EXIT_FLAG] in Hkeep.
    + done.
    + by destruct (is_Exception e).
  - assert (Hdec : bool_decide (is_Some (@None client)) = false).
    { apply bool_decide_eq_false. by intros [? ?]. }
    rewrite Hdec. cbn [when]. unfold ret.
    match goal with |- context [clean_temp_data ?w0] =>
      pose proof (clean_temp_data_keeps_flag w0) as Hkeep;
      destruct (clean_temp_data w0) as [[u|e] w1]
    end; cbn [snd EXIT_FLAG] in Hkeep.
    + done.
    + by destruct (is_Exception e).
Qed.

Lemma graceful_exit_again w :
  EXIT_FLAG w = true -> graceful_exit w = (Val tt, w).
Proof. intros Hflag. unfold graceful_exit, bind, gets. by rewrite Hflag. Qed.

(** C8: whatever the state of the process, a first run of [graceful_exit]
    leaves [EXIT_FLAG] set (it ends in [sys.exit(0)] unless the flag was
    already set), and a second run from the state it reached returns
    normally and changes nothing. *)
Theorem graceful_exit_idempotent w :
  let w1 := snd (graceful_exit w) in
  fst (graceful_exit w) = (if EXIT_FLAG w then Val tt else Raise (SystemExit 0)) /\
  EXIT_FLAG w1 = true /\
  graceful_exit w1 = (Val tt, w1).
Proof.
  cbn zeta. destruct (EXIT_FLAG w) eqn:Hflag.
  - rewrite (graceful_exit_again w Hflag). cbn [fst snd].
    split_and!; [done|done|]. by apply graceful_exit_again.
  - destruct (graceful_exit_first w Hflag) as [Hout Hset].
    split_and!; [done|done|]. by apply graceful_exit_again.
Qed.

End Shutdown.

(** ** Batches and the expiry of the root hash *)

Section Batch.

Import Redis WaveFuncHashHandler.

Lemma root_hash_absent s :
  lookup_key s root = None -> root_hash s = ∅ /\ root_expiry s = None.
Proof. unfold root_hash, root_expiry, root. by intros ->. Qed.

(** A batch that goes through: the fields of [data] are laid over the root
    hash, and the expiry stamp is re-armed by a temporary batch only. *)
Lemma batch_save_run psi t temp s :
  root_wrong_type s = false ->
  batch_data psi t temp ≠ ∅ ->
  batch_save psi t temp s =
  (Val (BatchReport (size (batch_data psi t temp)) temp),
   set_keyspace
     (<[root := Entry (VHash (batch_data psi t temp ∪ root_hash s))
                      (if temp
                       then Some (now s + CONFIG.TEMP_DATA_TTL * 1000)
                       else root_expiry s)]> (keyspace s)) s).
Proof.
  intros Hty Hdata. unfold batch_save, bind, hmset.
  destruct (decide (batch_data psi t temp = ∅)) as [|_]; [done|].
  unfold root_wrong_type, root_hash, root_expiry in *. fold root in *.
  destruct (lookup_key s root) as [[[h|] ex]|] eqn:Hroot; [|done|].
  - pose proof (live_not_expired _ _ _ Hroot) as Hlive.
    destruct temp; cbn [when]; [|done].
    unfold bind, expire. rewrite lookup_key_insert.
    destruct (decide (root = root)); [|done].
    change (expired (now s) (Entry (VHash (batch_data psi t true ∪ h)) ex))
      with (expired (now s) (Entry (VHash h) ex)).
    rewrite Hlive. cbn [Z.leb CONFIG.TEMP_DATA_TTL]. unfold ret.
    cbn [keyspace set_keyspace now used_memory]. by rewrite insert_insert_eq.
  - rewrite (right_id_L ∅ (∪)).
    destruct temp; cbn [when]; [|done].
    unfold bind, expire. rewrite lookup_key_insert.
    destruct (decide (root = root)); [|done].
    cbn [expired e_expire Z.leb CONFIG.TEMP_DATA_TTL]. unfold ret.
    cbn [keyspace set_keyspace now used_memory]. by rewrite insert_insert_eq.
Qed.

(** A batch that does not go through changes nothing. *)
Lemma batch_save_refused psi t temp s :
  root_wrong_type s = true \/ batch_data psi t temp = ∅ ->
  exists e, batch_save psi t temp s = (Raise e, s).
Proof.
  intros H. unfold batch_save, bind, hmset.
  destruct (decide (batch_data psi t temp = ∅)) as [|Hne]; [eauto|].
  destruct H as [H|H]; [|done].
  unfold root_wrong_type in H. fold root in H.
  destruct (lookup_key s root) as [[[h|] ex]|]; try done. eauto.
Qed.

Lemma batch_save_cases psi t temp s :
  (exists e, batch_save psi t temp s = (Raise e, s)) \/
  (root_wrong_type s = false /\ batch_data psi t temp ≠ ∅).
Proof.
  destruct (root_wrong_type s) eqn:Hty.
  { left. apply batch_save_refused. by left. }
  destruct (decide (batch_data psi t temp = ∅)) as [He|Hne].
  { left. apply batch_save_refused. by right. }
  by right.
Qed.

Lemma root_expiry_live s v :
  expired (now s) (Entry v (root_expiry s)) = false.
Proof.
  unfold root_expiry. fold root.
  destruct (lookup_key s root) as [[v' ex]|] eqn:Hroot; [|done].
  exact (live_not_expired _ _ _ Hroot).
Qed.

(** When the armed stamp is passed, the whole root hash is gone. *)
Lemma expiry_fires s T ms :
  root_expiry s = Some T -> T < now s + ms ->
  lookup_key (advance ms s) root = None.
Proof.
  unfold root_expiry. fold root. intros Hex Hlt.
  rewrite lookup_key_advance_other. unfold lookup_key in Hex.
  destruct (keyspace s !! root) as [[v ex]|]; [|done].
  destruct (expired (now s) (Entry v ex)); [done|]. cbn in Hex. subst ex.
  unfold expired. cbn [e_expire].
  by rewrite (proj2 (Z.ltb_lt _ _) Hlt).
Qed.

Lemma root_field_absent s f :
  lookup_key s root = None -> root_field s f = None.
Proof. unfold root_field, root_hash. fold root. by intros ->. Qed.

Lemma root_expiry_of_lookup s e :
  lookup_key s root = Some e -> root_expiry s = e_expire e.
Proof. unfold root_expiry. fold root. by intros ->. Qed.

Lemma root_hash_of_lookup s h ex :
  lookup_key s root = Some (Entry (VHash h) ex) -> root_hash s = h.
Proof. unfold root_hash. fold root. by intros ->. Qed.

Lemma batch_save_expiry psi t temp s r s' :
  batch_save psi t temp s = (Val r, s') ->
  now s' = now s /\
  root_expiry s' =
    (if temp then Some (now s + CONFIG.TEMP_DATA_TTL * 1000) else root_expiry s) /\
  root_hash s' = batch_data psi t temp ∪ root_hash s /\
  forall k, k ≠ root -> keyspace s' !! k = keyspace s !! k.
Proof.
  intros Hrun.
  destruct (batch_save_cases psi t temp s) as [[e He]|[Hty Hdata]];
    [congruence|].
  rewrite (batch_save_run _ _ _ _ Hty Hdata) in Hrun.
  injection Hrun as _ <-. split; [done|].
  assert (Hlive : expired (now s)
    (Entry (VHash (batch_data psi t temp ∪ root_hash s))
       (if temp then Some (now s + CONFIG.TEMP_DATA_TTL * 1000)
        else root_expiry s)) = false).
  { destruct temp; [|apply root_expiry_live].
    unfold expired. cbn [e_expire]. apply Z.ltb_ge.
    unfold CONFIG.TEMP_DATA_TTL. lia. }
  match goal with |- context [set_keyspace ?ks s] =>
    assert (Hroot : lookup_key (set_keyspace ks s) root =
      Some (Entry (VHash (batch_data psi t temp ∪ root_hash s))
         (if temp then Some (now s + CONFIG.TEMP_DATA_TTL * 1000)
          else root_expiry s)))
  end.
  { rewrite lookup_key_insert.
    destruct (decide (root = root)); [|done]. by rewrite Hlive. }
  split_and!.
  - by rewrite (root_expiry_of_lookup _ _ Hroot).
  - by rewrite (root_hash_of_lookup _ _ _ Hroot).
  - intros k Hk. cbn [keyspace set_keyspace]. by rewrite lookup_insert_ne.
Qed.

(** C9: a batch saved with [temp=False] leaves the expiry stamp of the root
    hash as it was, whether the batch goes through or is refused; so when a
    stamp armed earlier is passed, the root hash is gone and no field, the
    fields of this batch included, can be read any more. *)
Theorem formal_batch_keeps_expiry psi t s :
  let s' := snd (batch_save psi t false s) in
  now s' = now s /\
  root_expiry s' = root_expiry s /\
  (forall T ms, root_expiry s = Some T -> T < now s + ms ->
     forall f, root_field (advance ms s') f = None).
Proof.
  cbn zeta.
  assert (H : now (snd (batch_save psi t false s)) = now s /\
              root_expiry (snd (batch_save psi t false s)) = root_expiry s).
  { destruct (batch_save psi t false s) as [[r|e] s'] eqn:Hrun.
    - destruct (batch_save_expiry _ _ _ _ _ _ Hrun) as (Hnow & Hex & _). done.
    - destruct (batch_save_cases psi t false s) as [[e' He]|[Hty Hdata]].
      + rewrite He in Hrun. by injection Hrun as _ <-.
      + rewrite (batch_save_run _ _ _ _ Hty Hdata) in Hrun. done. }
  destruct H as [Hnow Hex]. split_and!; [done|done|].
  intros T ms HT Hlt f. apply root_field_absent.
  apply (expiry_fires _ T); [congruence|]. by rewrite Hnow.
Qed.

(** After a temporary batch has gone through, the root hash is gone once
    more than the time to live has passed; other keys are not concerned. *)
Lemma temp_batch_expiry psi t s r s' ms :
  batch_save psi t true s = (Val r, s') ->
  CONFIG.TEMP_DATA_TTL * 1000 < ms ->
  (forall f, root_field (advance ms s') f = None) /\
  (forall k, k ≠ root ->
     lookup_key (advance ms s') k = lookup_key (advance ms s) k).
Proof.
  intros Hrun Hms.
  destruct (batch_save_expiry _ _ _ _ _ _ Hrun) as (Hnow & Hex & _ & Hother).
  split.
  - intros f. apply root_field_absent.
    apply (expiry_fires _ _ _ Hex). lia.
  - intros k Hk. rewrite !lookup_key_advance_other.
    by rewrite (Hother k Hk), Hnow.
Qed.

(** The stamp armed by a temporary batch at time 0. *)
Lemma formal_batch_keeps_expiry_witness :
  let s := snd (batch_save Samples.psi1 Samples.t_a true Samples.s_empty) in
  let s' := snd (batch_save Samples.psi8 Samples.t_a false s) in
  (root_expiry s = Some 3600000 /\ 3600000 < now s + 3600001) /\
  root_expiry s' = Some 3600000 /\
  (forall f, root_field (advance 3600001 s') f = None).
Proof.
  cbn zeta.
  set (s := snd (batch_save Samples.psi1 Samples.t_a true Samples.s_empty)).
  assert (Hex : root_expiry s = Some 3600000) by (vm_compute; reflexivity).
  assert (Hlt : 3600000 < now s + 3600001) by (vm_compute; reflexivity).
  split; [split; [exact Hex|exact Hlt]|].
  destruct (formal_batch_keeps_expiry Samples.psi8 Samples.t_a s)
    as (_ & Hkeep & Hfire).
  split; [rewrite Hkeep; exact Hex|].
  exact (Hfire 3600000 3600001 Hex Hlt).
Defined.

End Batch.

(** ** Decimal numerals *)

Section Numerals.

Import Text.
Local Open Scope string_scope.

Lemma digit_val_char d : 0 <= d < 10 -> digit_val (digit_char d) = Some d.
Proof.
  intros H.
  assert (Hd : d = 0 \/ d = 1 \/ d = 2 \/ d = 3 \/ d = 4 \/
               d = 5 \/ d = 6 \/ d = 7 \/ d = 8 \/ d = 9) by lia.
  repeat (destruct Hd as [->|Hd]; [reflexivity|]). by subst.
Qed.

Lemma is_digit_char d : 0 <= d < 10 -> is_digit (digit_char d) = true.
Proof. intros H. unfold is_digit. by rewrite digit_val_char. Qed.

Lemma fixed_digits_length k n : String.length (fixed_digits k n) = k.
Proof. induction k as [|k IH]; cbn [fixed_digits String.length]; congruence. Qed.

Lemma fixed_digits_digits k n : all_chars is_digit (fixed_digits k n) = true.
Proof.
  induction k as [|k IH]; [done|]. cbn [fixed_digits all_chars].
  rewrite IH, is_digit_char; [done|]. apply Z.mod_pos_bound. lia.
Qed.

Lemma append_String c r s : String c r ++ s = String c (r ++ s).
Proof. reflexivity. Qed.

Lemma append_empty s : "" ++ s = s.
Proof. reflexivity. Qed.

Lemma append_nil_r s : s ++ "" = s.
Proof. induction s as [|c s IH]; [done|]. by rewrite append_String, IH. Qed.

Lemma append_assoc (a b c : string) : (a ++ b) ++ c = a ++ (b ++ c).
Proof.
  induction a as [|x a IH]; [done|]. by rewrite !append_String, IH.
Qed.

Lemma parse_fixed_digits k n acc rest :
  0 <= n ->
  parse_digits_from acc (fixed_digits k n ++ rest) =
  parse_digits_from (acc * 10 ^ Z.of_nat k + n mod 10 ^ Z.of_nat k) rest.
Proof.
  intros Hn. revert acc. induction k as [|k IH]; intros acc.
  - cbn [fixed_digits]. rewrite append_empty. f_equal.
    change (10 ^ Z.of_nat 0) with 1. rewrite Z.mod_1_r. lia.
  - cbn [fixed_digits]. rewrite append_String. cbn [parse_digits_from].
    rewrite digit_val_char by (apply Z.mod_pos_bound; lia).
    rewrite IH. f_equal.
    rewrite Nat2Z.inj_succ, Z.pow_succ_r by lia.
    rewrite (Z.mul_comm 10 (10 ^ Z.of_nat k)).
    rewrite (Z.rem_mul_r n (10 ^ Z.of_nat k) 10) by lia.
    ring.
Qed.

Lemma parse_fixed_digits_exact k n :
  0 <= n < 10 ^ Z.of_nat k -> parse_digits (fixed_digits k n) = Some n.
Proof.
  intros H. unfold parse_digits.
  rewrite <- (append_nil_r (fixed_digits k n)) at 1.
  rewrite parse_fixed_digits by lia. cbn [parse_digits_from].
  f_equal. rewrite Z.mod_small; lia.
Qed.

Lemma strip_zeros_cons c c' s :
  strip_zeros (String c (String c' s)) =
  if Ascii.eqb c "0" then strip_zeros (String c' s)
  else String c (String c' s).
Proof. reflexivity. Qed.

Lemma strip_zeros_parse s :
  parse_digits_from 0 (strip_zeros s) = parse_digits_from 0 s.
Proof.
  induction s as [|c s IH]; [done|].
  destruct s as [|c' s']; [done|].
  rewrite strip_zeros_cons.
  destruct (Ascii.eqb_spec c "0") as [->|Hne]; [|done].
  rewrite IH. reflexivity.
Qed.

Lemma strip_zeros_chars p s :
  all_chars p s = true -> all_chars p (strip_zeros s) = true.
Proof.
  induction s as [|c s IH]; [done|].
  destruct s as [|c' s']; [done|].
  rewrite strip_zeros_cons. destruct (Ascii.eqb c "0"); [|done].
  intros H. apply IH. cbn [all_chars] in H.
  by apply andb_true_iff in H as [_ H].
Qed.

Lemma strip_zeros_nonempty s : s <> "" -> strip_zeros s <> "".
Proof.
  induction s as [|c s IH]; [done|]. intros _.
  destruct s as [|c' s']; [done|].
  rewrite strip_zeros_cons. destruct (Ascii.eqb c "0"); [|done].
  by apply IH.
Qed.

Lemma pow2_le_pow10 k : 0 <= k -> 2 ^ k <= 10 ^ k.
Proof. intros H. apply Z.pow_le_mono_l. lia. Qed.

Lemma dec_width n : 0 <= n -> n < 10 ^ Z.of_nat (S (Z.to_nat (Z.log2 n))).
Proof.
  intros Hn. pose proof (Z.log2_nonneg n) as Hl.
  rewrite Nat2Z.inj_succ, Z2Nat.id by lia.
  destruct (Z.eq_dec n 0) as [->|Hne].
  - cbn. lia.
  - pose proof (Z.log2_spec n ltac:(lia)) as [_ Hup].
    pose proof (pow2_le_pow10 (Z.succ (Z.log2 n)) ltac:(lia)). lia.
Qed.

Lemma parse_dec n : 0 <= n -> parse_digits (dec n) = Some n.
Proof.
  intros Hn. unfold parse_digits, dec. rewrite strip_zeros_parse.
  apply parse_fixed_digits_exact. split; [done|]. by apply dec_width.
Qed.

Lemma dec_digits n : all_chars is_digit (dec n) = true.
Proof. apply strip_zeros_chars, fixed_digits_digits. Qed.

Lemma dec_nonempty n : dec n <> "".
Proof. by apply strip_zeros_nonempty. Qed.

Lemma dec_inj n m : 0 <= n -> 0 <= m -> dec n = dec m -> n = m.
Proof.
  intros Hn Hm H. apply (f_equal parse_digits) in H.
  rewrite !parse_dec in H by done. by injection H.
Qed.

Lemma parse_str_int z : parse_int (str_int z) = Some z.
Proof.
  unfold str_int. destruct (Z.ltb_spec z 0) as [Hneg|Hpos].
  - cbn [parse_int]. rewrite parse_dec by lia. cbn. f_equal. lia.
  - pose proof (dec_digits z) as Hd. pose proof (dec_nonempty z) as Hne.
    destruct (dec z) as [|c s] eqn:E; [done|].
    assert (Hc : c <> "-"%char).
    { intros ->. cbn in Hd. done. }
    assert (Hp : parse_int (String c s) = parse_digits (String c s)).
    { unfold parse_int.
      destruct c as [[] [] [] [] [] [] [] []]; try reflexivity. done. }
    rewrite Hp, <- E. by apply parse_dec.
Qed.

Lemma str_int_inj x y : str_int x = str_int y -> x = y.
Proof.
  intros H. apply (f_equal parse_int) in H.
  rewrite !parse_str_int in H. by injection H.
Qed.

Lemma str_int_chars z :
  all_chars int_char (str_int z) = true.
Proof.
  assert (Hmono : forall s, all_chars is_digit s = true ->
    all_chars int_char s = true).
  { induction s as [|c s IH]; [done|]. cbn [all_chars]. unfold int_char at 1.
    intros H. apply andb_true_iff in H as [-> H]. by rewrite IH. }
  unfold str_int. destruct (z <? 0)%Z.
  - cbn [all_chars]. rewrite Hmono; [done|apply dec_digits].
  - apply Hmono, dec_digits.
Qed.

End Numerals.

(** ** Splitting, printing and reading decimals *)

Section Decimals.

Import Text.
Local Open Scope string_scope.

Lemma all_chars_impl (p q : ascii -> bool) s :
  (forall c, p c = true -> q c = true) ->
  all_chars p s = true -> all_chars q s = true.
Proof.
  intros Hpq. induction s as [|c s IH]; [done|]. cbn [all_chars].
  intros H. apply andb_true_iff in H as [Hc Hs].
  by rewrite (Hpq c Hc), IH.
Qed.

Lemma all_chars_app p a b :
  all_chars p (a ++ b) = all_chars p a && all_chars p b.
Proof.
  induction a as [|c a IH]; [done|].
  rewrite append_String. cbn [all_chars]. by rewrite IH, andb_assoc.
Qed.

(** A text is cut at the first separator it holds. *)
Lemma split_on_cut sep a b :
  all_chars (fun c => negb (Ascii.eqb c sep)) a = true ->
  split_on sep (a ++ String sep b) = a :: split_on sep b.
Proof.
  induction a as [|c a IH]; intros Ha.
  - rewrite append_empty. cbn [split_on]. by rewrite Ascii.eqb_refl.
  - cbn [all_chars] in Ha. apply andb_true_iff in Ha as [Hc Ha].
    apply negb_true_iff in Hc.
    rewrite append_String. cbn [split_on]. rewrite Hc, (IH Ha). done.
Qed.

Lemma split_on_whole sep a :
  all_chars (fun c => negb (Ascii.eqb c sep)) a = true ->
  split_on sep a = [a].
Proof.
  induction a as [|c a IH]; intros Ha; [done|].
  cbn [all_chars] in Ha. apply andb_true_iff in Ha as [Hc Ha].
  apply negb_true_iff in Hc. cbn [split_on]. by rewrite Hc, (IH Ha).
Qed.

Lemma cut_unique sep a a' b b' :
  all_chars (fun c => negb (Ascii.eqb c sep)) a = true ->
  all_chars (fun c => negb (Ascii.eqb c sep)) a' = true ->
  a ++ String sep b = a' ++ String sep b' ->
  a = a' /\ b = b'.
Proof.
  intros Ha Ha' H.
  pose proof (f_equal (split_on sep) H) as Hs.
  rewrite !split_on_cut in Hs by done. injection Hs as -> _.
  split; [done|]. apply String.app_inj in H. by injection H.
Qed.

Lemma digit_not c x : is_digit c = true -> is_digit x = false -> Ascii.eqb c x = false.
Proof.
  intros Hc Hx. destruct (Ascii.eqb_spec c x) as [->|]; [congruence|done].
Qed.

Lemma digits_no (x : ascii) s :
  is_digit x = false ->
  all_chars is_digit s = true ->
  all_chars (fun c => negb (Ascii.eqb c x)) s = true.
Proof.
  intros Hx. apply all_chars_impl. intros c Hc.
  by rewrite (digit_not c x Hc Hx).
Qed.

Lemma unsigned_head s c r :
  s = String c r ->
  is_digit c = true ->
  match s with
  | String "-" r' => (true, r')
  | _ => (false, s)
  end = (false, s).
Proof.
  intros -> Hc.
  destruct c as [[] [] [] [] [] [] [] []]; try reflexivity. done.
Qed.

Lemma digit_head_not s t c r :
  is_digit c = true ->
  is_digit s = false ->
  String.eqb (String c r) (String s t) = false.
Proof.
  intros Hc Hs. cbn [String.eqb]. by rewrite (digit_not c s Hc Hs).
Qed.

Lemma rhe_nonneg p q : 0 <= p -> 0 < q -> 0 <= Float.round_half_even p q.
Proof.
  intros Hp Hq. unfold Float.round_half_even.
  pose proof (Z.div_pos p q Hp Hq).
  destruct (Z.compare _ _); [destruct (Z.even _)| |]; lia.
Qed.

Lemma ulp_inv_pos : 0 < Float.ulp_inv.
Proof. unfold Float.ulp_inv. apply Z.pow_pos_nonneg; lia. Qed.

Lemma quantize_wf k f : wf_decimal (quantize k f).
Proof.
  destruct f; cbn [quantize wf_decimal]; try done.
  apply rhe_nonneg; [|apply ulp_inv_pos].
  apply Z.mul_nonneg_nonneg; [apply Z.abs_nonneg|]. apply Z.pow_nonneg. lia.
Qed.

(** The body of a printed number: integer part, point, decimals. *)
Lemma read_body sg n k :
  0 <= n ->
  read_decimal
    (sign_str sg ++ dec (n / 10 ^ Z.of_nat k) ++ "." ++ fixed_digits k n)
  = Some (DNum sg n k).
Proof.
  intros Hn.
  assert (Hpow : 0 < 10 ^ Z.of_nat k) by (apply Z.pow_pos_nonneg; lia).
  assert (Hip : 0 <= n / 10 ^ Z.of_nat k) by (by apply Z.div_pos).
  set (ip := dec (n / 10 ^ Z.of_nat k)).
  change ("." ++ fixed_digits k n) with (String "." (fixed_digits k n)).
  set (body := ip ++ String "." (fixed_digits k n)).
  pose proof (dec_digits (n / 10 ^ Z.of_nat k)) as Hd. fold ip in Hd.
  pose proof (dec_nonempty (n / 10 ^ Z.of_nat k)) as Hne. fold ip in Hne.
  assert (Hbody : exists c r, body = String c r /\ is_digit c = true).
  { unfold body. destruct ip as [|c r]; [done|].
    exists c, (r ++ String "." (fixed_digits k n)). split; [done|].
    cbn [all_chars] in Hd. by apply andb_true_iff in Hd as [-> _]. }
  assert (Hrest :
    (if String.eqb body "inf" then Some (DInf sg)
     else if String.eqb body "nan" then Some DNan
     else match split_on "." body with
          | [ip0] =>
              match parse_digits ip0 with
              | Some a =>
                  if (String.length ip0 =? 0)%nat then None
                  else Some (DNum sg a 0)
              | None => None
              end
          | [ip0; fp] =>
              match parse_digits ip0, parse_digits fp with
              | Some a, Some b =>
                  if (String.length ip0 + String.length fp =? 0)%nat then None
                  else Some (DNum sg (a * 10 ^ Z.of_nat (String.length fp) + b)
                               (String.length fp))
              | _, _ => None
              end
          | _ => None
          end) = Some (DNum sg n k)).
  { destruct Hbody as (c & r & Hb & Hc).
    assert (Hinf : String.eqb body "inf" = false)
      by (rewrite Hb; by apply digit_head_not).
    assert (Hnan : String.eqb body "nan" = false)
      by (rewrite Hb; by apply digit_head_not).
    rewrite Hinf, Hnan.
    unfold body. rewrite split_on_cut by (by apply digits_no).
    rewrite split_on_whole by (apply digits_no; [done|apply fixed_digits_digits]).
    unfold ip at 1. rewrite parse_dec by done.
    unfold parse_digits.
    rewrite <- (append_nil_r (fixed_digits k n)) at 1.
    rewrite parse_fixed_digits by done. cbn [parse_digits_from].
    rewrite fixed_digits_length.
    destruct (Nat.eqb_spec (String.length ip + k) 0) as [Hz|_].
    { destruct ip; [done|]. cbn in Hz. lia. }
    f_equal. f_equal.
    rewrite (Z.div_mod n (10 ^ Z.of_nat k)) at 3 by lia. ring. }
  unfold read_decimal. destruct sg; cbn [sign_str].
  - rewrite append_String, append_empty. fold ip. fold body. exact Hrest.
  - rewrite append_empty. fold ip. fold body.
    destruct Hbody as (c & r & Hb & Hc).
    rewrite (unsigned_head body c r Hb Hc). exact Hrest.
Qed.

Lemma read_show d : wf_decimal d -> read_decimal (show_decimal d) = Some d.
Proof.
  destruct d as [|s|s n k]; intros Hwf.
  - reflexivity.
  - by destruct s.
  - by apply read_body.
Qed.

Lemma show_decimal_inj d d' :
  wf_decimal d -> wf_decimal d' -> show_decimal d = show_decimal d' -> d = d'.
Proof.
  intros Hd Hd' H. apply (f_equal read_decimal) in H.
  rewrite !read_show in H by done. by injection H.
Qed.

Lemma parse_format k f :
  parse_float (format_f k f) = Some (float_of_decimal (quantize k f)).
Proof.
  unfold parse_float, format_f. by rewrite read_show by apply quantize_wf.
Qed.

Lemma format_f_inj k f f' :
  format_f k f = format_f k f' <-> quantize k f = quantize k f'.
Proof.
  unfold format_f. split; [|by intros ->].
  apply show_decimal_inj; apply quantize_wf.
Qed.

Lemma show_decimal_chars d : all_chars num_char (show_decimal d) = true.
Proof.
  assert (Hdig : forall s, all_chars is_digit s = true ->
                           all_chars num_char s = true).
  { intros s. apply all_chars_impl. intros c Hc. unfold num_char. by rewrite Hc. }
  destruct d as [|s|s n k]; cbn [show_decimal].
  - reflexivity.
  - by destruct s.
  - rewrite !all_chars_app.
    rewrite (Hdig _ (dec_digits _)), (Hdig _ (fixed_digits_digits _ _)).
    by destruct s.
Qed.

Lemma format_f_no (x : ascii) k f :
  num_char x = false ->
  all_chars (fun c => negb (Ascii.eqb c x)) (format_f k f) = true.
Proof.
  intros Hx. apply (all_chars_impl num_char); [|apply show_decimal_chars].
  intros c Hc. destruct (Ascii.eqb_spec c x) as [->|]; [congruence|done].
Qed.

Lemma str_int_no (x : ascii) z :
  int_char x = false ->
  all_chars (fun c => negb (Ascii.eqb c x)) (str_int z) = true.
Proof.
  intros Hx. apply (all_chars_impl int_char); [|apply str_int_chars].
  intros c Hc. destruct (Ascii.eqb_spec c x) as [->|]; [congruence|done].
Qed.

End Decimals.

(** ** Field names *)

Section FieldNames.

Import Text WaveFuncHashHandler.
Local Open Scope string_scope.

Lemma gen_field_shape x y z t temp :
  gen_field x y z t temp =
  (if temp then "temp_" else "formal_") ++
  String "x" (str_int x ++
  String "_" (String "y" (str_int y ++
  String "_" (String "z" (str_int z ++
  String "_" (String "t" (format_f 4 t))))))).
Proof. reflexivity. Qed.

Lemma underscore_not_int : int_char "_" = false.
Proof. reflexivity. Qed.

(** Equal field names come from equal coordinates, the same namespace and
    time tags that print alike to four decimals. *)
Lemma gen_field_inv x y z t temp x' y' z' t' temp' :
  gen_field x y z t temp = gen_field x' y' z' t' temp' ->
  x = x' /\ y = y' /\ z = z' /\ temp = temp' /\
  quantize 4 t = quantize 4 t'.
Proof.
  rewrite !gen_field_shape. intros H.
  assert (Htemp : temp = temp').
  { destruct temp, temp'; try done;
      rewrite !append_String in H; discriminate. }
  subst temp'. apply String.app_inj in H. injection H as H.
  apply cut_unique in H as [Hx H];
    [|by apply str_int_no|by apply str_int_no].
  injection H as H.
  apply cut_unique in H as [Hy H];
    [|by apply str_int_no|by apply str_int_no].
  injection H as H.
  apply cut_unique in H as [Hz H];
    [|by apply str_int_no|by apply str_int_no].
  injection H as H.
  apply str_int_inj in Hx, Hy, Hz. apply format_f_inj in H. done.
Qed.

Lemma gen_field_coords_inj t temp :
  Inj (=) (=) (fun i : nat * nat * nat =>
    gen_field (Z.of_nat i.1.1) (Z.of_nat i.1.2) (Z.of_nat i.2) t temp).
Proof.
  intros [[x y] z] [[x' y'] z'] H. cbn [fst snd] in H.
  apply gen_field_inv in H as (Hx & Hy & Hz & _). f_equal; [f_equal|]; lia.
Qed.

Lemma gen_field_namespace x y z t temp :
  temp_field (gen_field x y z t temp) = temp /\
  formal_field (gen_field x y z t temp) = negb temp.
Proof.
  rewrite gen_field_shape. unfold temp_field, formal_field.
  destruct temp; rewrite !append_String, append_empty; split; reflexivity.
Qed.

End FieldNames.

(** ** Samples: encoding, decoding, batches *)

Section SampleBatches.

Import Text Redis WaveFuncHashHandler.

Lemma comma_not_num : num_char "," = false.
Proof. reflexivity. Qed.

Lemma b2c_c2b {S} (c : complex) (s : S) :
  b2c (c2b c) s = (Val (stored_sample c), s).
Proof.
  unfold b2c, c2b.
  change ("," ++ format_f 10 (imag c))%string
    with (String "," (format_f 10 (imag c))).
  rewrite split_on_cut by (by apply format_f_no).
  rewrite split_on_whole by (by apply format_f_no).
  by rewrite !parse_format.
Qed.

Lemma c2b_nonempty c : c2b c ≠ ""%string.
Proof.
  unfold c2b. intros H.
  apply (f_equal (split_on ",")) in H.
  change ("," ++ format_f 10 (imag c))%string
    with (String "," (format_f 10 (imag c))) in H.
  rewrite split_on_cut in H by (by apply format_f_no).
  rewrite split_on_whole in H by (by apply format_f_no).
  discriminate.
Qed.

Lemma elem_of_indices nx ny nz x y z :
  (x, y, z) ∈ indices nx ny nz <-> (x < nx /\ y < ny /\ z < nz)%nat.
Proof.
  unfold indices. rewrite list_elem_of_bind. split.
  - intros (x' & Hin & Hx). apply list_elem_of_bind in Hin as (y' & Hin & Hy).
    apply list_elem_of_bind in Hin as (z' & Hin & Hz).
    apply list_elem_of_singleton in Hin. injection Hin as -> -> ->.
    apply elem_of_seq in Hx, Hy, Hz. lia.
  - intros (Hx & Hy & Hz). exists x. split; [|apply elem_of_seq; lia].
    apply list_elem_of_bind. exists y. split; [|apply elem_of_seq; lia].
    apply list_elem_of_bind. exists z. split; [|apply elem_of_seq; lia].
    by apply list_elem_of_singleton.
Qed.

Lemma NoDup_indices nx ny nz : NoDup (indices nx ny nz).
Proof.
  unfold indices. apply NoDup_bind; [| |apply NoDup_seq].
  - intros x1 x2 [[x y] z] _ _ H1 H2.
    apply list_elem_of_bind in H1 as (y1 & H1 & _).
    apply list_elem_of_bind in H1 as (z1 & H1 & _).
    apply list_elem_of_bind in H2 as (y2 & H2 & _).
    apply list_elem_of_bind in H2 as (z2 & H2 & _).
    apply list_elem_of_singleton in H1, H2. congruence.
  - intros x _. apply NoDup_bind; [| |apply NoDup_seq].
    + intros y1 y2 [[x' y] z] _ _ H1 H2.
      apply list_elem_of_bind in H1 as (z1 & H1 & _).
      apply list_elem_of_bind in H2 as (z2 & H2 & _).
      apply list_elem_of_singleton in H1, H2. congruence.
    + intros y _. apply NoDup_bind; [| |apply NoDup_seq].
      * intros z1 z2 [[x' y'] z] _ _ H1 H2.
        apply list_elem_of_singleton in H1, H2. congruence.
      * intros z _. apply NoDup_singleton.
Qed.

Lemma length_bind_const {A B} (f : A -> list B) (l : list A) n :
  (forall a, length (f a) = n) -> length (l ≫= f) = (length l * n)%nat.
Proof.
  intros Hf. induction l as [|a l IH]; [done|].
  csimpl. rewrite length_app, Hf, IH. lia.
Qed.

Lemma length_indices nx ny nz :
  length (indices nx ny nz) = (nx * ny * nz)%nat.
Proof.
  unfold indices.
  rewrite (length_bind_const _ _ (ny * nz)%nat).
  { rewrite length_seq. lia. }
  intros x. rewrite (length_bind_const _ _ nz).
  { by rewrite length_seq. }
  intros y. rewrite (length_bind_const _ _ 1%nat).
  { rewrite length_seq. lia. }
  done.
Qed.

(** The dictionary built by the loops, as the map of a list of pairs. *)
Lemma batch_data_list psi t temp :
  batch_data psi t temp =
  list_to_map
    ((fun i : nat * nat * nat =>
        (gen_field (Z.of_nat i.1.1) (Z.of_nat i.1.2) (Z.of_nat i.2) t temp,
         c2b (item psi i.1.1 i.1.2 i.2)))
     <$> reverse (indices (shape psi).1.1 (shape psi).1.2 (shape psi).2)).
Proof.
  unfold batch_data. destruct (shape psi) as [[nx ny] nz]. cbn [fst snd].
  generalize (indices nx ny nz). intros l.
  rewrite <- (reverse_involutive l) at 1.
  generalize (reverse l). clear l. intros l.
  induction l as [|[[x y] z] l IH]; [done|].
  rewrite reverse_cons, fold_left_app. cbn [fold_left].
  rewrite IH. by rewrite fmap_cons, list_to_map_cons.
Qed.

Lemma batch_data_keys_NoDup psi t temp :
  NoDup
    ((fun i : nat * nat * nat =>
        (gen_field (Z.of_nat i.1.1) (Z.of_nat i.1.2) (Z.of_nat i.2) t temp,
         c2b (item psi i.1.1 i.1.2 i.2)))
     <$> reverse (indices (shape psi).1.1 (shape psi).1.2 (shape psi).2)).*1.
Proof.
  rewrite <- list_fmap_compose.
  apply (@NoDup_fmap_2 _ _ _ (gen_field_coords_inj t temp)).
  rewrite reverse_Permutation. apply NoDup_indices.
Qed.

Lemma batch_data_size psi t temp :
  size (batch_data psi t temp) =
  ((shape psi).1.1 * (shape psi).1.2 * (shape psi).2)%nat.
Proof.
  rewrite batch_data_list.
  rewrite map_size_list_to_map by apply batch_data_keys_NoDup.
  by rewrite length_fmap, length_reverse, length_indices.
Qed.

Lemma batch_data_lookup psi t temp x y z :
  in_bounds psi x y z ->
  batch_data psi t temp !! gen_field (Z.of_nat x) (Z.of_nat y) (Z.of_nat z) t temp
  = Some (c2b (item psi x y z)).
Proof.
  intros Hb. rewrite batch_data_list.
  apply elem_of_list_to_map; [apply batch_data_keys_NoDup|].
  apply list_elem_of_fmap. exists (x, y, z). split; [done|].
  apply elem_of_reverse, elem_of_indices. exact Hb.
Qed.

Lemma batch_data_nonempty psi t temp x y z :
  in_bounds psi x y z -> batch_data psi t temp ≠ ∅.
Proof.
  intros Hb He. pose proof (batch_data_lookup psi t temp x y z Hb) as H.
  by rewrite He in H.
Qed.

End SampleBatches.

(** ** Correct rounding to binary64 *)

Section Rounding.

Import Float.

Lemma rhe_bracket p q :
  0 <= p -> 0 < q ->
  p / q <= round_half_even p q <= p / q + 1.
Proof.
  intros Hp Hq. unfold round_half_even.
  destruct (Z.compare _ _); [destruct (Z.even _)| |]; lia.
Qed.

(** The rounded quotient is at least as near to [p/q] as any integer. *)
Lemma rhe_nearest p q j :
  0 <= p -> 0 < q ->
  Z.abs (round_half_even p q * q - p) <= Z.abs (j * q - p).
Proof.
  intros Hp Hq. unfold round_half_even.
  pose proof (Z.div_mod p q ltac:(lia)) as Hdm.
  pose proof (Z.mod_pos_bound p q Hq) as Hr.
  set (d := p / q) in *. set (r := p mod q) in *.
  assert (Hj : j <= d \/ d + 1 <= j) by lia.
  destruct (Z.compare_spec (2 * r) q) as [He|Hl|Hg];
    [destruct (Z.even d)| |]; nia.
Qed.

Lemma rhe_half p q :
  0 <= p -> 0 < q -> 2 * Z.abs (round_half_even p q * q - p) <= q.
Proof.
  intros Hp Hq. unfold round_half_even.
  pose proof (Z.div_mod p q ltac:(lia)) as Hdm.
  pose proof (Z.mod_pos_bound p q Hq) as Hr.
  set (d := p / q) in *. set (r := p mod q) in *.
  destruct (Z.compare_spec (2 * r) q) as [He|Hl|Hg];
    [destruct (Z.even d)| |]; nia.
Qed.

Lemma rhe_exact j q : 0 <= j -> 0 < q -> round_half_even (j * q) q = j.
Proof.
  intros Hj Hq.
  pose proof (rhe_nearest (j * q) q j ltac:(nia) Hq) as H.
  rewrite Z.sub_diag in H. cbn in H. nia.
Qed.

Lemma rhe_mono p1 q1 p2 q2 :
  0 <= p1 -> 0 < q1 -> 0 <= p2 -> 0 < q2 ->
  p1 * q2 <= p2 * q1 ->
  round_half_even p1 q1 <= round_half_even p2 q2.
Proof.
  intros Hp1 Hq1 Hp2 Hq2 Hle. unfold round_half_even.
  pose proof (Z.div_mod p1 q1 ltac:(lia)) as Hdm1.
  pose proof (Z.mod_pos_bound p1 q1 Hq1) as Hr1.
  pose proof (Z.div_mod p2 q2 ltac:(lia)) as Hdm2.
  pose proof (Z.mod_pos_bound p2 q2 Hq2) as Hr2.
  set (d1 := p1 / q1) in *. set (r1 := p1 mod q1) in *.
  set (d2 := p2 / q2) in *. set (r2 := p2 mod q2) in *.
  assert (Hd : d1 <= d2).
  { destruct (Z_le_gt_dec d1 d2) as [|Hgt]; [done|]. exfalso.
    assert (H1 : q1 * (d2 + 1) <= p1) by nia.
    assert (H2 : p2 < q2 * (d2 + 1)) by nia.
    assert (H3 : q2 * (q1 * (d2 + 1)) <= q2 * p1)
      by (apply Z.mul_le_mono_nonneg_l; lia).
    assert (H4 : q1 * p2 < q1 * (q2 * (d2 + 1)))
      by (apply Z.mul_lt_mono_pos_l; lia).
    lia. }
  destruct (Z.eq_dec d1 d2) as [Heq|Hne].
  - rewrite <- Heq in *.
    assert (Hrr : r1 * q2 <= r2 * q1) by nia.
    destruct (Z.compare_spec (2 * r1) q1) as [He1|Hl1|Hg1];
    destruct (Z.compare_spec (2 * r2) q2) as [He2|Hl2|Hg2];
      try destruct (Z.even d1); try lia; exfalso; nia.
  - destruct (Z.compare_spec (2 * r1) q1) as [He1|Hl1|Hg1];
    destruct (Z.compare_spec (2 * r2) q2) as [He2|Hl2|Hg2];
      try destruct (Z.even d1); try destruct (Z.even d2); lia.
Qed.

Lemma div_cross_mono p1 q1 p2 q2 :
  0 <= p1 -> 0 < q1 -> 0 <= p2 -> 0 < q2 ->
  p1 * q2 <= p2 * q1 -> p1 / q1 <= p2 / q2.
Proof.
  intros Hp1 Hq1 Hp2 Hq2 Hle.
  apply Z.div_le_lower_bound; [done|].
  pose proof (Z.mul_div_le p1 q1 Hq1) as H1.
  (* q2 * (p1/q1) * q1 <= q2 * p1 <= p2 * q1 *)
  assert (H2 : q2 * (p1 / q1) * q1 <= p2 * q1) by nia.
  pose proof (Z.div_pos p1 q1 Hp1 Hq1). nia.
Qed.

(** The exponent shift chosen for [p/q] brackets it within one binade. *)
Lemma shift_spec p q :
  0 <= p -> 0 < q ->
  let sh := Z.max 0 (Z.log2 (p / q) - 52) in
  0 <= sh /\ (0 < sh -> 2 ^ (sh + 52) * q <= p) /\ p < 2 ^ (sh + 53) * q.
Proof.
  intros Hp Hq sh.
  pose proof (Z.div_pos p q Hp Hq) as Hn.
  pose proof (Z.mul_div_le p q Hq) as Hlo.
  pose proof (Z.mul_succ_div_gt p q Hq) as Hhi.
  set (n := p / q) in *.
  pose proof (Z.log2_nonneg n) as Hl0.
  split; [lia|].
  destruct (Z.eq_dec n 0) as [Hz|Hnz].
  - assert (Hsh : sh = 0) by (unfold sh; rewrite Hz; cbn; lia).
    rewrite Hsh. split; [lia|]. change (2 ^ (0 + 53)) with 9007199254740992. nia.
  - destruct (Z.log2_spec n ltac:(lia)) as [Hl1 Hl2].
    set (l := Z.log2 n) in *.
    destruct (Z_le_gt_dec l 52) as [Hsmall|Hbig].
    + assert (Hsh : sh = 0) by (unfold sh; lia).
      rewrite Hsh. split; [lia|].
      assert (2 ^ Z.succ l <= 2 ^ 53) by (apply Z.pow_le_mono_r; lia).
      change (0 + 53) with 53. nia.
    + assert (Hsh : sh = l - 52) by (unfold sh; lia).
      rewrite Hsh. replace (l - 52 + 52) with l by lia.
      replace (l - 52 + 53) with (Z.succ l) by lia.
      split; [intros _; nia|]. nia.
Qed.

Lemma mantissa_bounds p q :
  0 <= p -> 0 < q ->
  let sh := Z.max 0 (Z.log2 (p / q) - 52) in
  let m := round_half_even p (q * 2 ^ sh) in
  0 <= m <= 2 ^ 53 /\ (0 < sh -> 2 ^ 52 <= m).
Proof.
  intros Hp Hq sh m.
  destruct (shift_spec p q Hp Hq) as (Hsh & Hlo & Hhi). fold sh in Hsh, Hlo, Hhi.
  assert (Hg : 0 < 2 ^ sh) by (apply Z.pow_pos_nonneg; lia).
  assert (Hd : 0 < q * 2 ^ sh) by nia.
  pose proof (rhe_bracket p (q * 2 ^ sh) Hp Hd) as [Hb1 Hb2]. fold m in Hb1, Hb2.
  pose proof (Z.div_pos p (q * 2 ^ sh) Hp Hd) as Hdiv0.
  rewrite (Z.add_comm sh 53), Z.pow_add_r in Hhi by lia.
  assert (Hup : p / (q * 2 ^ sh) < 2 ^ 53).
  { apply Z.div_lt_upper_bound; [done|]. nia. }
  split; [lia|]. intros Hpos. specialize (Hlo Hpos).
  rewrite (Z.add_comm sh 52), Z.pow_add_r in Hlo by lia.
  assert (2 ^ 52 <= p / (q * 2 ^ sh)).
  { apply Z.div_le_lower_bound; [done|]. nia. }
  lia.
Qed.

(** The rounding is at least as near to [p/q] as any binary64 value. *)
Lemma rounded_nearest p q v :
  0 <= p -> 0 < q -> representable v ->
  Z.abs (rounded p q * q - p) <= Z.abs (v * q - p).
Proof.
  intros Hp Hq (mv & a & -> & Hmv & Ha).
  unfold rounded, nearest_scaled.
  destruct (shift_spec p q Hp Hq) as (Hsh & Hlo & Hhi).
  set (sh := Z.max 0 (Z.log2 (p / q) - 52)) in *.
  assert (Hg : 0 < 2 ^ sh) by (apply Z.pow_pos_nonneg; lia).
  assert (Hd : 0 < q * 2 ^ sh) by nia.
  destruct (Z_le_gt_dec sh a) as [Hge|Hlt].
  - pose proof (rhe_nearest p (q * 2 ^ sh) (mv * 2 ^ (a - sh)) Hp Hd) as H.
    replace (mv * 2 ^ a) with (mv * 2 ^ (a - sh) * 2 ^ sh).
    2:{ rewrite <- Z.mul_assoc, <- Z.pow_add_r by lia. do 2 f_equal. lia. }
    replace (round_half_even p (q * 2 ^ sh) * 2 ^ sh * q - p)
      with (round_half_even p (q * 2 ^ sh) * (q * 2 ^ sh) - p) by ring.
    replace (mv * 2 ^ (a - sh) * 2 ^ sh * q - p)
      with (mv * 2 ^ (a - sh) * (q * 2 ^ sh) - p) by ring.
    exact H.
  - pose proof (rhe_nearest p (q * 2 ^ sh) (2 ^ 52) Hp Hd) as H.
    specialize (Hlo ltac:(lia)).
    rewrite (Z.add_comm sh 52), Z.pow_add_r in Hlo by lia.
    assert (Hpa : 2 * 2 ^ a <= 2 ^ sh).
    { change (2 * 2 ^ a) with (2 ^ 1 * 2 ^ a). rewrite <- Z.pow_add_r by lia.
      apply Z.pow_le_mono_r; lia. }
    assert (H2a : 0 < 2 ^ a) by (apply Z.pow_pos_nonneg; lia).
    assert (Hv : mv * 2 ^ a * q <= 2 ^ 52 * (q * 2 ^ sh)).
    { assert (mv * 2 ^ a <= 2 ^ 52 * 2 ^ sh) by nia. nia. }
    replace (round_half_even p (q * 2 ^ sh) * 2 ^ sh * q - p)
      with (round_half_even p (q * 2 ^ sh) * (q * 2 ^ sh) - p) by ring.
    lia.
Qed.

(** Rounding is monotone. *)
Lemma rounded_mono p1 q1 p2 q2 :
  0 <= p1 -> 0 < q1 -> 0 <= p2 -> 0 < q2 ->
  p1 * q2 <= p2 * q1 ->
  rounded p1 q1 <= rounded p2 q2.
Proof.
  intros Hp1 Hq1 Hp2 Hq2 Hle. unfold rounded, nearest_scaled.
  pose proof (mantissa_bounds p1 q1 Hp1 Hq1) as [Hm1 _].
  pose proof (mantissa_bounds p2 q2 Hp2 Hq2) as [Hm2 Hm2'].
  cbn zeta in Hm1, Hm2, Hm2'.
  pose proof (div_cross_mono _ _ _ _ Hp1 Hq1 Hp2 Hq2 Hle) as Hdiv.
  pose proof (Z.log2_le_mono _ _ Hdiv) as Hlog.
  set (sh1 := Z.max 0 (Z.log2 (p1 / q1) - 52)) in *.
  set (sh2 := Z.max 0 (Z.log2 (p2 / q2) - 52)) in *.
  assert (Hsh : sh1 <= sh2) by lia.
  assert (Hsh1 : 0 <= sh1) by lia.
  assert (Hg1 : 0 < 2 ^ sh1) by (apply Z.pow_pos_nonneg; lia).
  assert (Hg2 : 0 < 2 ^ sh2) by (apply Z.pow_pos_nonneg; lia).
  destruct (Z.eq_dec sh1 sh2) as [Heq|Hne].
  - rewrite <- Heq in *.
    apply Z.mul_le_mono_nonneg_r; [lia|].
    apply rhe_mono; try nia.
  - specialize (Hm2' ltac:(lia)).
    assert (Hpa : 2 * 2 ^ sh1 <= 2 ^ sh2).
    { change (2 * 2 ^ sh1) with (2 ^ 1 * 2 ^ sh1).
      rewrite <- Z.pow_add_r by lia. apply Z.pow_le_mono_r; lia. }
    set (m1 := round_half_even p1 (q1 * 2 ^ sh1)) in *.
    set (m2 := round_half_even p2 (q2 * 2 ^ sh2)) in *.
    assert (H1 : m1 * 2 ^ sh1 <= 2 ^ 53 * 2 ^ sh1)
      by (apply Z.mul_le_mono_nonneg_r; lia).
    assert (H2 : 2 ^ 52 * 2 ^ sh2 <= m2 * 2 ^ sh2)
      by (apply Z.mul_le_mono_nonneg_r; lia).
    lia.
Qed.

(** A value of the binary64 grid is its own rounding. *)
Lemma rounded_exact q v :
  0 < q -> representable v -> rounded (v * q) q = v.
Proof.
  intros Hq Hv.
  assert (Hv0 : 0 <= v).
  { destruct Hv as (m & a & -> & Hm & Ha).
    assert (0 < 2 ^ a) by (apply Z.pow_pos_nonneg; lia). nia. }
  pose proof (rounded_nearest (v * q) q v ltac:(nia) Hq Hv) as H.
  rewrite Z.sub_diag in H. change (Z.abs 0) with 0 in H.
  apply (Z.mul_cancel_r _ _ q); lia.
Qed.

Lemma rounded_nonneg p q : 0 <= p -> 0 < q -> 0 <= rounded p q.
Proof.
  intros Hp Hq. unfold rounded, nearest_scaled.
  pose proof (mantissa_bounds p q Hp Hq) as [Hm _]. cbn zeta in Hm.
  set (sh := Z.max 0 (Z.log2 (p / q) - 52)) in *.
  assert (0 < 2 ^ sh) by (apply Z.pow_pos_nonneg; lia). nia.
Qed.

Lemma pow_2098 : 2 ^ 53 * 2 ^ 2045 = 2 ^ 52 * 2 ^ 2046.
Proof.
  replace 2046 with (1 + 2045) by lia. rewrite Z.pow_add_r by lia.
  change (2 ^ 53) with (2 ^ 52 * 2 ^ 1). ring.
Qed.

(** Below the overflow threshold [mk_float] builds a finite float of the
    intended sign and magnitude. *)
Lemma mk_float_sval s m sh :
  0 <= m -> 0 <= sh -> (0 < sh -> 2 ^ 52 <= m) ->
  m * 2 ^ sh < 2 ^ 53 * 2 ^ 2045 ->
  is_finite (mk_float s m sh) = true /\
  sign_of (mk_float s m sh) = s /\
  sval (mk_float s m sh) = (if s then -1 else 1) * (m * 2 ^ sh).
Proof.
  intros Hm Hsh Hnorm Hlt. unfold mk_float.
  destruct (Z.eqb_spec m 0) as [->|Hm0].
  { cbn. split_and!; try done. by destruct s. }
  assert (Hover : forall m' sh', 0 < m' -> m' * 2 ^ sh' = m * 2 ^ sh ->
            (2045 < sh' -> 2 ^ 52 <= m') -> 0 <= sh' ->
    is_finite (if e_top - e_min <? sh' then S754_infinity s
               else S754_finite s (Z.to_pos m') (sh' + e_min)) = true /\
    sign_of (if e_top - e_min <? sh' then S754_infinity s
             else S754_finite s (Z.to_pos m') (sh' + e_min)) = s /\
    sval (if e_top - e_min <? sh' then S754_infinity s
          else S754_finite s (Z.to_pos m') (sh' + e_min)) =
      (if s then -1 else 1) * (m * 2 ^ sh)).
  { intros m' sh' Hm' Heq Hbig Hsh'.
    change (e_top - e_min) with 2045.
    destruct (Z.ltb_spec 2045 sh') as [Hgt|Hle].
    - exfalso. specialize (Hbig Hgt).
      assert (H1 : 2 ^ 2046 <= 2 ^ sh') by (apply Z.pow_le_mono_r; lia).
      rewrite pow_2098 in Hlt. rewrite <- Heq in Hlt.
      set (K := 2 ^ 2046) in *.
      assert (0 < K) by (apply Z.pow_pos_nonneg; lia). clearbody K.
      assert (2 ^ 52 * K <= m' * 2 ^ sh') by nia. lia.
    - cbn [is_finite sign_of sval]. split_and!; try done.
      rewrite Z2Pos.id by lia.
      replace (sh' + e_min - e_min) with sh' by lia. by rewrite Heq. }
  destruct (Z.eqb_spec m (2 ^ 53)) as [->|Hm53].
  - apply Hover; try lia.
    replace (sh + 1) with (1 + sh) by lia. rewrite Z.pow_add_r by lia.
    change (2 ^ 53) with (2 ^ 52 * 2 ^ 1). ring.
  - apply Hover; try lia.
Qed.

Lemma digits2_pos_bound m : Z.pos m < 2 ^ Z.pos (digits2_pos m).
Proof.
  induction m as [m IH|m IH|]; cbn [digits2_pos]; [| |done].
  - rewrite Pos2Z.inj_succ, Z.pow_succ_r by lia. lia.
  - rewrite Pos2Z.inj_succ, Z.pow_succ_r by lia. lia.
Qed.

Lemma valid_finite s m e :
  valid (S754_finite s m e) = true ->
  Z.pos m < 2 ^ 53 /\ e_min <= e <= e_top.
Proof.
  unfold valid, valid_binary, bounded, canonical_mantissa, fexp, emin.
  unfold prec, emax, e_min, e_top.
  intros H. apply andb_true_iff in H as [Hc He].
  apply Z.leb_le in He. apply Z.eqb_eq in Hc.
  pose proof (digits2_pos_bound m) as Hd.
  assert (Hdig : Z.pos (digits2_pos m) <= 53) by lia.
  assert (2 ^ Z.pos (digits2_pos m) <= 2 ^ 53) by (apply Z.pow_le_mono_r; lia).
  lia.
Qed.

Lemma valid_representable f :
  valid f = true -> representable (Z.abs (sval f)).
Proof.
  destruct f as [s|s| |s m e]; intros Hv;
    try (exists 0, 0; cbn; lia).
  apply valid_finite in Hv as [Hm He]. unfold e_min, e_top in He.
  exists (Z.pos m), (e - e_min). unfold e_min. split; [|lia].
  cbn [sval]. unfold e_min.
  assert (0 < 2 ^ (e - -1074)) by (apply Z.pow_pos_nonneg; lia).
  destruct s; nia.
Qed.

Lemma round_to_binary64_sval s p q :
  0 <= p -> 0 < q ->
  rounded (p * ulp_inv) q < 2 ^ 53 * 2 ^ 2045 ->
  is_finite (round_to_binary64 s p q) = true /\
  sign_of (round_to_binary64 s p q) = s /\
  sval (round_to_binary64 s p q) =
    (if s then -1 else 1) * rounded (p * ulp_inv) q.
Proof.
  intros Hp Hq. unfold round_to_binary64, rounded, nearest_scaled.
  pose proof ulp_inv_pos as HU.
  assert (HP : 0 <= p * ulp_inv) by nia.
  pose proof (mantissa_bounds _ _ HP Hq) as [Hm Hnorm].
  pose proof (shift_spec _ _ HP Hq) as (Hsh & _). cbn zeta in *.
  intros Hlt. apply mk_float_sval; try done. lia.
Qed.

Lemma abs_sval_sign f :
  sval f = (if sign_of f then -1 else 1) * Z.abs (sval f).
Proof.
  destruct f as [s|s| |s m e]; cbn [sval sign_of];
    [by destruct s|by destruct s|done|].
  set (v := Z.pos m * 2 ^ (e - e_min)).
  assert (0 <= v) by (unfold v; apply Z.mul_nonneg_nonneg; [lia|apply Z.pow_nonneg; lia]).
  destruct s; lia.
Qed.

Lemma quantize_finite k f :
  is_finite f = true ->
  Text.quantize k f =
  Text.DNum (sign_of f)
    (round_half_even (Z.abs (sval f) * 10 ^ Z.of_nat k) ulp_inv) k.
Proof.
  destruct f as [s|s| |s m e]; try discriminate; intros _.
  - cbn [Text.quantize sign_of sval Z.abs].
    pose proof (rhe_exact 0 ulp_inv (Z.le_refl 0) ulp_inv_pos) as H.
    rewrite !Z.mul_0_l in *. by rewrite H.
  - reflexivity.
Qed.

Lemma representable_bound v :
  representable v -> 0 <= v /\ v + 2 ^ 2045 <= 2 ^ 53 * 2 ^ 2045.
Proof.
  intros (m & a & -> & Hm & Ha).
  assert (H2a : 0 < 2 ^ a) by (apply Z.pow_pos_nonneg; lia).
  assert (Hle : 2 ^ a <= 2 ^ 2045) by (apply Z.pow_le_mono_r; lia).
  set (K := 2 ^ 2045) in *. split; [nia|].
  assert (m * 2 ^ a <= (2 ^ 53 - 1) * 2 ^ a) by (apply Z.mul_le_mono_nonneg_r; lia).
  assert ((2 ^ 53 - 1) * 2 ^ a <= (2 ^ 53 - 1) * K) by (apply Z.mul_le_mono_nonneg_l; lia).
  lia.
Qed.

Lemma ulp_inv_small : ulp_inv < 2 ^ 2045.
Proof. unfold ulp_inv. apply Z.pow_lt_mono_r; lia. Qed.

(** Printing a finite float with [k] decimals and reading the text back
    gives a finite float of the same sign within [10^-k] of it. *)
Lemma reread_close k f :
  valid f = true -> is_finite f = true ->
  let f' := Text.float_of_decimal (Text.quantize k f) in
  is_finite f' = true /\
  sign_of f' = sign_of f /\
  Z.abs (sval f' - sval f) * 10 ^ Z.of_nat k <= ulp_inv.
Proof.
  intros Hvalid Hfin. cbn zeta.
  rewrite (quantize_finite k f Hfin). cbn [Text.float_of_decimal].
  pose proof ulp_inv_pos as HU. pose proof ulp_inv_small as HUs.
  pose proof (valid_representable f Hvalid) as Hrep.
  destruct (representable_bound _ Hrep) as [Hv0 Hvmax].
  set (v := Z.abs (sval f)) in *.
  rewrite (abs_sval_sign f). fold v.
  set (w := 10 ^ Z.of_nat k).
  assert (Hw : 0 < w) by (apply Z.pow_pos_nonneg; lia).
  set (n := round_half_even (v * w) ulp_inv).
  assert (Hvw : 0 <= v * w) by (apply Z.mul_nonneg_nonneg; lia).
  assert (Hn : 0 <= n) by (by apply rhe_nonneg).
  pose proof (rhe_half (v * w) ulp_inv Hvw HU) as Hfmt. fold n in Hfmt.
  assert (HnU : 0 <= n * ulp_inv) by (apply Z.mul_nonneg_nonneg; lia).
  pose proof (rounded_nearest (n * ulp_inv) w v HnU Hw Hrep) as Hnear.
  pose proof (rounded_nonneg (n * ulp_inv) w HnU Hw) as HM0.
  set (M := rounded (n * ulp_inv) w) in *.
  assert (Hclose : Z.abs (M - v) * w <= ulp_inv).
  { clearbody M n v w. set (U := ulp_inv) in *. clearbody U.
    assert (H : Z.abs (M * w - v * w) <= U) by lia.
    rewrite <- Z.mul_sub_distr_r in H. rewrite Z.abs_mul in H.
    rewrite (Z.abs_eq w) in H by lia. done. }
  assert (HMlt : M < 2 ^ 53 * 2 ^ 2045).
  { clearbody M n v w. set (U := ulp_inv) in *. clearbody U.
    set (K := 2 ^ 2045) in *. clearbody K.
    assert (Z.abs (M - v) <= U) by nia. lia. }
  destruct (round_to_binary64_sval (sign_of f) n w Hn Hw HMlt)
    as (Hf & Hs & Hval).
  split_and!; [done|done|].
  rewrite Hval. fold M.
  replace ((if sign_of f then -1 else 1) * M - (if sign_of f then -1 else 1) * v)
    with ((if sign_of f then -1 else 1) * (M - v)) by ring.
  rewrite Z.abs_mul. clearbody M n v w.
  destruct (sign_of f); cbn [Z.abs]; lia.
Qed.

End Rounding.

(** ** Reading samples back *)

Section Reading.

Import Text Float Redis WaveFuncHashHandler.

Lemma hget_root s f :
  hget root f s =
  (if root_wrong_type s then Raise ResponseError else Val (root_field s f), s).
Proof.
  unfold hget, root_wrong_type, root_field, root_hash. fold root.
  by destruct (lookup_key s root) as [[[h|] ex]|].
Qed.

Lemma b2c_outcome {S} b (s : S) :
  (exists c, b2c b s = (Val c, s)) \/ b2c b s = (Raise ValueError, s).
Proof.
  unfold b2c.
  destruct (split_on "," b) as [|r [|i [|? ?]]]; try by right.
  destruct (parse_float r), (parse_float i); try by right.
  left. by eexists.
Qed.

Lemma get_point_stored s x y z t temp c :
  root_wrong_type s = false ->
  root_field s (gen_field x y z t temp) = Some (c2b c) ->
  get_point x y z t temp s = (Val (stored_sample c), s).
Proof.
  intros Hty Hf. unfold get_point, bind. rewrite hget_root, Hty, Hf.
  destruct (String.eqb_spec (c2b c) "") as [He|_].
  { by apply c2b_nonempty in He. }
  apply b2c_c2b.
Qed.

Lemma batch_save_hash psi t temp s r s' :
  batch_save psi t temp s = (Val r, s') -> root_wrong_type s' = false.
Proof.
  intros Hrun.
  destruct (batch_save_cases psi t temp s) as [[e He]|[Hty Hdata]];
    [congruence|].
  rewrite (batch_save_run _ _ _ _ Hty Hdata) in Hrun.
  injection Hrun as _ <-. unfold root_wrong_type. fold root.
  rewrite lookup_key_insert. destruct (decide (root = root)); [|done].
  by destruct (expired _ _).
Qed.

Lemma batch_save_report psi t temp s r s' :
  batch_save psi t temp s = (Val r, s') ->
  r = BatchReport (size (batch_data psi t temp)) temp.
Proof.
  intros Hrun.
  destruct (batch_save_cases psi t temp s) as [[e He]|[Hty Hdata]];
    [congruence|].
  rewrite (batch_save_run _ _ _ _ Hty Hdata) in Hrun. by injection Hrun as <- _.
Qed.

Lemma batch_save_field psi t temp s r s' x y z :
  batch_save psi t temp s = (Val r, s') ->
  in_bounds psi x y z ->
  root_field s' (gen_field (Z.of_nat x) (Z.of_nat y) (Z.of_nat z) t temp)
  = Some (c2b (item psi x y z)).
Proof.
  intros Hrun Hb.
  destruct (batch_save_expiry _ _ _ _ _ _ Hrun) as (_ & _ & Hhash & _).
  unfold root_field. rewrite Hhash.
  apply lookup_union_Some_l. by apply batch_data_lookup.
Qed.

(** A difference of scaled values, read as rationals. *)
Lemma F2Q_close a b k :
  0 < k ->
  Z.abs (sval a - sval b) * k <= ulp_inv ->
  (Qabs (F2Q a - F2Q b) <= 1 # Z.to_pos k)%Q.
Proof.
  intros Hk H. pose proof ulp_inv_pos as HU.
  unfold Qle, Qabs, Qminus, Qplus, Qopp, F2Q. cbn [Qnum Qden].
  rewrite Pos2Z.inj_mul, !Z2Pos.id by lia.
  set (U := ulp_inv) in *. clearbody U.
  replace (sval a * U + - sval b * U) with ((sval a - sval b) * U) by ring.
  rewrite Z.abs_mul, (Z.abs_eq U) by lia.
  set (d := Z.abs (sval a - sval b)) in *. clearbody d. nia.
Qed.

Lemma requantized_close f :
  valid f = true -> is_finite f = true ->
  is_finite (requantized f) = true /\
  (Qabs (F2Q (requantized f) - F2Q f) <= 1 # 10000000000)%Q.
Proof.
  intros Hv Hf. destruct (reread_close 10 f Hv Hf) as (Hfin & _ & Hclose).
  split; [done|]. by apply (F2Q_close _ _ (10 ^ 10)).
Qed.

End Reading.

(** ** The codec *)

Section Codec.

Import Text Float Redis WaveFuncHashHandler Samples.

(** C1: for a complex value with finite parts, [b2c (c2b c)] returns a
    complex value with finite parts, each within 1e-9 of the part of [c]. *)
Theorem sample_round_trip {S} (c : complex) (s : S) :
  valid (real c) = true -> is_finite (real c) = true ->
  valid (imag c) = true -> is_finite (imag c) = true ->
  exists c',
    b2c (c2b c) s = (Val c', s) /\
    is_finite (real c') = true /\ is_finite (imag c') = true /\
    (Qabs (F2Q (real c') - F2Q (real c)) <= 1 # 1000000000)%Q /\
    (Qabs (F2Q (imag c') - F2Q (imag c)) <= 1 # 1000000000)%Q.
Proof.
  intros Hvr Hfr Hvi Hfi. exists (stored_sample c).
  destruct (requantized_close (real c) Hvr Hfr) as [Hr1 Hr2].
  destruct (requantized_close (imag c) Hvi Hfi) as [Hi1 Hi2].
  split; [apply b2c_c2b|]. cbn [stored_sample real imag].
  split_and!; try done.
  - eapply Qle_trans; [exact Hr2|]. by unfold Qle.
  - eapply Qle_trans; [exact Hi2|]. by unfold Qle.
Qed.

Lemma sample_round_trip_witness :
  (valid (real c0) = true /\ is_finite (real c0) = true /\
   valid (imag c0) = true /\ is_finite (imag c0) = true) /\
  exists c',
    b2c (c2b c0) tt = (Val c', tt) /\
    is_finite (real c') = true /\ is_finite (imag c') = true /\
    (Qabs (F2Q (real c') - F2Q (real c0)) <= 1 # 1000000000)%Q /\
    (Qabs (F2Q (imag c') - F2Q (imag c0)) <= 1 # 1000000000)%Q.
Proof.
  split; [by vm_compute|].
  apply (sample_round_trip c0 tt); by vm_compute.
Defined.

(** C3, as the code has it: two calls of [gen_field] give the same field
    name exactly when x, y, z and the namespace flag are equal and the two
    time tags round to the same text of four decimals (same sign, same
    magnitude rounded half to even, or the same special value). *)
Theorem gen_field_equal_iff x y z t temp x' y' z' t' temp' :
  gen_field x y z t temp = gen_field x' y' z' t' temp' <->
  x = x' /\ y = y' /\ z = z' /\ temp = temp' /\
  quantize 4 t = quantize 4 t'.
Proof.
  split; [apply gen_field_inv|].
  intros (-> & -> & -> & -> & Hq). unfold gen_field.
  by rewrite (proj2 (format_f_inj 4 t t') Hq).
Qed.

(** Two time tags that differ, 0.01 and 0.010001, with the same field
    name. *)
Lemma gen_field_collision :
  t_a <> t_b /\
  sval t_a <> sval t_b /\
  gen_field 1 2 3 t_a false = gen_field 1 2 3 t_b false.
Proof. split_and!; by vm_compute. Qed.

End Codec.

(** ** Point reads *)

Section PointReads.

Import Text Float Redis WaveFuncHashHandler Samples.

(** C7, as the code has it: [get_point] never changes the store; it raises
    [KeyError] exactly when the root hash can be read and the field is
    absent or holds empty bytes; a field that holds an encoded sample is
    decoded without error. *)
Theorem get_point_key_error x y z t temp s :
  snd (get_point x y z t temp s) = s /\
  (fst (get_point x y z t temp s) = Raise KeyError <->
   root_wrong_type s = false /\
   (root_field s (gen_field x y z t temp) = None \/
    root_field s (gen_field x y z t temp) = Some ""%string)) /\
  (forall c, root_wrong_type s = false ->
     root_field s (gen_field x y z t temp) = Some (c2b c) ->
     fst (get_point x y z t temp s) = Val (stored_sample c)).
Proof.
  split_and!.
  - unfold get_point, bind. rewrite hget_root.
    destruct (root_wrong_type s); [done|].
    destruct (root_field s _) as [b|]; [|done].
    destruct (String.eqb b ""); [done|].
    by destruct (b2c_outcome b s) as [[c ->]| ->].
  - unfold get_point, bind. rewrite hget_root.
    destruct (root_wrong_type s); [split; [done|by intros [? _]]|].
    destruct (root_field s _) as [b|]; [|by split; [auto|]].
    destruct (String.eqb_spec b "") as [->|Hne].
    + split; [auto|done].
    + destruct (b2c_outcome b s) as [[c ->]| ->]; cbn [fst].
      * split; [done|]. intros [_ [|]]; congruence.
      * split; [done|]. intros [_ [|]]; congruence.
  - intros c Hty Hf. by rewrite (get_point_stored s x y z t temp c Hty Hf).
Qed.

Lemma get_point_key_error_witness :
  (root_wrong_type s_mixed = false /\
   root_field s_mixed (gen_field 0 0 0 t_a false) = Some (c2b c0)) /\
  fst (get_point 0 0 0 t_a false s_mixed) = Val (stored_sample c0).
Proof.
  split; [by vm_compute|].
  apply (get_point_key_error 0 0 0 t_a false s_mixed); by vm_compute.
Defined.

(** A field that is present, with empty bytes, reads as [KeyError]. *)
Lemma get_point_empty_value :
  root_field s_mixed (gen_field 1 1 1 t_a false) = Some ""%string /\
  get_point 1 1 1 t_a false s_mixed = (Raise KeyError, s_mixed).
Proof. split; by vm_compute. Qed.

(** C6, as the code has it: on a store whose root key is free or holds a
    hash, a batch over an array goes through and reports one field per
    index triple of the array; each triple's field then holds the encoded
    sample, and [get_point] returns the sample as decoded from that text:
    each finite part rounded to ten decimals, hence within 1e-10 of the
    part supplied. *)
Theorem batch_save_then_get_point psi t temp s x y z :
  root_wrong_type s = false ->
  in_bounds psi x y z ->
  exists r s',
    batch_save psi t temp s = (Val r, s') /\
    count r = ((shape psi).1.1 * (shape psi).1.2 * (shape psi).2)%nat /\
    root_field s' (gen_field (Z.of_nat x) (Z.of_nat y) (Z.of_nat z) t temp)
      = Some (c2b (item psi x y z)) /\
    get_point (Z.of_nat x) (Z.of_nat y) (Z.of_nat z) t temp s'
      = (Val (stored_sample (item psi x y z)), s') /\
    (valid (real (item psi x y z)) = true ->
     is_finite (real (item psi x y z)) = true ->
     (Qabs (F2Q (real (stored_sample (item psi x y z)))
            - F2Q (real (item psi x y z))) <= 1 # 10000000000)%Q) /\
    (valid (imag (item psi x y z)) = true ->
     is_finite (imag (item psi x y z)) = true ->
     (Qabs (F2Q (imag (stored_sample (item psi x y z)))
            - F2Q (imag (item psi x y z))) <= 1 # 10000000000)%Q).
Proof.
  intros Hty Hb.
  pose proof (batch_data_nonempty psi t temp x y z Hb) as Hdata.
  pose proof (batch_save_run psi t temp s Hty Hdata) as Hrun.
  eexists _, _. split; [exact Hrun|].
  pose proof (batch_save_field _ _ _ _ _ _ x y z Hrun Hb) as Hfield.
  split_and!.
  - cbn [count]. apply batch_data_size.
  - exact Hfield.
  - apply get_point_stored; [|exact Hfield]. by eapply batch_save_hash.
  - intros Hv Hf. by apply requantized_close.
  - intros Hv Hf. by apply requantized_close.
Qed.

Lemma batch_save_then_get_point_witness :
  (root_wrong_type s_empty = false /\ in_bounds psi8 1 0 1) /\
  exists r s',
    batch_save psi8 t_a false s_empty = (Val r, s') /\
    count r = 8%nat /\
    root_field s' (gen_field 1 0 1 t_a false) = Some (c2b (item psi8 1 0 1)) /\
    get_point 1 0 1 t_a false s' = (Val (stored_sample (item psi8 1 0 1)), s').
Proof.
  assert (Hty : root_wrong_type s_empty = false) by reflexivity.
  assert (Hb : in_bounds psi8 1 0 1) by (unfold in_bounds; cbn; lia).
  split; [exact (conj Hty Hb)|].
  destruct (batch_save_then_get_point psi8 t_a false s_empty 1 0 1 Hty Hb)
    as (r & s' & H0 & H1 & H2 & H3 & _).
  exists r, s'. exact (conj H0 (conj H1 (conj H2 H3))).
Defined.

(** The sample read back after a batch is not the sample supplied: 1/3
    comes back as the float nearest to 0.3333333333. *)
Lemma get_point_not_exact :
  let s' := snd (batch_save psi1 t_a false s_empty) in
  fst (batch_save psi1 t_a false s_empty) = Val (BatchReport 1 false) /\
  item psi1 0 0 0 = Complex third (S754_finite true 4503599627370496 (-51)) /\
  third = S754_finite false 6004799503160661 (-54) /\
  fst (get_point 0 0 0 t_a false s') =
    Val (Complex (S754_finite false 6004799502560181 (-54))
                 (S754_finite true 4503599627370496 (-51))) /\
  fst (get_point 0 0 0 t_a false s') <> Val (item psi1 0 0 0).
Proof. cbn zeta. split_and!; by vm_compute. Qed.

End PointReads.

(** ** The time to live of temporary batches *)

Section TimeToLive.

Import Text Float Redis WaveFuncHashHandler Samples.

(** C2, as the code has it: on a store whose root key is free or holds a
    hash, a batch saved with [temp=True] goes through and its samples can
    be read; once more than [TEMP_DATA_TTL] seconds have passed the whole
    root hash is gone, with the samples of the batch and with every other
    field it held, the formal ones included; the keys outside the root hash
    are as they would be without the batch. *)
Theorem temp_batch_expires_whole_root psi t s x y z ms :
  root_wrong_type s = false ->
  in_bounds psi x y z ->
  CONFIG.TEMP_DATA_TTL * 1000 < ms ->
  exists r s',
    batch_save psi t true s = (Val r, s') /\
    root_field s' (gen_field (Z.of_nat x) (Z.of_nat y) (Z.of_nat z) t true)
      = Some (c2b (item psi x y z)) /\
    (forall f, root_field (advance ms s') f = None) /\
    (forall k, k ≠ root ->
       lookup_key (advance ms s') k = lookup_key (advance ms s) k).
Proof.
  intros Hty Hb Hms.
  pose proof (batch_data_nonempty psi t true x y z Hb) as Hdata.
  pose proof (batch_save_run psi t true s Hty Hdata) as Hrun.
  eexists _, _. split; [exact Hrun|].
  split; [exact (batch_save_field _ _ _ _ _ _ x y z Hrun Hb)|].
  exact (temp_batch_expiry _ _ _ _ _ _ Hrun Hms).
Qed.

Lemma temp_batch_expires_whole_root_witness :
  (root_wrong_type s_mixed = false /\ in_bounds psi1 0 0 0 /\
   CONFIG.TEMP_DATA_TTL * 1000 < 3600001) /\
  exists r s',
    batch_save psi1 t_a true s_mixed = (Val r, s') /\
    root_field s' (gen_field 0 0 0 t_a true) = Some (c2b (item psi1 0 0 0)) /\
    (forall f, root_field (advance 3600001 s') f = None) /\
    (forall k, k ≠ root ->
       lookup_key (advance 3600001 s') k
       = lookup_key (advance 3600001 s_mixed) k).
Proof.
  assert (Hty : root_wrong_type s_mixed = false) by (vm_compute; reflexivity).
  assert (Hb : in_bounds psi1 0 0 0) by (unfold in_bounds; cbn; lia).
  assert (Hms : CONFIG.TEMP_DATA_TTL * 1000 < 3600001) by reflexivity.
  split; [exact (conj Hty (conj Hb Hms))|].
  exact (temp_batch_expires_whole_root psi1 t_a s_mixed 0 0 0 3600001
           Hty Hb Hms).
Defined.

(** A formal field written before a temporary batch is gone with it when
    the time to live has passed. *)
Lemma ttl_removes_formal_fields :
  let s1 := snd (batch_save psi1 t_a false s_empty) in
  let s2 := snd (batch_save psi1 t_a true s1) in
  let f := gen_field 0 0 0 t_a false in
  fst (batch_save psi1 t_a false s_empty) = Val (BatchReport 1 false) /\
  fst (batch_save psi1 t_a true s1) = Val (BatchReport 1 true) /\
  formal_field f = true /\
  root_field s2 f = Some (c2b c0) /\
  root_field (advance (CONFIG.TEMP_DATA_TTL * 1000 + 1) s2) f = None.
Proof. cbn zeta. split_and!; vm_compute; reflexivity. Qed.

End TimeToLive.

(** ** The memory check *)

Section Usage.

Import Float.

Lemma rounded_zero q : 0 < q -> rounded 0 q = 0.
Proof.
  intros Hq.
  assert (Hrep : representable 0) by (exists 0, 0; cbn; lia).
  exact (rounded_exact q 0 Hq Hrep).
Qed.

(** A non-negative finite float divided by a positive finite one. *)
Lemma div_sval x y :
  is_finite x = true -> sign_of x = false ->
  sign_of y = false -> 0 < sval y ->
  rounded (sval x * ulp_inv) (sval y) < 2 ^ 53 * 2 ^ 2045 ->
  is_finite (div x y) = true /\ sign_of (div x y) = false /\
  sval (div x y) = rounded (sval x * ulp_inv) (sval y).
Proof.
  intros Hfx Hsx Hsy Hy Hlt.
  destruct x as [s|s| |s m e]; try discriminate; cbn [sign_of] in Hsx; subst s.
  - cbn [div sval is_finite sign_of]. rewrite Hsy.
    rewrite Z.mul_0_l, rounded_zero by done. done.
  - pose proof (abs_sval_sign (S754_finite false m e)) as Habs.
    cbn [sign_of] in Habs.
    assert (Hx0 : 0 <= sval (S754_finite false m e)) by lia.
    unfold div. rewrite Hsy. cbn [xorb].
    rewrite (Z.abs_eq (sval y)) by lia.
    rewrite (Z.abs_eq (sval (S754_finite false m e))) by lia.
    set (vx := sval (S754_finite false m e)) in *. clearbody vx.
    destruct (round_to_binary64_sval false vx (sval y) Hx0 Hy Hlt)
      as (H1 & H2 & H3).
    split_and!; [done|done|]. rewrite H3. lia.
Qed.

(** A non-negative finite float times a positive finite one. *)
Lemma mul_sval x y :
  is_finite x = true -> sign_of x = false ->
  sign_of y = false -> 0 < sval y ->
  rounded (sval x * sval y * ulp_inv) (ulp_inv * ulp_inv) < 2 ^ 53 * 2 ^ 2045 ->
  is_finite (mul x y) = true /\ sign_of (mul x y) = false /\
  sval (mul x y) = rounded (sval x * sval y * ulp_inv) (ulp_inv * ulp_inv).
Proof.
  intros Hfx Hsx Hsy Hy Hlt. pose proof ulp_inv_pos as HU.
  assert (HUU : 0 < ulp_inv * ulp_inv) by (by apply Z.mul_pos_pos).
  destruct x as [s|s| |s m e]; try discriminate; cbn [sign_of] in Hsx; subst s.
  - cbn [mul sval is_finite sign_of]. rewrite Hsy.
    rewrite !Z.mul_0_l, rounded_zero by done. done.
  - pose proof (abs_sval_sign (S754_finite false m e)) as Habs.
    cbn [sign_of] in Habs.
    assert (Hx0 : 0 <= sval (S754_finite false m e)) by lia.
    unfold mul. rewrite Hsy. cbn [xorb].
    rewrite (Z.abs_eq (sval y)) by lia.
    rewrite (Z.abs_eq (sval (S754_finite false m e))) by lia.
    set (vx := sval (S754_finite false m e)) in *. clearbody vx.
    assert (Hxy : 0 <= vx * sval y) by (apply Z.mul_nonneg_nonneg; lia).
    destruct (round_to_binary64_sval false (vx * sval y) (ulp_inv * ulp_inv)
                Hxy HUU Hlt) as (H1 & H2 & H3).
    split_and!; [done|done|]. rewrite H3. lia.
Qed.

Lemma of_int_1024 :
  is_finite (of_int 1024) = true /\ sign_of (of_int 1024) = false /\
  sval (of_int 1024) = 1024 * ulp_inv.
Proof. split_and!; vm_compute; reflexivity. Qed.

Lemma of_int_budget :
  is_finite (of_int CONFIG.MAX_MEMORY_MB) = true /\
  sign_of (of_int CONFIG.MAX_MEMORY_MB) = false /\
  sval (of_int CONFIG.MAX_MEMORY_MB) = CONFIG.MAX_MEMORY_MB * ulp_inv.
Proof. split_and!; vm_compute; reflexivity. Qed.

Lemma of_int_100 :
  is_finite (of_int 100) = true /\ sign_of (of_int 100) = false /\
  sval (of_int 100) = 100 * ulp_inv.
Proof. split_and!; vm_compute; reflexivity. Qed.

Lemma kb_value_mono a b : 0 <= a <= b -> 0 <= kb_value a <= kb_value b.
Proof.
  intros H. pose proof ulp_inv_pos as HU. unfold kb_value.
  set (U := ulp_inv) in *. clearbody U.
  split; [apply rounded_nonneg; nia|apply rounded_mono; nia].
Qed.

Lemma mb_value_mono a b : 0 <= a <= b -> 0 <= mb_value a <= mb_value b.
Proof.
  intros H. pose proof ulp_inv_pos as HU. unfold mb_value.
  pose proof (kb_value_mono a b H) as Hk.
  set (ka := kb_value a) in *. set (kb := kb_value b) in *. clearbody ka kb.
  set (U := ulp_inv) in *. clearbody U.
  split; [apply rounded_nonneg; nia|apply rounded_mono; nia].
Qed.

Lemma ratio_value_mono a b :
  0 <= a <= b -> 0 <= ratio_value a <= ratio_value b.
Proof.
  intros H. pose proof ulp_inv_pos as HU. unfold ratio_value.
  pose proof (mb_value_mono a b H) as Hk.
  set (ka := mb_value a) in *. set (kb := mb_value b) in *. clearbody ka kb.
  unfold CONFIG.MAX_MEMORY_MB.
  set (U := ulp_inv) in *. clearbody U.
  split; [apply rounded_nonneg; nia|apply rounded_mono; nia].
Qed.

Lemma usage_value_mono a b :
  0 <= a <= b -> 0 <= usage_value a <= usage_value b.
Proof.
  intros H. pose proof ulp_inv_pos as HU. unfold usage_value.
  pose proof (ratio_value_mono a b H) as Hk.
  set (ka := ratio_value a) in *. set (kb := ratio_value b) in *.
  clearbody ka kb.
  set (U := ulp_inv) in *. clearbody U.
  assert (0 < U * U) by nia.
  assert (0 <= ka * (100 * U) * U) by nia.
  assert (0 <= kb * (100 * U) * U) by nia.
  split; [by apply rounded_nonneg|apply rounded_mono; try done].
  apply Z.mul_le_mono_nonneg_r; [lia|].
  apply Z.mul_le_mono_nonneg_r; [lia|].
  apply Z.mul_le_mono_nonneg_r; lia.
Qed.

(** The values at the largest [used_memory] considered stay below the
    overflow threshold. *)
Lemma values_at_top :
  kb_value (2 ^ 64) < 2 ^ 53 * 2 ^ 2045 /\
  mb_value (2 ^ 64) < 2 ^ 53 * 2 ^ 2045 /\
  ratio_value (2 ^ 64) < 2 ^ 53 * 2 ^ 2045 /\
  usage_value (2 ^ 64) < 2 ^ 53 * 2 ^ 2045.
Proof. split_and!; apply Z.ltb_lt; vm_compute; reflexivity. Qed.

(** The values on both sides of the high-water mark. *)
Lemma usage_value_at_mark :
  usage_value high_water_bytes = 85 * ulp_inv /\
  usage_value (high_water_bytes - 1) < 85 * ulp_inv.
Proof.
  split; [apply Z.eqb_eq|apply Z.ltb_lt]; vm_compute; reflexivity.
Qed.

Lemma usage_float_value mem :
  0 <= mem <= 2 ^ 64 ->
  is_finite (int_truediv mem 1024) = true /\
  is_finite (usage_float mem) = true /\
  sval (usage_float mem) = usage_value mem.
Proof.
  intros Hmem.
  destruct values_at_top as (Ht1 & Ht2 & Ht3 & Ht4).
  pose proof (kb_value_mono mem (2 ^ 64) Hmem) as Hm1.
  pose proof (mb_value_mono mem (2 ^ 64) Hmem) as Hm2.
  pose proof (ratio_value_mono mem (2 ^ 64) Hmem) as Hm3.
  pose proof (usage_value_mono mem (2 ^ 64) Hmem) as Hm4.
  destruct of_int_1024 as (Hc1 & Hc2 & Hc3).
  destruct of_int_budget as (Hb1 & Hb2 & Hb3).
  destruct of_int_100 as (Hh1 & Hh2 & Hh3).
  pose proof ulp_inv_pos as HU.
  assert (H1 : is_finite (int_truediv mem 1024) = true /\
               sign_of (int_truediv mem 1024) = false /\
               sval (int_truediv mem 1024) = kb_value mem).
  { unfold int_truediv.
    rewrite (proj2 (Z.ltb_ge mem 0)) by lia. cbn [Z.ltb Z.compare xorb].
    rewrite (Z.abs_eq mem) by lia. change (Z.abs 1024) with 1024.
    destruct (round_to_binary64_sval false mem 1024) as (Ha & Hb & Hc);
      [lia|lia|fold (kb_value mem); lia|].
    split_and!; [done|done|]. rewrite Hc. fold (kb_value mem). lia. }
  destruct H1 as (Hf1 & Hs1 & Hv1).
  set (f1 := int_truediv mem 1024) in *.
  destruct (div_sval f1 (of_int 1024) Hf1 Hs1 Hc2) as (Hf2 & Hs2 & Hv2);
    [rewrite Hc3; lia|rewrite Hv1, Hc3; fold (mb_value mem); lia|].
  rewrite Hv1, Hc3 in Hv2. fold (mb_value mem) in Hv2.
  set (f2 := div f1 (of_int 1024)) in *.
  destruct (div_sval f2 (of_int CONFIG.MAX_MEMORY_MB) Hf2 Hs2 Hb2)
    as (Hf3 & Hs3 & Hv3);
    [rewrite Hb3; unfold CONFIG.MAX_MEMORY_MB; lia
    |rewrite Hv2, Hb3; fold (ratio_value mem); lia|].
  rewrite Hv2, Hb3 in Hv3. fold (ratio_value mem) in Hv3.
  set (f3 := div f2 (of_int CONFIG.MAX_MEMORY_MB)) in *.
  destruct (mul_sval f3 (of_int 100) Hf3 Hs3 Hh2) as (Hf4 & Hs4 & Hv4);
    [rewrite Hh3; lia|rewrite Hv3, Hh3; fold (usage_value mem); lia|].
  rewrite Hv3, Hh3 in Hv4. fold (usage_value mem) in Hv4.
  split_and!; [exact Hf1|exact Hf4|exact Hv4].
Qed.

(** The comparison with 85 holds from the high-water mark on, and only
    from there. *)
Lemma usage_float_trigger mem :
  0 <= mem <= 2 ^ 64 ->
  ge_int (usage_float mem) 85 = true <-> 85 * budget_bytes <= 100 * mem.
Proof.
  intros Hmem.
  destruct (usage_float_value mem Hmem) as (_ & Hfin & Hval).
  destruct usage_value_at_mark as [Hat Hbelow].
  assert (Hge : ge_int (usage_float mem) 85 = (85 * ulp_inv <=? usage_value mem)).
  { rewrite <- Hval. clear Hval. revert Hfin.
    destruct (usage_float mem) as [s|s| |s m e]; intros Hfin;
      try discriminate Hfin; cbn [ge_int]; reflexivity. }
  rewrite Hge, Z.leb_le.
  assert (Hmark : 85 * budget_bytes <= 100 * mem <-> high_water_bytes <= mem).
  { unfold budget_bytes, high_water_bytes, CONFIG.MAX_MEMORY_MB. lia. }
  rewrite Hmark. split.
  - intros H. destruct (Z_le_gt_dec high_water_bytes mem) as [|Hlt]; [done|].
    exfalso.
    pose proof (usage_value_mono mem (high_water_bytes - 1) ltac:(lia)) as Hm.
    lia.
  - intros H.
    pose proof (usage_value_mono high_water_bytes mem
                  ltac:(unfold high_water_bytes in *; lia)) as Hm.
    lia.
Qed.

Lemma check_memory_usage_run w c :
  redis_client w = Some c ->
  0 <= Redis.used_memory (store w) <= 2 ^ 64 ->
  check_memory_usage w =
  (when (ge_int (usage_float (Redis.used_memory (store w))) 85)
        clean_temp_data ;;
   ret (usage_float (Redis.used_memory (store w))))%prog
    (World (Some (Client true)) (EXIT_FLAG w) (store w)).
Proof.
  intros Hc Hmem.
  destruct (usage_float_value _ Hmem) as (Hkb & _ & _).
  unfold check_memory_usage, bind at 1, gets at 1. rewrite Hc.
  unfold bind at 1, call, Redis.info_used_memory, gets. rewrite Hc.
  unfold bind at 1, py_int_truediv.
  unfold usage_float. revert Hkb.
  destruct (int_truediv (Redis.used_memory (store w)) 1024) as [s|s| |s m e];
    intros Hkb; try discriminate Hkb; reflexivity.
Qed.

(** C5: with a client and a reported [used_memory] of at most 2^64 bytes,
    [check_memory_usage] runs [clean_temp_data] before it returns when the
    usage is at least 85 % of the budget, and below 85 % it returns the
    usage and leaves the store untouched (only the connection is opened). *)
Theorem check_memory_usage_high_water w c :
  redis_client w = Some c ->
  0 <= Redis.used_memory (store w) <= 2 ^ 64 ->
  let mem := Redis.used_memory (store w) in
  let w1 := World (Some (Client true)) (EXIT_FLAG w) (store w) in
  (85 * budget_bytes <= 100 * mem ->
     snd (check_memory_usage w) = snd (clean_temp_data w1) /\
     (fst (clean_temp_data w1) = Val tt ->
      fst (check_memory_usage w) = Val (usage_float mem))) /\
  (100 * mem < 85 * budget_bytes ->
     check_memory_usage w = (Val (usage_float mem), w1)).
Proof.
  intros Hc Hmem mem w1.
  rewrite (check_memory_usage_run w c Hc Hmem). fold mem. fold w1.
  pose proof (usage_float_trigger mem Hmem) as Htrig.
  split.
  - intros Hhigh. apply Htrig in Hhigh. rewrite Hhigh. cbn [when].
    unfold bind, ret. destruct (clean_temp_data w1) as [[u|e] w2]; cbn [fst snd].
    + done.
    + split; [done|discriminate].
  - intros Hlow.
    destruct (ge_int (usage_float mem) 85); [|reflexivity].
    pose proof (proj1 Htrig eq_refl). lia.
Qed.

Lemma check_memory_usage_high_water_witness :
  let w1 := World (Some (Client true)) false Samples.s_mixed in
  (redis_client Samples.w_mixed = Some (Client true) /\
   0 <= Redis.used_memory (store Samples.w_mixed) <= 2 ^ 64 /\
   85 * budget_bytes <= 100 * Redis.used_memory (store Samples.w_mixed)) /\
  snd (check_memory_usage Samples.w_mixed) = snd (clean_temp_data w1) /\
  (redis_client Samples.w_low = Some (Client true) /\
   0 <= Redis.used_memory (store Samples.w_low) <= 2 ^ 64 /\
   100 * Redis.used_memory (store Samples.w_low) < 85 * budget_bytes) /\
  check_memory_usage Samples.w_low
    = (Val (usage_float (Redis.used_memory (store Samples.w_low))),
       World (Some (Client true)) false (store Samples.w_low)).
Proof.
  cbn zeta.
  assert (Hc : redis_client Samples.w_mixed = Some (Client true))
    by reflexivity.
  assert (Hm : 0 <= Redis.used_memory (store Samples.w_mixed) <= 2 ^ 64)
    by (split; apply Z.leb_le; vm_compute; reflexivity).
  assert (Hh : 85 * budget_bytes
               <= 100 * Redis.used_memory (store Samples.w_mixed))
    by (apply Z.leb_le; vm_compute; reflexivity).
  assert (Hc' : redis_client Samples.w_low = Some (Client true))
    by reflexivity.
  assert (Hm' : 0 <= Redis.used_memory (store Samples.w_low) <= 2 ^ 64)
    by (split; apply Z.leb_le; vm_compute; reflexivity).
  assert (Hl : 100 * Redis.used_memory (store Samples.w_low)
               < 85 * budget_bytes)
    by (apply Z.ltb_lt; vm_compute; reflexivity).
  split; [exact (conj Hc (conj Hm Hh))|].
  split.
  { exact (proj1 (proj1 (check_memory_usage_high_water _ _ Hc Hm) Hh)). }
  split; [exact (conj Hc' (conj Hm' Hl))|].
  exact (proj2 (check_memory_usage_high_water _ _ Hc' Hm') Hl).
Defined.

End Usage.

(** ** Worked examples *)

Section Examples.

Import Text Float WaveFuncHashHandler Samples.

(** The arithmetic of this file agrees with the Standard Library's
    specification of binary64 on the operations of [check_memory_usage]. *)
Example arithmetic_agrees :
  div (of_int 1) (of_int 10) = SFdiv 53 1024 (of_int 1) (of_int 10) /\
  div (div (int_truediv 12345678901 1024) (of_int 1024)) (of_int 8000)
  = SFdiv 53 1024
      (SFdiv 53 1024 (int_truediv 12345678901 1024) (of_int 1024))
      (of_int 8000) /\
  mul (int_truediv 6800 8000) (of_int 100)
  = SFmul 53 1024 (int_truediv 6800 8000) (of_int 100) /\
  usage_float high_water_bytes = of_int 85.
Proof. split_and!; vm_compute; reflexivity. Qed.

Example formats :
  format_f 10 third = "0.3333333333"%string /\
  format_f 4 t_a = "0.0100"%string /\
  format_f 4 (round_to_binary64 true 1 100000) = "-0.0000"%string /\
  format_f 2 (round_to_binary64 true 1 8) = "-0.12"%string /\
  format_f 2 (round_to_binary64 false 3 8) = "0.38"%string /\
  format_f 10 (S754_infinity true) = "-inf"%string /\
  str_int (-120) = "-120"%string /\
  str_int 0 = "0"%string.
Proof. split_and!; vm_compute; reflexivity. Qed.

Example field_and_sample :
  gen_field 2 2 2 t_a false = "formal_x2_y2_z2_t0.0100"%string /\
  gen_field 0 63 7 t_a true = "temp_x0_y63_z7_t0.0100"%string /\
  c2b c0 = "0.3333333333,-2.0000000000"%string /\
  parse_float "0.3333333333" = Some (S754_finite false 6004799502560181 (-54)).
Proof. split_and!; vm_compute; reflexivity. Qed.

End Examples.

(* ===================================================================== *)
(** * Part III: further properties of the code                           *)
(* ===================================================================== *)

(** ** Rounding: uniqueness, canonical floats *)

Section Canonical.

Import Float Text.

Lemma rhe_unique p q n :
  0 <= p -> 0 < q ->
  2 * Z.abs (n * q - p) <= q ->
  (2 * Z.abs (n * q - p) = q -> Z.even n = true) ->
  round_half_even p q = n.
Proof.
  intros Hp Hq Hnear Htie. unfold round_half_even.
  pose proof (Z.div_mod p q ltac:(lia)) as Hdm.
  pose proof (Z.mod_pos_bound p q Hq) as Hr.
  set (d := p / q) in *. set (r := p mod q) in *.
  assert (Hn : n = d \/ n = d + 1) by nia.
  destruct Hn as [->| ->].
  - destruct (Z.compare_spec (2 * r) q) as [He|Hl|Hg]; [|done|nia].
    rewrite Htie; [done|nia].
  - destruct (Z.compare_spec (2 * r) q) as [He|Hl|Hg]; [|nia|done].
    specialize (Htie ltac:(nia)).
    replace (d + 1) with (Z.succ d) in Htie by lia.
    rewrite Z.even_succ, <- Z.negb_even in Htie.
    by destruct (Z.even d).
Qed.

Lemma rhe_tie_even p q :
  0 <= p -> 0 < q ->
  2 * Z.abs (round_half_even p q * q - p) = q ->
  Z.even (round_half_even p q) = true.
Proof.
  intros Hp Hq. unfold round_half_even.
  pose proof (Z.div_mod p q ltac:(lia)) as Hdm.
  pose proof (Z.mod_pos_bound p q Hq) as Hr.
  set (d := p / q) in *. set (r := p mod q) in *.
  destruct (Z.compare_spec (2 * r) q) as [He|Hl|Hg]; [|nia|nia].
  intros _. destruct (Z.even d) eqn:Hd; [done|].
  replace (d + 1) with (Z.succ d) by lia.
  by rewrite Z.even_succ, <- Z.negb_even, Hd.
Qed.

Lemma digits2_pos_log2 m : Z.pos (digits2_pos m) = Z.log2 (Z.pos m) + 1.
Proof.
  assert (Hsize : forall p, digits2_pos p = Pos.size p).
  { induction p as [p IH|p IH|]; cbn [digits2_pos Pos.size]; congruence. }
  destruct m as [m|m|]; cbn [digits2_pos Z.log2]; [| |done];
    rewrite Hsize; lia.
Qed.

(** The canonical representations: the mantissa fills 53 bits unless the
    exponent is the least one. *)
Lemma valid_iff s m e :
  valid (S754_finite s m e) = true <->
  Z.pos m < 2 ^ 53 /\ e_min <= e <= e_top /\ (e_min < e -> 2 ^ 52 <= Z.pos m).
Proof.
  unfold valid, valid_binary, bounded, canonical_mantissa, fexp, emin.
  unfold prec, emax, e_min, e_top.
  rewrite andb_true_iff, Z.leb_le, Z.eqb_eq, digits2_pos_log2.
  destruct (Z.log2_spec (Z.pos m) ltac:(lia)) as [Hl1 Hl2].
  pose proof (Z.log2_nonneg (Z.pos m)) as Hl0.
  set (l := Z.log2 (Z.pos m)) in *. clearbody l.
  split.
  - intros [Hc He].
    assert (Hl : l <= 52) by lia.
    assert (2 ^ Z.succ l <= 2 ^ 53) by (apply Z.pow_le_mono_r; lia).
    split; [lia|]. split; [lia|]. intros Hgt.
    assert (l = 52) by lia. subst l. lia.
  - intros (Hm & He & Hn).
    assert (Hl : l <= 52).
    { destruct (Z_le_gt_dec l 52) as [|Hbig]; [done|].
      assert (2 ^ 53 <= 2 ^ l) by (apply Z.pow_le_mono_r; lia). lia. }
    split; [|lia].
    destruct (Z.eq_dec e (-1074)) as [->|Hne]; [lia|].
    specialize (Hn ltac:(lia)).
    assert (52 <= l).
    { destruct (Z_le_gt_dec 52 l) as [|Hsmall]; [done|].
      assert (2 ^ Z.succ l <= 2 ^ 52) by (apply Z.pow_le_mono_r; lia). lia. }
    lia.
Qed.

Lemma mk_float_valid s m sh :
  0 <= m <= 2 ^ 53 -> 0 <= sh -> (0 < sh -> 2 ^ 52 <= m) ->
  valid (mk_float s m sh) = true.
Proof.
  intros Hm Hsh Hnorm. unfold mk_float.
  destruct (Z.eqb_spec m 0) as [->|Hm0]; [done|].
  assert (Hgen : forall m' sh', 0 < m' < 2 ^ 53 -> 0 <= sh' ->
            (0 < sh' -> 2 ^ 52 <= m') ->
            valid (if e_top - e_min <? sh' then S754_infinity s
                   else S754_finite s (Z.to_pos m') (sh' + e_min)) = true).
  { intros m' sh' Hm' Hsh' Hn'. change (e_top - e_min) with 2045.
    destruct (Z.ltb_spec 2045 sh') as [Hgt|Hle]; [done|].
    apply valid_iff. rewrite Z2Pos.id by lia.
    unfold e_min, e_top. split; [lia|]. split; [lia|].
    intros H. apply Hn'. lia. }
  destruct (Z.eqb_spec m (2 ^ 53)) as [->|Hm53].
  - apply Hgen; [|lia|intros _; lia]. split; [|apply Z.pow_lt_mono_r]; lia.
  - apply Hgen; [lia|done|done].
Qed.

(** Every float that rounding produces is a canonical binary64. *)
Lemma round_to_binary64_valid s p q :
  0 <= p -> 0 < q -> valid (round_to_binary64 s p q) = true.
Proof.
  intros Hp Hq. unfold round_to_binary64, nearest_scaled.
  pose proof ulp_inv_pos as HU.
  assert (HP : 0 <= p * ulp_inv) by nia.
  pose proof (mantissa_bounds _ _ HP Hq) as [Hm Hnorm].
  pose proof (shift_spec _ _ HP Hq) as (Hsh & _). cbn zeta in *.
  by apply mk_float_valid.
Qed.

(** A canonical finite float is determined by its sign and its value. *)
Lemma valid_sval_inj f g :
  valid f = true -> valid g = true ->
  is_finite f = true -> is_finite g = true ->
  sign_of f = sign_of g -> sval f = sval g -> f = g.
Proof.
  assert (Hpos : forall s m e, valid (S754_finite s m e) = true ->
            0 < Z.pos m * 2 ^ (e - e_min)).
  { intros s m e Hv. apply valid_iff in Hv as (_ & He & _).
    apply Z.mul_pos_pos; [lia|apply Z.pow_pos_nonneg; lia]. }
  assert (Hle : forall s m1 e1 m2 e2,
            valid (S754_finite s m1 e1) = true ->
            valid (S754_finite s m2 e2) = true ->
            Z.pos m1 * 2 ^ (e1 - e_min) = Z.pos m2 * 2 ^ (e2 - e_min) ->
            e1 <= e2 -> S754_finite s m1 e1 = S754_finite s m2 e2).
  { intros s m1 e1 m2 e2 H1 H2 Heq Hle.
    apply valid_iff in H1 as (Hm1 & He1 & _).
    apply valid_iff in H2 as (Hm2 & He2 & Hn2).
    destruct (Z.eq_dec e1 e2) as [->|Hne].
    - assert (0 < 2 ^ (e2 - e_min)) by (apply Z.pow_pos_nonneg; lia).
      assert (Z.pos m1 = Z.pos m2) by nia. congruence.
    - exfalso. specialize (Hn2 ltac:(lia)).
      replace (e2 - e_min) with ((e2 - e1) + (e1 - e_min)) in Heq by lia.
      rewrite Z.pow_add_r in Heq by lia.
      assert (0 < 2 ^ (e1 - e_min)) by (apply Z.pow_pos_nonneg; lia).
      assert (2 ^ 1 <= 2 ^ (e2 - e1)) by (apply Z.pow_le_mono_r; lia).
      set (A := 2 ^ (e1 - e_min)) in *. set (B := 2 ^ (e2 - e1)) in *.
      clearbody A B.
      assert (Z.pos m1 = Z.pos m2 * B) by nia.
      change (2 ^ 1) with 2 in *. change (2 ^ 53) with (2 * 2 ^ 52) in *.
      set (C := 2 ^ 52) in *. clearbody C. nia. }
  intros Hvf Hvg Hff Hfg Hs Hv.
  destruct f as [s|s| |s m e]; try discriminate;
    destruct g as [s'|s'| |s' m' e']; try discriminate;
    cbn [sign_of] in Hs; subst s'; [done| | |].
  - exfalso. pose proof (Hpos _ _ _ Hvg) as H. cbn [sval] in Hv.
    destruct s; lia.
  - exfalso. pose proof (Hpos _ _ _ Hvf) as H. cbn [sval] in Hv.
    destruct s; lia.
  - cbn [sval] in Hv.
    assert (Heq : Z.pos m * 2 ^ (e - e_min) = Z.pos m' * 2 ^ (e' - e_min))
      by (destruct s; lia).
    destruct (Z_le_gt_dec e e') as [H|H].
    + by apply Hle.
    + symmetry. apply Hle; [done|done|lia|lia].
Qed.

(** The float read back from the [k]-decimal text of a finite float: its
    sign, its magnitude, and how near the magnitude is to the decimal. *)
Lemma reread_value k f :
  valid f = true -> is_finite f = true ->
  let v := Z.abs (sval f) in
  let w := 10 ^ Z.of_nat k in
  let n := round_half_even (v * w) ulp_inv in
  let f' := float_of_decimal (quantize k f) in
  is_finite f' = true /\ sign_of f' = sign_of f /\
  Z.abs (sval f') = rounded (n * ulp_inv) w /\
  Z.abs (rounded (n * ulp_inv) w * w - n * ulp_inv)
    <= Z.abs (v * w - n * ulp_inv).
Proof.
  intros Hvalid Hfin. cbn zeta.
  rewrite (quantize_finite k f Hfin). cbn [float_of_decimal].
  pose proof ulp_inv_pos as HU. pose proof ulp_inv_small as HUs.
  pose proof (valid_representable f Hvalid) as Hrep.
  destruct (representable_bound _ Hrep) as [Hv0 Hvmax].
  set (v := Z.abs (sval f)) in *.
  set (w := 10 ^ Z.of_nat k).
  assert (Hw : 0 < w) by (apply Z.pow_pos_nonneg; lia).
  set (n := round_half_even (v * w) ulp_inv).
  assert (Hvw : 0 <= v * w) by (apply Z.mul_nonneg_nonneg; lia).
  assert (Hn : 0 <= n) by (by apply rhe_nonneg).
  pose proof (rhe_half (v * w) ulp_inv Hvw HU) as Hfmt. fold n in Hfmt.
  assert (HnU : 0 <= n * ulp_inv) by (apply Z.mul_nonneg_nonneg; lia).
  pose proof (rounded_nearest (n * ulp_inv) w v HnU Hw Hrep) as Hnear.
  pose proof (rounded_nonneg (n * ulp_inv) w HnU Hw) as HM0.
  set (M := rounded (n * ulp_inv) w) in *.
  assert (HMlt : M < 2 ^ 53 * 2 ^ 2045).
  { clearbody M n v w. set (U := ulp_inv) in *. clearbody U.
    set (K := 2 ^ 2045) in *. clearbody K.
    assert (Z.abs (M * w - v * w) <= U) by lia.
    assert (Z.abs (M - v) <= U) by nia. lia. }
  destruct (round_to_binary64_sval (sign_of f) n w Hn Hw HMlt)
    as (Hf & Hs & Hval).
  split_and!; [exact Hf|exact Hs| |exact Hnear].
  rewrite Hval. fold M. clearbody M. destruct (sign_of f); lia.
Qed.

(** Printing what was read back gives the text that was read. *)
Lemma quantize_reread k f :
  valid f = true ->
  quantize k (float_of_decimal (quantize k f)) = quantize k f.
Proof.
  intros Hvalid.
  destruct (is_finite f) eqn:Hfin; [|by destruct f].
  destruct (reread_value k f Hvalid Hfin) as (Hf & Hs & Hval & Hnear).
  cbn zeta in *.
  set (f' := float_of_decimal (quantize k f)) in *.
  rewrite (quantize_finite k f' Hf), Hs, Hval, (quantize_finite k f Hfin).
  f_equal.
  pose proof ulp_inv_pos as HU.
  pose proof (valid_representable f Hvalid) as Hrep.
  destruct (representable_bound _ Hrep) as [Hv0 _].
  set (v := Z.abs (sval f)) in *.
  set (w := 10 ^ Z.of_nat k) in *.
  assert (Hw : 0 < w) by (apply Z.pow_pos_nonneg; lia).
  assert (Hvw : 0 <= v * w) by (apply Z.mul_nonneg_nonneg; lia).
  pose proof (rhe_half (v * w) ulp_inv Hvw HU) as Hfmt.
  pose proof (rhe_tie_even (v * w) ulp_inv Hvw HU) as Heven.
  pose proof (rhe_nonneg (v * w) ulp_inv Hvw HU) as Hn.
  set (n := round_half_even (v * w) ulp_inv) in *.
  assert (HnU : 0 <= n * ulp_inv) by (apply Z.mul_nonneg_nonneg; lia).
  pose proof (rounded_nonneg (n * ulp_inv) w HnU Hw) as HM0.
  set (M := rounded (n * ulp_inv) w) in *.
  assert (HMw : 0 <= M * w) by (apply Z.mul_nonneg_nonneg; lia).
  clearbody M n v w. set (U := ulp_inv) in *. clearbody U.
  apply rhe_unique; [exact HMw|exact HU|lia|].
  intros Htie. apply Heven. lia.
Qed.

(** What is read back is a canonical float. *)
Lemma float_of_decimal_valid d :
  wf_decimal d -> valid (float_of_decimal d) = true.
Proof.
  destruct d as [|s|s n k]; [done|by destruct s|].
  cbn [wf_decimal float_of_decimal]. intros Hn.
  apply round_to_binary64_valid; [done|]. apply Z.pow_pos_nonneg; lia.
Qed.

(** A float with at most [k] decimals is read back from its [k]-decimal
    text as it was. *)
Lemma reread_exact k f :
  valid f = true -> is_finite f = true -> has_decimals k f ->
  float_of_decimal (quantize k f) = f.
Proof.
  intros Hvalid Hfin Hdec.
  destruct (reread_value k f Hvalid Hfin) as (Hf & Hs & Hval & _).
  cbn zeta in *.
  pose proof (float_of_decimal_valid _ (quantize_wf k f)) as Hv'.
  apply valid_sval_inj; try done.
  pose proof ulp_inv_pos as HU.
  pose proof (valid_representable f Hvalid) as Hrep.
  destruct (representable_bound _ Hrep) as [Hv0 _].
  unfold has_decimals in Hdec.
  apply Z.div_exact in Hdec; [|lia].
  set (v := Z.abs (sval f)) in *.
  set (w := 10 ^ Z.of_nat k) in *.
  assert (Hw : 0 < w) by (apply Z.pow_pos_nonneg; lia).
  assert (Hj : 0 <= v * w / ulp_inv).
  { apply Z.div_pos; [|done]. apply Z.mul_nonneg_nonneg; lia. }
  set (j := v * w / ulp_inv) in *.
  assert (Hn : round_half_even (v * w) ulp_inv = j).
  { rewrite Hdec, (Z.mul_comm ulp_inv j). by apply rhe_exact. }
  rewrite Hn in Hval.
  replace (j * ulp_inv) with (v * w) in Hval by lia.
  rewrite (rounded_exact w v Hw Hrep) in Hval.
  rewrite (abs_sval_sign (float_of_decimal (quantize k f))), Hs, Hval.
  symmetry. apply abs_sval_sign.
Qed.

End Canonical.

(** ** The sample codec: fixed points, exact samples, malformed texts *)

Section CodecTexts.

Import Float Text WaveFuncHashHandler.
Local Open Scope string_scope.

Lemma requantized_special f : is_special f = true -> requantized f = f.
Proof.
  destruct f as [s|s| |s m e]; try discriminate; intros _; [|done|done].
  destruct s; vm_compute; reflexivity.
Qed.

Lemma format_requantized f :
  valid f = true -> format_f 10 (requantized f) = format_f 10 f.
Proof.
  intros Hv. unfold format_f, requantized. by rewrite quantize_reread.
Qed.

Lemma requantized_idem f :
  valid f = true -> requantized (requantized f) = requantized f.
Proof.
  intros Hv. unfold requantized at 1 3.
  unfold requantized. by rewrite quantize_reread.
Qed.

Lemma count_char_app c a b :
  count_char c (a ++ b) = (count_char c a + count_char c b)%nat.
Proof.
  induction a as [|d a IH]; [done|].
  rewrite append_String. cbn [count_char]. rewrite IH. lia.
Qed.

Lemma count_char_none c a :
  all_chars (fun d => negb (Ascii.eqb d c)) a = true -> count_char c a = 0%nat.
Proof.
  induction a as [|d a IH]; [done|]. cbn [all_chars count_char].
  intros [Hd Ha]%andb_true_iff. rewrite (IH Ha).
  by destruct (Ascii.eqb d c).
Qed.

Lemma length_split_on sep s :
  length (split_on sep s) = S (count_char sep s).
Proof.
  induction s as [|c s IH]; [done|]. cbn [split_on count_char].
  destruct (Ascii.eqb c sep).
  - cbn [length]. by rewrite IH.
  - destruct (split_on sep s) as [|p ps]; [discriminate IH|].
    cbn [length] in *. lia.
Qed.

(** X1: a sample read from its text is a fixed point of the codec: it is
    written as the text it was read from, and read back as itself. *)
Theorem b2c_c2b_fixed_point {S} (c : complex) (s : S) :
  valid (real c) = true -> valid (imag c) = true ->
  exists c',
    b2c (c2b c) s = (Val c', s) /\
    c2b c' = c2b c /\
    b2c (c2b c') s = (Val c', s).
Proof.
  intros Hr Hi. exists (stored_sample c). split; [apply b2c_c2b|].
  split.
  - unfold c2b, stored_sample. cbn [real imag].
    by rewrite !format_requantized.
  - rewrite b2c_c2b. unfold stored_sample. cbn [real imag].
    by rewrite !requantized_idem.
Qed.

Lemma b2c_c2b_fixed_point_witness :
  (valid (real Samples.c0) = true /\ valid (imag Samples.c0) = true) /\
  exists c',
    b2c (c2b Samples.c0) tt = (Val c', tt) /\
    c2b c' = c2b Samples.c0 /\
    b2c (c2b c') tt = (Val c', tt).
Proof.
  assert (Hr : valid (real Samples.c0) = true) by (vm_compute; reflexivity).
  assert (Hi : valid (imag Samples.c0) = true) by (vm_compute; reflexivity).
  split; [exact (conj Hr Hi)|].
  exact (b2c_c2b_fixed_point Samples.c0 tt Hr Hi).
Defined.

(** X2: decoding an encoded sample never fails, whatever the sample, and
    a part that is a zero, an infinity or NaN comes back as it was, its
    sign included. *)
Theorem b2c_c2b_special {S} (c : complex) (s : S) :
  exists c',
    b2c (c2b c) s = (Val c', s) /\
    (is_special (real c) = true -> real c' = real c) /\
    (is_special (imag c) = true -> imag c' = imag c).
Proof.
  exists (stored_sample c). split; [apply b2c_c2b|].
  unfold stored_sample. cbn [real imag].
  split; apply requantized_special.
Qed.

(** X3: a sample whose parts have at most ten decimals is read back
    exactly. *)
Theorem b2c_c2b_exact {S} (c : complex) (s : S) :
  valid (real c) = true -> is_finite (real c) = true ->
  has_decimals 10 (real c) ->
  valid (imag c) = true -> is_finite (imag c) = true ->
  has_decimals 10 (imag c) ->
  b2c (c2b c) s = (Val c, s).
Proof.
  intros Hvr Hfr Hdr Hvi Hfi Hdi. rewrite b2c_c2b.
  destruct c as [re im]. unfold stored_sample, requantized. cbn [real imag] in *.
  by rewrite !reread_exact.
Qed.

Lemma b2c_c2b_exact_witness :
  let c := Complex (int_truediv (-3) 1024) (of_int 7) in
  (valid (real c) = true /\ is_finite (real c) = true /\
   has_decimals 10 (real c) /\
   valid (imag c) = true /\ is_finite (imag c) = true /\
   has_decimals 10 (imag c)) /\
  b2c (c2b c) tt = (Val c, tt).
Proof.
  intros c.
  assert (Hvr : valid (real c) = true) by (vm_compute; reflexivity).
  assert (Hfr : is_finite (real c) = true) by (vm_compute; reflexivity).
  assert (Hdr : has_decimals 10 (real c)) by (vm_compute; reflexivity).
  assert (Hvi : valid (imag c) = true) by (vm_compute; reflexivity).
  assert (Hfi : is_finite (imag c) = true) by (vm_compute; reflexivity).
  assert (Hdi : has_decimals 10 (imag c)) by (vm_compute; reflexivity).
  split; [exact (conj Hvr (conj Hfr (conj Hdr (conj Hvi (conj Hfi Hdi)))))|].
  exact (b2c_c2b_exact c tt Hvr Hfr Hdr Hvi Hfi Hdi).
Defined.

(** X4: the text of a sample is never empty, holds exactly one comma, and
    is made of the characters of two numbers and that comma. *)
Theorem c2b_text (c : complex) :
  c2b c <> "" /\
  count_char "," (c2b c) = 1%nat /\
  all_chars (fun ch => num_char ch || Ascii.eqb ch ",") (c2b c) = true.
Proof.
  split; [apply c2b_nonempty|].
  pose proof (format_f_no "," 10 (real c) comma_not_num) as Hr.
  pose proof (format_f_no "," 10 (imag c) comma_not_num) as Hi.
  pose proof (show_decimal_chars (quantize 10 (real c))) as Hcr.
  pose proof (show_decimal_chars (quantize 10 (imag c))) as Hci.
  unfold c2b. fold (format_f 10 (real c)) in Hcr. fold (format_f 10 (imag c)) in Hci.
  split.
  - rewrite !count_char_app, (count_char_none _ _ Hr), (count_char_none _ _ Hi).
    reflexivity.
  - rewrite !all_chars_app. rewrite !andb_true_iff. split_and!.
    + eapply all_chars_impl; [|exact Hcr]. intros ch ->. done.
    + reflexivity.
    + eapply all_chars_impl; [|exact Hci]. intros ch ->. done.
Qed.

(** X5: [b2c] raises [ValueError] on every text that does not hold
    exactly one comma: the unpacking of the pieces fails before any piece
    is read as a number. *)
Theorem b2c_comma_count {S} (b : string) (s : S) :
  count_char "," b <> 1%nat -> b2c b s = (Raise ValueError, s).
Proof.
  intros Hn. unfold b2c.
  pose proof (length_split_on "," b) as Hlen.
  destruct (split_on "," b) as [|r [|i [|j l]]]; try reflexivity.
  cbn [length] in Hlen. lia.
Qed.

Lemma b2c_comma_count_witness :
  (count_char "," "1.5,2.5,3.5" <> 1%nat /\
   b2c "1.5,2.5,3.5" tt = (Raise ValueError, tt)) /\
  (count_char "," "1.5" <> 1%nat /\
   b2c "1.5" tt = (Raise ValueError, tt)).
Proof.
  assert (H3 : count_char "," "1.5,2.5,3.5" <> 1%nat) by (vm_compute; lia).
  assert (H0 : count_char "," "1.5" <> 1%nat) by (vm_compute; lia).
  split.
  - split; [exact H3|exact (b2c_comma_count "1.5,2.5,3.5" tt H3)].
  - split; [exact H0|exact (b2c_comma_count "1.5" tt H0)].
Defined.

End CodecTexts.

(** ** Batches: what is written, what is left alone *)

Section BatchFrame.

Import Text Float Redis WaveFuncHashHandler.

(** The state that a batch leaves when it goes through. *)
Lemma batch_save_state psi t temp s r s' :
  batch_save psi t temp s = (Val r, s') ->
  root_wrong_type s = false /\ batch_data psi t temp ≠ ∅ /\
  s' = set_keyspace
         (<[root := Entry (VHash (batch_data psi t temp ∪ root_hash s))
                      (if temp
                       then Some (now s + CONFIG.TEMP_DATA_TTL * 1000)
                       else root_expiry s)]> (keyspace s)) s.
Proof.
  intros Hrun.
  destruct (batch_save_cases psi t temp s) as [[e He]|[Hty Hdata]];
    [congruence|].
  rewrite (batch_save_run _ _ _ _ Hty Hdata) in Hrun.
  injection Hrun as _ <-. done.
Qed.

(** Every entry of the dictionary comes from a point of the grid. *)
Lemma batch_data_dom psi t temp f v :
  batch_data psi t temp !! f = Some v ->
  exists x y z,
    in_bounds psi x y z /\
    f = gen_field (Z.of_nat x) (Z.of_nat y) (Z.of_nat z) t temp /\
    v = c2b (item psi x y z).
Proof.
  rewrite batch_data_list. intros H.
  apply elem_of_list_to_map_2 in H.
  apply list_elem_of_fmap in H as ([[x y] z] & Heq & Hin).
  cbn [fst snd] in Heq. injection Heq as -> ->.
  apply elem_of_reverse, elem_of_indices in Hin.
  exists x, y, z. done.
Qed.

Lemma batch_data_not_generated psi t temp f :
  (forall x y z, in_bounds psi x y z ->
     f <> gen_field (Z.of_nat x) (Z.of_nat y) (Z.of_nat z) t temp) ->
  batch_data psi t temp !! f = None.
Proof.
  intros Hne. destruct (batch_data psi t temp !! f) as [v|] eqn:Hv; [|done].
  apply batch_data_dom in Hv as (x & y & z & Hin & -> & _).
  by destruct (Hne x y z Hin).
Qed.

Lemma batch_data_namespace psi t temp f :
  temp_field f = negb temp -> batch_data psi t temp !! f = None.
Proof.
  intros Hns. apply batch_data_not_generated. intros x y z _ ->.
  rewrite (proj1 (gen_field_namespace _ _ _ _ _)) in Hns. by destruct temp.
Qed.

Lemma batch_save_root_field psi t temp s r s' f :
  batch_save psi t temp s = (Val r, s') ->
  root_field s' f =
  match batch_data psi t temp !! f with
  | Some v => Some v
  | None => root_field s f
  end.
Proof.
  intros Hrun.
  destruct (batch_save_expiry _ _ _ _ _ _ Hrun) as (_ & _ & Hhash & _).
  unfold root_field. rewrite Hhash, lookup_union.
  destruct (batch_data psi t temp !! f), (root_hash s !! f); done.
Qed.


Lemma get_point_missing s x y z t temp :
  root_wrong_type s = false ->
  root_field s (gen_field x y z t temp) = None ->
  get_point x y z t temp s = (Raise KeyError, s).
Proof.
  intros Hty Hf. unfold get_point, bind. by rewrite hget_root, Hty, Hf.
Qed.



(** X7: a grid with an empty axis is refused: [hmset] raises [DataError]
    for the empty dictionary, and nothing is written, whatever the store
    holds. *)
Theorem batch_save_empty_grid psi t temp s :
  ((shape psi).1.1 * (shape psi).1.2 * (shape psi).2 = 0)%nat ->
  batch_save psi t temp s = (Raise DataError, s).
Proof.
  intros Hsize. rewrite <- (batch_data_size psi t temp) in Hsize.
  apply map_size_empty_iff in Hsize.
  unfold batch_save, bind, hmset. rewrite Hsize.
  by destruct (decide (∅ = ∅)).
Qed.

Lemma batch_save_empty_grid_witness :
  ((shape MoreSamples.psi_flat).1.1 * (shape MoreSamples.psi_flat).1.2
   * (shape MoreSamples.psi_flat).2 = 0)%nat /\
  batch_save MoreSamples.psi_flat Samples.t_a false Samples.s_mixed
    = (Raise DataError, Samples.s_mixed).
Proof.
  assert (H : ((shape MoreSamples.psi_flat).1.1
               * (shape MoreSamples.psi_flat).1.2
               * (shape MoreSamples.psi_flat).2 = 0)%nat) by reflexivity.
  split; [exact H|].
  exact (batch_save_empty_grid MoreSamples.psi_flat Samples.t_a false
           Samples.s_mixed H).
Defined.

(** X8: saving the same batch again at the same clock reading changes
    nothing: the report and the store are those of the first run. *)
Theorem batch_save_twice psi t temp s r s' :
  batch_save psi t temp s = (Val r, s') ->
  batch_save psi t temp s' = (Val r, s').
Proof.
  intros Hrun.
  pose proof (batch_save_hash _ _ _ _ _ _ Hrun) as Hty'.
  pose proof (batch_save_report _ _ _ _ _ _ Hrun) as Hr.
  destruct (batch_save_expiry _ _ _ _ _ _ Hrun) as (Hnow & Hex & Hhash & _).
  destruct (batch_save_state _ _ _ _ _ _ Hrun) as (Hty & Hdata & Hs').
  rewrite (batch_save_run _ _ _ _ Hty' Hdata), Hr. f_equal.
  rewrite Hhash, Hex, Hnow.
  rewrite (assoc_L (∪)), (idemp_L (∪)).
  replace (if temp then Some (now s + CONFIG.TEMP_DATA_TTL * 1000)
           else if temp then Some (now s + CONFIG.TEMP_DATA_TTL * 1000)
                else root_expiry s)
    with (if temp then Some (now s + CONFIG.TEMP_DATA_TTL * 1000)
          else root_expiry s) by (by destruct temp).
  rewrite Hs' at 1 2. cbn [keyspace set_keyspace now used_memory].
  rewrite insert_insert_eq. rewrite Hs'. reflexivity.
Qed.

Lemma batch_save_twice_witness :
  exists r s',
    batch_save Samples.psi8 Samples.t_a true Samples.s_empty = (Val r, s') /\
    batch_save Samples.psi8 Samples.t_a true s' = (Val r, s').
Proof.
  assert (Hin : in_bounds Samples.psi8 0 0 0) by (vm_compute; lia).
  pose proof (batch_save_run Samples.psi8 Samples.t_a true Samples.s_empty
                eq_refl (batch_data_nonempty _ _ _ _ _ _ Hin)) as Hrun.
  do 2 eexists. split; [exact Hrun|].
  exact (batch_save_twice _ _ _ _ _ _ Hrun).
Defined.

(** X9: two time steps that print alike to four decimals share their
    fields: the later batch overwrites the earlier one, and a read at the
    earlier time returns the later sample. *)
Theorem batch_save_overwrites psi psi' t t' temp s x y z :
  root_wrong_type s = false ->
  in_bounds psi x y z -> in_bounds psi' x y z ->
  quantize 4 t = quantize 4 t' ->
  exists r1 s1 r2 s2,
    batch_save psi t temp s = (Val r1, s1) /\
    batch_save psi' t' temp s1 = (Val r2, s2) /\
    get_point (Z.of_nat x) (Z.of_nat y) (Z.of_nat z) t temp s2
      = (Val (stored_sample (item psi' x y z)), s2).
Proof.
  intros Hty Hin Hin' Hq.
  pose proof (batch_data_nonempty psi t temp x y z Hin) as Hd.
  pose proof (batch_data_nonempty psi' t' temp x y z Hin') as Hd'.
  pose proof (batch_save_run _ _ _ _ Hty Hd) as Hrun1.
  pose proof (batch_save_hash _ _ _ _ _ _ Hrun1) as Hty1.
  pose proof (batch_save_run _ _ _ _ Hty1 Hd') as Hrun2.
  pose proof (batch_save_hash _ _ _ _ _ _ Hrun2) as Hty2.
  do 4 eexists. split; [exact Hrun1|]. split; [exact Hrun2|].
  apply get_point_stored; [exact Hty2|].
  assert (Hf : gen_field (Z.of_nat x) (Z.of_nat y) (Z.of_nat z) t temp
             = gen_field (Z.of_nat x) (Z.of_nat y) (Z.of_nat z) t' temp).
  { unfold gen_field. by rewrite (proj2 (format_f_inj 4 t t') Hq). }
  rewrite Hf.
  exact (batch_save_field _ _ _ _ _ _ _ _ _ Hrun2 Hin').
Qed.

Lemma batch_save_overwrites_witness :
  (root_wrong_type Samples.s_empty = false /\
   in_bounds Samples.psi1 0 0 0 /\ in_bounds Samples.psi8 0 0 0 /\
   quantize 4 Samples.t_a = quantize 4 Samples.t_b) /\
  exists r1 s1 r2 s2,
    batch_save Samples.psi1 Samples.t_a false Samples.s_empty = (Val r1, s1) /\
    batch_save Samples.psi8 Samples.t_b false s1 = (Val r2, s2) /\
    get_point 0 0 0 Samples.t_a false s2
      = (Val (stored_sample (item Samples.psi8 0 0 0)), s2).
Proof.
  assert (Hty : root_wrong_type Samples.s_empty = false) by reflexivity.
  assert (H1 : in_bounds Samples.psi1 0 0 0) by (vm_compute; lia).
  assert (H8 : in_bounds Samples.psi8 0 0 0) by (vm_compute; lia).
  assert (Hq : quantize 4 Samples.t_a = quantize 4 Samples.t_b)
    by (vm_compute; reflexivity).
  split; [exact (conj Hty (conj H1 (conj H8 Hq)))|].
  exact (batch_save_overwrites Samples.psi1 Samples.psi8 Samples.t_a
           Samples.t_b false Samples.s_empty 0 0 0 Hty H1 H8 Hq).
Defined.

(** X10: after a batch into a store without root hash, only the points of
    the grid can be read, at the time tag and in the namespace of the
    batch: any other read raises [KeyError], a negative index included. *)
Theorem get_point_outside_batch psi t temp s r s' x y z t' temp' :
  lookup_key s root = None ->
  batch_save psi t temp s = (Val r, s') ->
  temp' <> temp \/ quantize 4 t' <> quantize 4 t \/
  ~ (0 <= x < Z.of_nat (shape psi).1.1 /\
     0 <= y < Z.of_nat (shape psi).1.2 /\
     0 <= z < Z.of_nat (shape psi).2) ->
  get_point x y z t' temp' s' = (Raise KeyError, s').
Proof.
  intros Habs Hrun Hout.
  apply get_point_missing; [exact (batch_save_hash _ _ _ _ _ _ Hrun)|].
  rewrite (batch_save_root_field _ _ _ _ _ _ _ Hrun).
  rewrite (root_field_absent _ _ Habs).
  destruct (batch_data psi t temp !! gen_field x y z t' temp') as [v|] eqn:Hv;
    [|done].
  exfalso.
  apply batch_data_dom in Hv as (a & b & c & (Ha & Hb & Hc) & Heq & _).
  apply gen_field_inv in Heq as (-> & -> & -> & -> & Hq).
  destruct Hout as [H|[H|H]]; [done|done|]. apply H. lia.
Qed.

Lemma get_point_outside_batch_witness :
  lookup_key Samples.s_empty root = None /\
  exists r s',
    batch_save Samples.psi8 Samples.t_a false Samples.s_empty = (Val r, s') /\
    get_point (-1) 0 0 Samples.t_a false s' = (Raise KeyError, s') /\
    get_point 0 0 0 Samples.t_a true s' = (Raise KeyError, s').
Proof.
  assert (Habs : lookup_key Samples.s_empty root = None) by reflexivity.
  assert (Hin : in_bounds Samples.psi8 0 0 0) by (vm_compute; lia).
  pose proof (batch_save_run Samples.psi8 Samples.t_a false Samples.s_empty
                eq_refl (batch_data_nonempty _ _ _ _ _ _ Hin)) as Hrun.
  split; [exact Habs|]. do 2 eexists. split; [exact Hrun|]. split.
  - apply (get_point_outside_batch _ _ _ _ _ _ (-1) 0 0 Samples.t_a false
             Habs Hrun).
    right. right. intros [H _]. lia.
  - apply (get_point_outside_batch _ _ _ _ _ _ 0 0 0 Samples.t_a true
             Habs Hrun).
    left. discriminate.
Defined.

End BatchFrame.

(** ** Time to live: how long a batch can be read *)

Section Lifetime.

Import Text Float Redis WaveFuncHashHandler.

(** As long as the stamp of the root hash is not passed, every field reads
    as before. *)
Lemma root_field_advance s ms f :
  0 <= ms ->
  match root_expiry s with
  | Some T => now s + ms <= T
  | None => True
  end ->
  root_field (advance ms s) f = root_field s f.
Proof.
  intros Hms Hex. unfold root_field, root_hash, root_expiry in *.
  rewrite lookup_key_advance_other. unfold lookup_key in *.
  destruct (keyspace s !! CONFIG.ROOT_HASH_KEY) as [[v ex]|]; [|done].
  unfold expired in *. cbn [e_expire] in *.
  destruct ex as [T|]; [|done].
  destruct (Z.ltb_spec T (now s)) as [Hdead|Hlive].
  - assert (Hdead' : T < now s + ms) by lia.
    by rewrite (proj2 (Z.ltb_lt _ _) Hdead').
  - cbn [e_expire] in Hex.
    assert (Hlive' : now s + ms <= T) by exact Hex.
    by rewrite (proj2 (Z.ltb_ge _ _) Hlive').
Qed.

(** X11: a temporary batch re-arms the stamp of the root hash to the full
    time to live, whatever stamp was armed before, and until that time has
    passed every field of the root hash reads as right after the batch. *)
Theorem temp_batch_alive psi t s r s' ms :
  batch_save psi t true s = (Val r, s') ->
  0 <= ms <= CONFIG.TEMP_DATA_TTL * 1000 ->
  root_expiry s' = Some (now s + CONFIG.TEMP_DATA_TTL * 1000) /\
  forall f, root_field (advance ms s') f = root_field s' f.
Proof.
  intros Hrun Hms.
  destruct (batch_save_expiry _ _ _ _ _ _ Hrun) as (Hnow & Hex & _).
  split; [exact Hex|]. intros f.
  apply root_field_advance; [lia|]. rewrite Hex, Hnow. lia.
Qed.

Lemma temp_batch_alive_witness :
  0 <= 3600000 <= CONFIG.TEMP_DATA_TTL * 1000 /\
  exists r s',
    batch_save Samples.psi1 Samples.t_a true Samples.s_empty = (Val r, s') /\
    root_expiry s'
      = Some (now Samples.s_empty + CONFIG.TEMP_DATA_TTL * 1000) /\
    forall f, root_field (advance 3600000 s') f = root_field s' f.
Proof.
  assert (Hms : 0 <= 3600000 <= CONFIG.TEMP_DATA_TTL * 1000)
    by (unfold CONFIG.TEMP_DATA_TTL; lia).
  assert (Hin : in_bounds Samples.psi1 0 0 0) by (vm_compute; lia).
  pose proof (batch_save_run Samples.psi1 Samples.t_a true Samples.s_empty
                eq_refl (batch_data_nonempty _ _ _ _ _ _ Hin)) as Hrun.
  split; [exact Hms|]. do 2 eexists. split; [exact Hrun|].
  exact (temp_batch_alive _ _ _ _ _ _ Hrun Hms).
Defined.

(** X12: on a root hash without armed stamp (absent, or written by formal
    batches only) a formal batch arms none, and its fields can be read at
    any later time. *)
Theorem formal_batch_persists psi t s r s' ms :
  root_expiry s = None ->
  batch_save psi t false s = (Val r, s') ->
  0 <= ms ->
  root_expiry s' = None /\
  forall f, root_field (advance ms s') f = root_field s' f.
Proof.
  intros Hnone Hrun Hms.
  destruct (batch_save_expiry _ _ _ _ _ _ Hrun) as (Hnow & Hex & _).
  rewrite Hnone in Hex. split; [exact Hex|]. intros f.
  apply root_field_advance; [lia|]. by rewrite Hex.
Qed.

Lemma formal_batch_persists_witness :
  (root_expiry Samples.s_empty = None /\ 0 <= 86400000) /\
  exists r s',
    batch_save Samples.psi8 Samples.t_a false Samples.s_empty = (Val r, s') /\
    root_expiry s' = None /\
    forall f, root_field (advance 86400000 s') f = root_field s' f.
Proof.
  assert (Hnone : root_expiry Samples.s_empty = None) by reflexivity.
  assert (Hms : 0 <= 86400000) by lia.
  assert (Hin : in_bounds Samples.psi8 0 0 0) by (vm_compute; lia).
  pose proof (batch_save_run Samples.psi8 Samples.t_a false Samples.s_empty
                eq_refl (batch_data_nonempty _ _ _ _ _ _ Hin)) as Hrun.
  split; [exact (conj Hnone Hms)|]. do 2 eexists. split; [exact Hrun|].
  exact (formal_batch_persists _ _ _ _ _ _ Hnone Hrun Hms).
Defined.

End Lifetime.

(** ** Eviction: the exact effect of [clean_temp_data] *)

Section EvictionFrame.

Import Text Float Redis WaveFuncHashHandler.

Lemma temp_key_root : temp_key root = false.
Proof. reflexivity. Qed.

(** What depends on the entry of the root key only. *)
Lemma root_view_eq s1 s2 :
  lookup_key s2 root = lookup_key s1 root ->
  root_wrong_type s2 = root_wrong_type s1 /\
  root_expiry s2 = root_expiry s1 /\
  root_hash s2 = root_hash s1.
Proof.
  unfold root_wrong_type, root_expiry, root_hash. fold root. by intros ->.
Qed.

Lemma sweep_fields_clean s :
  root_wrong_type s = false ->
  (forall f, temp_field f = true -> root_field s f = None) ->
  sweep_fields s = (Val tt, s).
Proof.
  unfold root_wrong_type, sweep_fields, bind, hscan_iter, root_field, root_hash.
  destruct (lookup_key s CONFIG.ROOT_HASH_KEY) as [[[h|] ex]|] eqn:Hroot;
    intros Hty Hnone; [|done|done].
  set (fields := (filter _ (map_to_list h)).*1).
  assert (Hnil : fields = []).
  { destruct fields as [|f l] eqn:E; [done|]. exfalso.
    assert (Hin : f ∈ fields) by (rewrite E; left).
    apply elem_of_scanned in Hin as [Ht [v Hv]].
    rewrite (Hnone f Ht) in Hv. done. }
  by rewrite Hnil.
Qed.

Lemma sweep_keys_clean s :
  (forall k, temp_key k = true -> lookup_key s k = None) ->
  sweep_keys s = (Val tt, s).
Proof.
  intros Hnone. unfold sweep_keys, bind, keys.
  set (l := filter _ _).
  assert (Hnil : l = []).
  { destruct l as [|k l'] eqn:E; [done|]. exfalso.
    assert (Hin : k ∈ l) by (rewrite E; left).
    apply elem_of_keys in Hin as [Hk [e He]].
    rewrite glob_temp_key in Hk. rewrite (Hnone k Hk) in He. done. }
  by rewrite Hnil.
Qed.

(** The sweep of the fields leaves a readable root key, whose stamp is the
    one it had unless the hash lost all its fields and was removed. *)
Lemma sweep_fields_root s s' :
  sweep_fields s = (Val tt, s') ->
  root_wrong_type s' = false /\
  (forall f v, temp_field f = false -> root_field s f = Some v ->
     root_expiry s' = root_expiry s).
Proof.
  unfold root_wrong_type, root_expiry, sweep_fields, bind, hscan_iter,
    root_field, root_hash.
  destruct (lookup_key s CONFIG.ROOT_HASH_KEY) as [[[h|] ex]|] eqn:Hroot;
    [|done|].
  - set (fields := (filter _ (map_to_list h)).*1).
    pose proof (scanned_deleted h) as Hdel. fold fields in Hdel.
    destruct (nonempty fields) eqn:Hne; cbn [when].
    + unfold bind, hdel. rewrite Hroot.
      destruct (decide (foldr delete h fields = ∅)) as [Hemp|Hnemp].
      * intros [= <-]. rewrite lookup_key_delete.
        destruct (decide (CONFIG.ROOT_HASH_KEY = CONFIG.ROOT_HASH_KEY)); [|done].
        split; [done|]. intros f v Hf Hv. exfalso.
        specialize (Hdel f). rewrite Hf, Hv, Hemp in Hdel. done.
      * intros [= <-]. rewrite lookup_key_insert.
        destruct (decide (CONFIG.ROOT_HASH_KEY = CONFIG.ROOT_HASH_KEY)); [|done].
        change (expired (now s) (Entry (VHash (foldr delete h fields)) ex))
          with (expired (now s) (Entry (VHash h) ex)).
        rewrite (live_not_expired _ _ _ Hroot). done.
    + intros [= <-]. rewrite Hroot. done.
  - intros [= <-]. rewrite Hroot. done.
Qed.

Lemma evict_commands_root s s' :
  evict_commands s = (Val tt, s') ->
  root_wrong_type s' = false /\
  (forall f v, temp_field f = false -> root_field s f = Some v ->
     root_expiry s' = root_expiry s).
Proof.
  unfold evict_commands, bind.
  destruct (sweep_fields s) as [[[]|e] s1] eqn:Hrun1; [|done].
  destruct (sweep_fields_root _ _ Hrun1) as [Hty1 Hex1].
  destruct (sweep_keys_run s1) as (s2 & Hrun2 & _ & _ & Hk2).
  rewrite Hrun2. intros [= <-].
  specialize (Hk2 root). rewrite temp_key_root in Hk2.
  destruct (root_view_eq _ _ Hk2) as (Hty & Hex & _).
  split; [congruence|]. intros f v Hf Hv. rewrite Hex. by apply (Hex1 f v).
Qed.

(** What [clean_temp_data] does through a client, step by step. *)
Lemma clean_temp_data_run w c :
  redis_client w = Some c ->
  clean_temp_data w =
  (fst (evict_commands (store w)),
   World (Some (Client true)) (EXIT_FLAG w) (snd (evict_commands (store w)))).
Proof.
  intros Hc. rewrite (clean_temp_data_commands w c Hc).
  apply (call_with_client _ w c Hc).
Qed.



(** X14: an eviction that has completed has nothing left to do: run
    again, it completes and changes nothing. *)
Theorem clean_temp_data_idempotent w c w' :
  redis_client w = Some c ->
  clean_temp_data w = (Val tt, w') ->
  clean_temp_data w' = (Val tt, w').
Proof.
  intros Hc Hrun. rewrite (clean_temp_data_run w c Hc) in Hrun.
  destruct (root_wrong_type (store w)) eqn:Hty.
  { by rewrite (evict_commands_wrong_type _ Hty) in Hrun. }
  destruct (evict_commands_run (store w) Hty)
    as (s' & Hev & _ & _ & Hkeys & Hfields).
  destruct (evict_commands_root _ _ Hev) as [Hty' _].
  rewrite Hev in Hrun. injection Hrun as <-.
  rewrite (clean_temp_data_run (World (Some (Client true)) (EXIT_FLAG w) s')
             (Client true) eq_refl).
  cbn [store EXIT_FLAG].
  assert (Hclean : evict_commands s' = (Val tt, s')).
  { unfold evict_commands, bind.
    rewrite (sweep_fields_clean s' Hty').
    - apply sweep_keys_clean. intros k Hk.
      destruct (decide (k = root)) as [->|Hne].
      + by rewrite temp_key_root in Hk.
      + by rewrite (Hkeys k Hne), Hk.
    - intros f Hf. by rewrite Hfields, Hf. }
  by rewrite Hclean.
Qed.

Lemma clean_temp_data_idempotent_witness :
  let w' := snd (clean_temp_data Samples.w_mixed) in
  (redis_client Samples.w_mixed = Some (Client true) /\
   clean_temp_data Samples.w_mixed = (Val tt, w')) /\
  clean_temp_data w' = (Val tt, w').
Proof.
  cbn zeta.
  assert (Hc : redis_client Samples.w_mixed = Some (Client true))
    by reflexivity.
  assert (Hrun : clean_temp_data Samples.w_mixed =
                 (Val tt, snd (clean_temp_data Samples.w_mixed)))
    by (vm_compute; reflexivity).
  split; [exact (conj Hc Hrun)|].
  exact (clean_temp_data_idempotent _ _ _ Hc Hrun).
Defined.

(** X15: when the root key holds a value of another type than a hash, the
    eviction stops at its first command with the server's WRONGTYPE error:
    the store is as before, so the scratch keys are not removed. *)
Theorem clean_temp_data_wrong_type w c :
  redis_client w = Some c ->
  root_wrong_type (store w) = true ->
  clean_temp_data w =
  (Raise ResponseError, World (Some (Client true)) (EXIT_FLAG w) (store w)).
Proof.
  intros Hc Hty. rewrite (clean_temp_data_run w c Hc).
  by rewrite (evict_commands_wrong_type _ Hty).
Qed.

Lemma clean_temp_data_wrong_type_witness :
  let w := World (Some (Client true)) false MoreSamples.s_wrong in
  (redis_client w = Some (Client true) /\
   root_wrong_type (store w) = true) /\
  clean_temp_data w = (Raise ResponseError, w) /\
  count_temp_keys (store w) = 1%nat.
Proof.
  cbn zeta.
  split; [split; reflexivity|]. split; [|vm_compute; reflexivity].
  exact (clean_temp_data_wrong_type
           (World (Some (Client true)) false MoreSamples.s_wrong)
           (Client true) eq_refl eq_refl).
Defined.

(** X16: a batch, then an eviction, then a read: the samples of a
    temporary batch are gone ([KeyError]), those of a formal batch are read
    as before. *)
Theorem batch_evict_read psi t temp s c flag x y z :
  root_wrong_type s = false ->
  in_bounds psi x y z ->
  exists r s1 w',
    batch_save psi t temp s = (Val r, s1) /\
    clean_temp_data (World (Some c) flag s1) = (Val tt, w') /\
    get_point (Z.of_nat x) (Z.of_nat y) (Z.of_nat z) t temp (store w') =
    (if temp then Raise KeyError else Val (stored_sample (item psi x y z)),
     store w').
Proof.
  intros Hty Hin.
  pose proof (batch_data_nonempty psi t temp x y z Hin) as Hd.
  pose proof (batch_save_run _ _ _ _ Hty Hd) as Hrun.
  pose proof (batch_save_hash _ _ _ _ _ _ Hrun) as Hty1.
  pose proof (batch_save_field _ _ _ _ _ _ _ _ _ Hrun Hin) as Hfield.
  destruct (evict_commands_run _ Hty1) as (s2 & Hev & _ & _ & _ & Hfields).
  destruct (evict_commands_root _ _ Hev) as [Hty2 _].
  do 3 eexists. split; [exact Hrun|]. split.
  - rewrite (clean_temp_data_run (World (Some c) flag _) c eq_refl).
    cbn [store EXIT_FLAG].
    rewrite Hev. reflexivity.
  - cbn [store fst snd].
    specialize (Hfields (gen_field (Z.of_nat x) (Z.of_nat y) (Z.of_nat z) t temp)).
    rewrite (proj1 (gen_field_namespace _ _ _ _ _)) in Hfields.
    destruct temp.
    + by apply get_point_missing.
    + apply get_point_stored; [done|]. by rewrite Hfields.
Qed.

Lemma batch_evict_read_witness :
  (root_wrong_type Samples.s_mixed = false /\ in_bounds Samples.psi8 1 0 1) /\
  (exists r s1 w',
    batch_save Samples.psi8 Samples.t_a true Samples.s_mixed = (Val r, s1) /\
    clean_temp_data (World (Some (Client true)) false s1) = (Val tt, w') /\
    get_point 1 0 1 Samples.t_a true (store w')
      = (Raise KeyError, store w')).
Proof.
  assert (Hty : root_wrong_type Samples.s_mixed = false)
    by (vm_compute; reflexivity).
  assert (Hin : in_bounds Samples.psi8 1 0 1) by (vm_compute; lia).
  split; [exact (conj Hty Hin)|].
  exact (batch_evict_read Samples.psi8 Samples.t_a true Samples.s_mixed
           (Client true) false 1 0 1 Hty Hin).
Defined.

End EvictionFrame.

(** ** Reads and writes that fail *)

Section Failures.

Import Text Float Redis WaveFuncHashHandler.
Local Open Scope string_scope.

(** X17: a field that holds a text without exactly one comma is not
    reported as missing: [get_point] raises [ValueError], and the store is
    as before. *)
Theorem get_point_value_error x y z t temp s b :
  root_wrong_type s = false ->
  root_field s (gen_field x y z t temp) = Some b ->
  b <> "" ->
  count_char "," b <> 1%nat ->
  get_point x y z t temp s = (Raise ValueError, s).
Proof.
  intros Hty Hf Hne Hn. unfold get_point, bind. rewrite hget_root, Hty, Hf.
  destruct (String.eqb_spec b "") as [He|_]; [done|].
  unfold b2c.
  pose proof (length_split_on "," b) as Hlen.
  destruct (split_on "," b) as [|r [|i [|j l]]]; try reflexivity.
  cbn [length] in Hlen. lia.
Qed.

Lemma get_point_value_error_witness :
  (root_wrong_type MoreSamples.s_text = false /\
   root_field MoreSamples.s_text (gen_field 0 0 0 Samples.t_a false)
     = Some "1.5" /\
   "1.5" <> "" /\ count_char "," "1.5" <> 1%nat) /\
  get_point 0 0 0 Samples.t_a false MoreSamples.s_text
    = (Raise ValueError, MoreSamples.s_text).
Proof.
  assert (Hty : root_wrong_type MoreSamples.s_text = false)
    by (vm_compute; reflexivity).
  assert (Hf : root_field MoreSamples.s_text (gen_field 0 0 0 Samples.t_a false)
               = Some "1.5") by (vm_compute; reflexivity).
  assert (Hne : "1.5" <> "") by discriminate.
  assert (Hn : count_char "," "1.5" <> 1%nat) by (vm_compute; lia).
  split; [exact (conj Hty (conj Hf (conj Hne Hn)))|].
  exact (get_point_value_error 0 0 0 Samples.t_a false MoreSamples.s_text
           "1.5" Hty Hf Hne Hn).
Defined.

(** X18: when the root key holds a value of another type than a hash, a
    read and a batch of a grid with at least one point both raise the
    server's WRONGTYPE error, and nothing is written. *)
Theorem handler_wrong_type psi t temp x y z s a b c :
  root_wrong_type s = true ->
  in_bounds psi a b c ->
  get_point x y z t temp s = (Raise ResponseError, s) /\
  batch_save psi t temp s = (Raise ResponseError, s).
Proof.
  intros Hty Hin. split.
  - unfold get_point, bind. by rewrite hget_root, Hty.
  - pose proof (batch_data_nonempty psi t temp a b c Hin) as Hd.
    unfold batch_save, bind, hmset.
    destruct (decide (batch_data psi t temp = ∅)) as [|_]; [done|].
    unfold root_wrong_type in Hty. fold root in Hty.
    by destruct (lookup_key s root) as [[[h|] ex]|].
Qed.

Lemma handler_wrong_type_witness :
  (root_wrong_type MoreSamples.s_wrong = true /\
   in_bounds Samples.psi8 0 0 0) /\
  get_point 0 0 0 Samples.t_a false MoreSamples.s_wrong
    = (Raise ResponseError, MoreSamples.s_wrong) /\
  batch_save Samples.psi8 Samples.t_a false MoreSamples.s_wrong
    = (Raise ResponseError, MoreSamples.s_wrong).
Proof.
  assert (Hty : root_wrong_type MoreSamples.s_wrong = true)
    by (vm_compute; reflexivity).
  assert (Hin : in_bounds Samples.psi8 0 0 0) by (vm_compute; lia).
  split; [exact (conj Hty Hin)|].
  exact (handler_wrong_type Samples.psi8 Samples.t_a false 0 0 0
           MoreSamples.s_wrong 0%nat 0%nat 0%nat Hty Hin).
Defined.

(** X19: the names that [gen_field] builds and the patterns of the
    eviction agree: the scan for [temp_*] selects a field exactly when it
    was built with [temp=True], and the sweep of the keys under
    [quantum:temp:*] selects neither a field name nor the root key. *)
Theorem gen_field_patterns x y z t temp :
  glob_match "temp_*" (gen_field x y z t temp) = temp /\
  glob_match "quantum:temp:*" (gen_field x y z t temp) = false /\
  glob_match "quantum:temp:*" root = false.
Proof.
  rewrite glob_temp_field, !glob_temp_key.
  split; [apply gen_field_namespace|]. split; [|reflexivity].
  rewrite gen_field_shape. unfold temp_key.
  destruct temp; rewrite !append_String, append_empty; reflexivity.
Qed.

End Failures.

(** ** Shutdown: what the first [graceful_exit] leaves *)

Section ShutdownEffect.

Import Redis.

(** The first run, step by step: the flag is set, the pool is
    disconnected, the eviction is tried and its error swallowed, and the
    process exits with status 0. *)
Lemma graceful_exit_run w :
  EXIT_FLAG w = false ->
  graceful_exit w =
  (Raise (SystemExit 0),
   match redis_client w with
   | None => World None true (store w)
   | Some _ =>
       World (Some (Client true)) true (snd (evict_commands (store w)))
   end).
Proof.
  intros Hflag. unfold graceful_exit, bind at 1, gets at 1. rewrite Hflag.
  unfold bind at 1, set_exit_flag, modify, try_finally, try_except.
  unfold bind at 1, gets at 1. cbn [redis_client EXIT_FLAG store].
  destruct (redis_client w) as [c|] eqn:Hc.
  - rewrite bool_decide_eq_true_2 by eauto.
    cbn [when]. unfold bind at 1, pool_disconnect, modify.
    cbn [redis_client EXIT_FLAG store].
    rewrite (clean_temp_data_run
               (World (Some (Client false)) true (store w))
               (Client false) eq_refl).
    cbn [redis_client EXIT_FLAG store].
    destruct (evict_commands (store w)) as [[u|e] s1]; cbn [fst snd].
    + reflexivity.
    + by destruct (is_Exception e).
  - assert (Hdec : bool_decide (is_Some (@None client)) = false).
    { apply bool_decide_eq_false. by intros [? ?]. }
    rewrite Hdec. cbn [when]. unfold bind at 1, ret at 1.
    unfold clean_temp_data, bind at 1, gets at 1.
    cbn [redis_client EXIT_FLAG store]. reflexivity.
Qed.

(** X20: the first [graceful_exit] of a process with a client and a
    readable root hash exits with status 0 and leaves the server purged:
    no temporary field, no scratch key, every other field as before; the
    eviction has opened the connection again after the disconnect. *)
Theorem graceful_exit_purges w c :
  EXIT_FLAG w = false ->
  redis_client w = Some c ->
  root_wrong_type (store w) = false ->
  exists w',
    graceful_exit w = (Raise (SystemExit 0), w') /\
    EXIT_FLAG w' = true /\
    redis_client w' = Some (Client true) /\
    count_fields temp_field (store w') = 0%nat /\
    count_temp_keys (store w') = 0%nat /\
    (forall f, temp_field f = false ->
       root_field (store w') f = root_field (store w) f).
Proof.
  intros Hflag Hc Hty. rewrite (graceful_exit_run w Hflag), Hc.
  destruct (evict_commands_run (store w) Hty)
    as (s' & Hev & _ & _ & Hkeys & Hfields).
  rewrite Hev. cbn [snd]. eexists. split; [reflexivity|].
  cbn [EXIT_FLAG redis_client store]. split_and!; try done.
  - apply count_fields_zero. intros f Hf. by rewrite Hfields, Hf.
  - apply count_temp_keys_zero. intros k Hk.
    destruct (decide (k = CONFIG.ROOT_HASH_KEY)) as [->|Hne]; [done|].
    by rewrite (Hkeys k Hne), Hk.
  - intros f Hf. by rewrite Hfields, Hf.
Qed.

Lemma graceful_exit_purges_witness :
  (EXIT_FLAG Samples.w_mixed = false /\
   redis_client Samples.w_mixed = Some (Client true) /\
   root_wrong_type (store Samples.w_mixed) = false) /\
  exists w',
    graceful_exit Samples.w_mixed = (Raise (SystemExit 0), w') /\
    EXIT_FLAG w' = true /\
    redis_client w' = Some (Client true) /\
    count_fields temp_field (store w') = 0%nat /\
    count_temp_keys (store w') = 0%nat /\
    (forall f, temp_field f = false ->
       root_field (store w') f = root_field (store Samples.w_mixed) f).
Proof.
  assert (Hflag : EXIT_FLAG Samples.w_mixed = false) by reflexivity.
  assert (Hc : redis_client Samples.w_mixed = Some (Client true))
    by reflexivity.
  assert (Hty : root_wrong_type (store Samples.w_mixed) = false)
    by (vm_compute; reflexivity).
  split; [exact (conj Hflag (conj Hc Hty))|].
  exact (graceful_exit_purges Samples.w_mixed (Client true) Hflag Hc Hty).
Defined.

(** X21: when the cleanup cannot run (no client) or fails (the root key
    holds another type than a hash), the first [graceful_exit] still exits
    with status 0: the error is swallowed and the store is as before. *)
Theorem graceful_exit_without_cleanup w :
  EXIT_FLAG w = false ->
  redis_client w = None \/ root_wrong_type (store w) = true ->
  fst (graceful_exit w) = Raise (SystemExit 0) /\
  EXIT_FLAG (snd (graceful_exit w)) = true /\
  store (snd (graceful_exit w)) = store w.
Proof.
  intros Hflag Hcase. rewrite (graceful_exit_run w Hflag). cbn [fst snd].
  destruct (redis_client w) as [c|] eqn:Hc; [|done].
  destruct Hcase as [|Hty]; [done|].
  by rewrite (evict_commands_wrong_type _ Hty).
Qed.

Lemma graceful_exit_without_cleanup_witness :
  let w := World (Some (Client true)) false MoreSamples.s_wrong in
  (EXIT_FLAG w = false /\ root_wrong_type (store w) = true) /\
  fst (graceful_exit w) = Raise (SystemExit 0) /\
  EXIT_FLAG (snd (graceful_exit w)) = true /\
  store (snd (graceful_exit w)) = store w.
Proof.
  cbn zeta.
  set (w := World (Some (Client true)) false MoreSamples.s_wrong).
  assert (Hflag : EXIT_FLAG w = false) by reflexivity.
  assert (Hty : root_wrong_type (store w) = true) by (vm_compute; reflexivity).
  split; [exact (conj Hflag Hty)|].
  exact (graceful_exit_without_cleanup w Hflag (or_intror Hty)).
Defined.

End ShutdownEffect.

(** ** The usage figure of [check_memory_usage] *)

Section UsageFigure.

Import Float Redis.

(** From the first normal binade on, rounding moves a value by at most
    [2^-53] of it. *)
Lemma rounded_relative p q :
  0 <= p -> 0 < q -> 2 ^ 53 * q <= p ->
  Z.abs (rounded p q * q - p) * 2 ^ 53 <= p.
Proof.
  intros Hp Hq Hbig. unfold rounded, nearest_scaled.
  destruct (shift_spec p q Hp Hq) as (Hsh & Hlo & Hhi).
  set (sh := Z.max 0 (Z.log2 (p / q) - 52)) in *.
  assert (Hpos : 0 < sh).
  { destruct (Z.eq_dec sh 0) as [H0|]; [|lia].
    rewrite H0 in Hhi. change (0 + 53) with 53 in Hhi. lia. }
  specialize (Hlo Hpos).
  rewrite (Z.add_comm sh 52), Z.pow_add_r in Hlo by lia.
  assert (Hg : 0 < 2 ^ sh) by (apply Z.pow_pos_nonneg; lia).
  assert (Hd : 0 < q * 2 ^ sh) by nia.
  pose proof (rhe_half p (q * 2 ^ sh) Hp Hd) as Hhalf.
  set (m := round_half_even p (q * 2 ^ sh)) in *.
  replace (m * 2 ^ sh * q - p) with (m * (q * 2 ^ sh) - p) by ring.
  replace (2 ^ 52 * 2 ^ sh * q) with (2 ^ 52 * (q * 2 ^ sh)) in Hlo by ring.
  set (D := q * 2 ^ sh) in *. clearbody D m. lia.
Qed.

Lemma scaled_relative x y d e :
  0 < d -> Z.abs (x * d - y * d) * e <= y * d -> Z.abs (x - y) * e <= y.
Proof.
  intros Hd H.
  replace (x * d - y * d) with ((x - y) * d) in H by ring.
  rewrite Z.abs_mul, (Z.abs_eq d) in H by lia.
  apply (Z.mul_le_mono_pos_r _ _ d Hd). lia.
Qed.

(** The four roundings together move the percentage by at most [2^-49] of
    it. *)
Lemma usage_value_accuracy mem :
  0 <= mem ->
  Z.abs (usage_value mem * budget_bytes - 100 * mem * ulp_inv) * 2 ^ 49
    <= 100 * mem * ulp_inv.
Proof.
  intros Hmem. destruct (Z.eq_dec mem 0) as [->|Hne].
  { assert (H0 : usage_value 0 = 0) by (apply Z.eqb_eq; vm_compute; reflexivity).
    rewrite H0. lia. }
  pose proof ulp_inv_pos as HU.
  assert (HUbig : 2 ^ 100 <= ulp_inv).
  { unfold ulp_inv. apply Z.pow_le_mono_r; lia. }
  unfold usage_value, ratio_value, mb_value, kb_value, budget_bytes,
    CONFIG.MAX_MEMORY_MB.
  set (U := ulp_inv) in *. clearbody U.
  assert (HA : 2 ^ 100 <= mem * U) by nia.
  set (A := mem * U) in *.
  replace (100 * mem * U) with (100 * A) by (unfold A; ring).
  clearbody A.
  (* mem / 1024 *)
  pose proof (rounded_relative A 1024 ltac:(lia) ltac:(lia) ltac:(lia)) as H1.
  pose proof (rounded_nonneg A 1024 ltac:(lia) ltac:(lia)) as Hk0.
  set (k := rounded A 1024) in *. clearbody k.
  assert (Hk : 2 ^ 80 <= k) by lia.
  (* ... / 1024 *)
  assert (H2 : Z.abs (rounded (k * U) (1024 * U) * 1024 - k) * 2 ^ 53 <= k).
  { apply (scaled_relative _ _ U); [lia|].
    replace (rounded (k * U) (1024 * U) * 1024 * U)
      with (rounded (k * U) (1024 * U) * (1024 * U)) by ring.
    apply rounded_relative; nia. }
  pose proof (rounded_nonneg (k * U) (1024 * U) ltac:(nia) ltac:(lia)) as Hm0.
  set (m := rounded (k * U) (1024 * U)) in *. clearbody m.
  assert (Hm : 2 ^ 68 <= m) by lia.
  (* ... / MAX_MEMORY_MB *)
  assert (H3 : Z.abs (rounded (m * U) (8000 * U) * 8000 - m) * 2 ^ 53 <= m).
  { apply (scaled_relative _ _ U); [lia|].
    replace (rounded (m * U) (8000 * U) * 8000 * U)
      with (rounded (m * U) (8000 * U) * (8000 * U)) by ring.
    apply rounded_relative; nia. }
  pose proof (rounded_nonneg (m * U) (8000 * U) ltac:(nia) ltac:(lia)) as Hr0.
  set (r := rounded (m * U) (8000 * U)) in *. clearbody r.
  assert (Hr : 2 ^ 54 <= r) by lia.
  (* ... * 100 *)
  assert (HUU : 0 < U * U) by nia.
  assert (H4 : Z.abs (rounded (r * (100 * U) * U) (U * U) - 100 * r) * 2 ^ 53
               <= 100 * r).
  { apply (scaled_relative _ _ (U * U)); [lia|].
    replace (100 * r * (U * U)) with (r * (100 * U) * U) by ring.
    apply rounded_relative; [nia|lia|].
    replace (r * (100 * U) * U) with (100 * r * (U * U)) by ring.
    apply Z.mul_le_mono_nonneg_r; lia. }
  set (u := rounded (r * (100 * U) * U) (U * U)) in *. clearbody u.
  lia.
Qed.

(** A usage that is returned is the float of the four operations. *)
Lemma check_memory_usage_value w c u w' :
  redis_client w = Some c ->
  0 <= used_memory (store w) <= 2 ^ 64 ->
  check_memory_usage w = (Val u, w') ->
  u = usage_float (used_memory (store w)).
Proof.
  intros Hc Hmem. rewrite (check_memory_usage_run w c Hc Hmem).
  unfold bind, ret.
  destruct (ge_int (usage_float (used_memory (store w))) 85); cbn [when].
  - match goal with |- context [clean_temp_data ?w0] =>
      destruct (clean_temp_data w0) as [[[]|e] w2]
    end; [|discriminate].
    by intros [= <- _].
  - unfold ret. by intros [= <- _].
Qed.

(** Below the high-water mark the usage is returned and nothing else
    happens. *)
Lemma check_memory_usage_below w c :
  redis_client w = Some c ->
  0 <= used_memory (store w) <= 2 ^ 64 ->
  100 * used_memory (store w) < 85 * budget_bytes ->
  check_memory_usage w =
  (Val (usage_float (used_memory (store w))),
   World (Some (Client true)) (EXIT_FLAG w) (store w)).
Proof.
  intros Hc Hmem Hlow. rewrite (check_memory_usage_run w c Hc Hmem).
  pose proof (usage_float_trigger _ Hmem) as Htrig.
  destruct (ge_int (usage_float (used_memory (store w))) 85); [|reflexivity].
  pose proof (proj1 Htrig eq_refl). lia.
Qed.

(** X22: the usage that [check_memory_usage] returns is a finite float that
    differs from the exact percentage [100 * used_memory / budget] by at
    most [2^-49] of it. *)
Theorem check_memory_usage_accuracy w c u w' :
  redis_client w = Some c ->
  0 <= used_memory (store w) <= 2 ^ 64 ->
  check_memory_usage w = (Val u, w') ->
  is_finite u = true /\
  Z.abs (sval u * budget_bytes - 100 * used_memory (store w) * ulp_inv) * 2 ^ 49
    <= 100 * used_memory (store w) * ulp_inv.
Proof.
  intros Hc Hmem Hrun.
  rewrite (check_memory_usage_value w c u w' Hc Hmem Hrun).
  destruct (usage_float_value _ Hmem) as (_ & Hfin & Hval).
  split; [exact Hfin|]. rewrite Hval.
  apply usage_value_accuracy. lia.
Qed.

Lemma check_memory_usage_accuracy_witness :
  let w := Samples.w_low in
  (redis_client w = Some (Client true) /\
   0 <= used_memory (store w) <= 2 ^ 64) /\
  exists u w',
    check_memory_usage w = (Val u, w') /\
    is_finite u = true /\
    Z.abs (sval u * budget_bytes - 100 * used_memory (store w) * ulp_inv)
      * 2 ^ 49
      <= 100 * used_memory (store w) * ulp_inv.
Proof.
  cbn zeta.
  assert (Hc : redis_client Samples.w_low = Some (Client true)) by reflexivity.
  assert (Hmem : 0 <= used_memory (store Samples.w_low) <= 2 ^ 64)
    by (split; apply Z.leb_le; vm_compute; reflexivity).
  assert (Hlow : 100 * used_memory (store Samples.w_low) < 85 * budget_bytes)
    by (apply Z.ltb_lt; vm_compute; reflexivity).
  pose proof (check_memory_usage_below _ _ Hc Hmem Hlow) as Hrun.
  split; [exact (conj Hc Hmem)|]. do 2 eexists. split; [exact Hrun|].
  exact (check_memory_usage_accuracy _ _ _ _ Hc Hmem Hrun).
Defined.

(** X23: the usage is monotone: of two processes, the one whose server
    reports more memory in use is never returned the smaller usage, and no
    usage is negative. *)
Theorem check_memory_usage_monotone w1 w2 c1 c2 u1 u2 w1' w2' :
  redis_client w1 = Some c1 -> redis_client w2 = Some c2 ->
  0 <= used_memory (store w1) <= used_memory (store w2) ->
  used_memory (store w2) <= 2 ^ 64 ->
  check_memory_usage w1 = (Val u1, w1') ->
  check_memory_usage w2 = (Val u2, w2') ->
  0 <= sval u1 <= sval u2.
Proof.
  intros Hc1 Hc2 Hle Htop Hrun1 Hrun2.
  assert (Hm1 : 0 <= used_memory (store w1) <= 2 ^ 64) by lia.
  assert (Hm2 : 0 <= used_memory (store w2) <= 2 ^ 64) by lia.
  rewrite (check_memory_usage_value w1 c1 u1 w1' Hc1 Hm1 Hrun1).
  rewrite (check_memory_usage_value w2 c2 u2 w2' Hc2 Hm2 Hrun2).
  destruct (usage_float_value _ Hm1) as (_ & _ & ->).
  destruct (usage_float_value _ Hm2) as (_ & _ & ->).
  by apply usage_value_mono.
Qed.

Lemma check_memory_usage_monotone_witness :
  let w1 := World (Some (Client true)) false Samples.s_empty in
  let w2 := Samples.w_low in
  (redis_client w1 = Some (Client true) /\
   redis_client w2 = Some (Client true) /\
   0 <= used_memory (store w1) <= used_memory (store w2) /\
   used_memory (store w2) <= 2 ^ 64) /\
  exists u1 w1' u2 w2',
    check_memory_usage w1 = (Val u1, w1') /\
    check_memory_usage w2 = (Val u2, w2') /\
    0 <= sval u1 <= sval u2.
Proof.
  cbn zeta.
  set (w1 := World (Some (Client true)) false Samples.s_empty).
  assert (Hc1 : redis_client w1 = Some (Client true)) by reflexivity.
  assert (Hc2 : redis_client Samples.w_low = Some (Client true))
    by reflexivity.
  assert (Hle : 0 <= used_memory (store w1)
                  <= used_memory (store Samples.w_low))
    by (split; apply Z.leb_le; vm_compute; reflexivity).
  assert (Htop : used_memory (store Samples.w_low) <= 2 ^ 64)
    by (apply Z.leb_le; vm_compute; reflexivity).
  assert (Hm1 : 0 <= used_memory (store w1) <= 2 ^ 64)
    by (split; apply Z.leb_le; vm_compute; reflexivity).
  assert (Hl1 : 100 * used_memory (store w1) < 85 * budget_bytes)
    by (apply Z.ltb_lt; vm_compute; reflexivity).
  assert (Hl2 : 100 * used_memory (store Samples.w_low) < 85 * budget_bytes)
    by (apply Z.ltb_lt; vm_compute; reflexivity).
  pose proof (check_memory_usage_below _ _ Hc1 Hm1 Hl1) as Hrun1.
  pose proof (check_memory_usage_below _ _ Hc2
                (conj (Z.le_trans _ _ _ (proj1 Hle) (proj2 Hle)) Htop) Hl2)
    as Hrun2.
  split; [exact (conj Hc1 (conj Hc2 (conj Hle Htop)))|].
  do 4 eexists. split; [exact Hrun1|]. split; [exact Hrun2|].
  exact (check_memory_usage_monotone _ _ _ _ _ _ _ _
           Hc1 Hc2 Hle Htop Hrun1 Hrun2).
Defined.

(** X24: from the high-water mark on, a process with a readable root hash
    is returned its usage, which is at least 85, and is left without
    temporary data: no temporary field, no scratch key, every other field
    as before. *)
Theorem check_memory_usage_evicts w c :
  redis_client w = Some c ->
  0 <= used_memory (store w) <= 2 ^ 64 ->
  85 * budget_bytes <= 100 * used_memory (store w) ->
  root_wrong_type (store w) = false ->
  exists u w',
    check_memory_usage w = (Val u, w') /\
    85 * ulp_inv <= sval u /\
    count_fields temp_field (store w') = 0%nat /\
    count_temp_keys (store w') = 0%nat /\
    (forall f, temp_field f = false ->
       root_field (store w') f = root_field (store w) f).
Proof.
  intros Hc Hmem Hhigh Hty.
  rewrite (check_memory_usage_run w c Hc Hmem).
  pose proof (proj2 (usage_float_trigger _ Hmem) Hhigh) as Htrig.
  rewrite Htrig. cbn [when]. unfold bind, ret.
  rewrite (clean_temp_data_run
             (World (Some (Client true)) (EXIT_FLAG w) (store w))
             (Client true) eq_refl).
  cbn [store EXIT_FLAG].
  destruct (evict_commands_run (store w) Hty)
    as (s' & Hev & _ & _ & Hkeys & Hfields).
  rewrite Hev. cbn [fst snd]. do 2 eexists. split; [reflexivity|].
  cbn [store]. split_and!.
  - destruct (usage_float_value _ Hmem) as (_ & Hfin & _).
    revert Htrig Hfin.
    destruct (usage_float (used_memory (store w))) as [s|s| |s m e];
      cbn [ge_int is_finite]; intros Htrig Hfin; try discriminate Hfin;
      by apply Z.leb_le.
  - apply count_fields_zero. intros f Hf. by rewrite Hfields, Hf.
  - apply count_temp_keys_zero. intros k Hk.
    destruct (decide (k = CONFIG.ROOT_HASH_KEY)) as [->|Hne]; [done|].
    by rewrite (Hkeys k Hne), Hk.
  - intros f Hf. by rewrite Hfields, Hf.
Qed.

Lemma check_memory_usage_evicts_witness :
  (redis_client Samples.w_mixed = Some (Client true) /\
   0 <= used_memory (store Samples.w_mixed) <= 2 ^ 64 /\
   85 * budget_bytes <= 100 * used_memory (store Samples.w_mixed) /\
   root_wrong_type (store Samples.w_mixed) = false) /\
  exists u w',
    check_memory_usage Samples.w_mixed = (Val u, w') /\
    85 * ulp_inv <= sval u /\
    count_fields temp_field (store w') = 0%nat /\
    count_temp_keys (store w') = 0%nat /\
    (forall f, temp_field f = false ->
       root_field (store w') f = root_field (store Samples.w_mixed) f).
Proof.
  assert (Hc : redis_client Samples.w_mixed = Some (Client true))
    by reflexivity.
  assert (Hmem : 0 <= used_memory (store Samples.w_mixed) <= 2 ^ 64)
    by (split; apply Z.leb_le; vm_compute; reflexivity).
  assert (Hhigh : 85 * budget_bytes
                  <= 100 * used_memory (store Samples.w_mixed))
    by (apply Z.leb_le; vm_compute; reflexivity).
  assert (Hty : root_wrong_type (store Samples.w_mixed) = false)
    by (vm_compute; reflexivity).
  split; [exact (conj Hc (conj Hmem (conj Hhigh Hty)))|].
  exact (check_memory_usage_evicts Samples.w_mixed (Client true)
           Hc Hmem Hhigh Hty).
Defined.

(** X25: from the high-water mark on, when the root key holds a value of
    another type than a hash, the caller is not returned the usage: the
    error of the eviction comes through, and the store is as before. *)
Theorem check_memory_usage_error w c :
  redis_client w = Some c ->
  0 <= used_memory (store w) <= 2 ^ 64 ->
  85 * budget_bytes <= 100 * used_memory (store w) ->
  root_wrong_type (store w) = true ->
  check_memory_usage w =
  (Raise ResponseError, World (Some (Client true)) (EXIT_FLAG w) (store w)).
Proof.
  intros Hc Hmem Hhigh Hty.
  rewrite (check_memory_usage_run w c Hc Hmem).
  rewrite (proj2 (usage_float_trigger _ Hmem) Hhigh). cbn [when].
  unfold bind.
  rewrite (clean_temp_data_run
             (World (Some (Client true)) (EXIT_FLAG w) (store w))
             (Client true) eq_refl).
  cbn [store EXIT_FLAG].
  by rewrite (evict_commands_wrong_type _ Hty).
Qed.

Lemma check_memory_usage_error_witness :
  let w := World (Some (Client true)) false
             (Server (keyspace MoreSamples.s_wrong) 0 high_water_bytes) in
  (redis_client w = Some (Client true) /\
   0 <= used_memory (store w) <= 2 ^ 64 /\
   85 * budget_bytes <= 100 * used_memory (store w) /\
   root_wrong_type (store w) = true) /\
  check_memory_usage w = (Raise ResponseError, w).
Proof.
  cbn zeta.
  set (w := World (Some (Client true)) false
              (Server (keyspace MoreSamples.s_wrong) 0 high_water_bytes)).
  assert (Hc : redis_client w = Some (Client true)) by reflexivity.
  assert (Hmem : 0 <= used_memory (store w) <= 2 ^ 64)
    by (split; apply Z.leb_le; vm_compute; reflexivity).
  assert (Hhigh : 85 * budget_bytes <= 100 * used_memory (store w))
    by (apply Z.leb_le; vm_compute; reflexivity).
  assert (Hty : root_wrong_type (store w) = true) by (vm_compute; reflexivity).
  split; [exact (conj Hc (conj Hmem (conj Hhigh Hty)))|].
  exact (check_memory_usage_error w (Client true) Hc Hmem Hhigh Hty).
Defined.

End UsageFigure.

(** ** Batches, eviction and the clock together *)

Section ReadWindow.

Import Text Float Redis WaveFuncHashHandler.

(** A readable root key stays readable as the clock moves on. *)
Lemma root_wrong_type_advance s ms :
  0 <= ms -> root_wrong_type s = false ->
  root_wrong_type (advance ms s) = false.
Proof.
  intros Hms. unfold root_wrong_type.
  rewrite lookup_key_advance_other. unfold lookup_key.
  destruct (keyspace s !! CONFIG.ROOT_HASH_KEY) as [[v ex]|]; [|done].
  unfold expired. cbn [e_expire].
  destruct ex as [T|]; [|done].
  destruct (Z.ltb_spec T (now s)) as [Hdead|Hlive].
  - assert (Hdead' : T < now s + ms) by lia.
    by rewrite (proj2 (Z.ltb_lt _ _) Hdead').
  - destruct (T <? now s + ms); [done|]. by destruct v.
Qed.

(** X26: the samples of a temporary batch can be read for exactly the time
    to live: a read at most [TEMP_DATA_TTL] seconds after the batch returns
    the stored sample, a later read raises [KeyError]. *)
Theorem temp_batch_read_window psi t s x y z ms :
  root_wrong_type s = false ->
  in_bounds psi x y z ->
  0 <= ms ->
  exists r s',
    batch_save psi t true s = (Val r, s') /\
    get_point (Z.of_nat x) (Z.of_nat y) (Z.of_nat z) t true (advance ms s') =
    (if ms <=? CONFIG.TEMP_DATA_TTL * 1000
     then Val (stored_sample (item psi x y z))
     else Raise KeyError,
     advance ms s').
Proof.
  intros Hty Hin Hms.
  pose proof (batch_data_nonempty psi t true x y z Hin) as Hd.
  pose proof (batch_save_run _ _ _ _ Hty Hd) as Hrun.
  pose proof (batch_save_hash _ _ _ _ _ _ Hrun) as Hty1.
  pose proof (batch_save_field _ _ _ _ _ _ _ _ _ Hrun Hin) as Hfield.
  destruct (batch_save_expiry _ _ _ _ _ _ Hrun) as (Hnow & Hex & _).
  do 2 eexists. split; [exact Hrun|].
  destruct (Z.leb_spec ms (CONFIG.TEMP_DATA_TTL * 1000)) as [Hin_ttl|Hout].
  - apply get_point_stored; [by apply root_wrong_type_advance|].
    rewrite root_field_advance; [exact Hfield|lia|].
    rewrite Hex, Hnow. lia.
  - assert (Hgone : lookup_key (advance ms _) root = None)
      by (apply (expiry_fires _ _ _ Hex); lia).
    apply get_point_missing.
    + unfold root_wrong_type. fold root. by rewrite Hgone.
    + by apply root_field_absent.
Qed.

Lemma temp_batch_read_window_witness :
  (root_wrong_type Samples.s_empty = false /\
   in_bounds Samples.psi8 1 0 1 /\ 0 <= 3600001) /\
  exists r s',
    batch_save Samples.psi8 Samples.t_a true Samples.s_empty = (Val r, s') /\
    get_point 1 0 1 Samples.t_a true (advance 3600001 s') =
    (Raise KeyError, advance 3600001 s').
Proof.
  assert (Hty : root_wrong_type Samples.s_empty = false) by reflexivity.
  assert (Hin : in_bounds Samples.psi8 1 0 1) by (vm_compute; lia).
  assert (Hms : 0 <= 3600001) by lia.
  split; [exact (conj Hty (conj Hin Hms))|].
  exact (temp_batch_read_window Samples.psi8 Samples.t_a Samples.s_empty
           1 0 1 3600001 Hty Hin Hms).
Defined.

(** X27: an eviction does not disarm the stamp that a temporary batch
    armed: a field outside the temp namespace that shares the root hash
    with the batch survives the eviction with its value, and is gone with
    the whole hash once the time to live of the batch has passed. *)
Theorem evicted_batch_still_expires psi t s r s1 c flag w2 f v ms :
  batch_save psi t true s = (Val r, s1) ->
  temp_field f = false ->
  root_field s f = Some v ->
  clean_temp_data (World (Some c) flag s1) = (Val tt, w2) ->
  CONFIG.TEMP_DATA_TTL * 1000 < ms ->
  root_field (store w2) f = Some v /\
  root_expiry (store w2) = Some (now s + CONFIG.TEMP_DATA_TTL * 1000) /\
  forall g, root_field (advance ms (store w2)) g = None.
Proof.
  intros Hrun Hf Hv Hclean Hms.
  destruct (batch_save_expiry _ _ _ _ _ _ Hrun) as (Hnow & Hex & _).
  assert (Hv1 : root_field s1 f = Some v).
  { rewrite (batch_save_root_field _ _ _ _ _ _ f Hrun).
    by rewrite (batch_data_namespace psi t true f Hf). }
  rewrite (clean_temp_data_run (World (Some c) flag s1) c eq_refl) in Hclean.
  cbn [store EXIT_FLAG] in Hclean.
  pose proof (batch_save_hash _ _ _ _ _ _ Hrun) as Hty1.
  destruct (evict_commands_run s1 Hty1)
    as (s2 & Hev & Hnow2 & _ & _ & Hfields).
  destruct (evict_commands_root _ _ Hev) as [_ Hkeep].
  rewrite Hev in Hclean. injection Hclean as <-. cbn [store].
  assert (Hex2 : root_expiry s2 = Some (now s + CONFIG.TEMP_DATA_TTL * 1000)).
  { rewrite (Hkeep f v Hf Hv1). exact Hex. }
  split; [by rewrite Hfields, Hf|]. split; [exact Hex2|].
  intros g. apply root_field_absent.
  apply (expiry_fires _ _ _ Hex2). lia.
Qed.

Lemma evicted_batch_still_expires_witness :
  let f := gen_field 0 0 0 Samples.t_a false in
  (temp_field f = false /\
   root_field Samples.s_mixed f = Some (c2b Samples.c0) /\
   CONFIG.TEMP_DATA_TTL * 1000 < 3600001) /\
  exists r s1 w2,
    batch_save Samples.psi1 Samples.t_a true Samples.s_mixed = (Val r, s1) /\
    clean_temp_data (World (Some (Client true)) false s1) = (Val tt, w2) /\
    root_field (store w2) f = Some (c2b Samples.c0) /\
    root_expiry (store w2)
      = Some (now Samples.s_mixed + CONFIG.TEMP_DATA_TTL * 1000) /\
    forall g, root_field (advance 3600001 (store w2)) g = None.
Proof.
  cbn zeta.
  assert (Hf : temp_field (gen_field 0 0 0 Samples.t_a false) = false)
    by apply gen_field_namespace.
  assert (Hv : root_field Samples.s_mixed (gen_field 0 0 0 Samples.t_a false)
               = Some (c2b Samples.c0)) by apply lookup_insert_eq.
  assert (Hms : CONFIG.TEMP_DATA_TTL * 1000 < 3600001)
    by (unfold CONFIG.TEMP_DATA_TTL; lia).
  assert (Hty : root_wrong_type Samples.s_mixed = false) by reflexivity.
  assert (Hin : in_bounds Samples.psi1 0 0 0) by (vm_compute; lia).
  pose proof (batch_save_run Samples.psi1 Samples.t_a true Samples.s_mixed
                Hty (batch_data_nonempty _ _ _ _ _ _ Hin)) as Hrun.
  destruct (clean_temp_data_completes
              (World (Some (Client true)) false _) (Client true) eq_refl
              (batch_save_hash _ _ _ _ _ _ Hrun)) as [w2 Hclean].
  split; [exact (conj Hf (conj Hv Hms))|].
  do 3 eexists. split; [exact Hrun|]. split; [exact Hclean|].
  exact (evicted_batch_still_expires _ _ _ _ _ _ _ _ _ _ _
           Hrun Hf Hv Hclean Hms).
Defined.

End ReadWindow.
